(** * BlindOrder backend: room state coordination core

    A shallow embedding of the game rule engine ([lib/gameLogic.ts]), the
    persistence service ([services/roomService.ts]), the room routes
    ([routes/rooms.ts]) and the socket handlers ([socket/handlers.ts], the
    revision that goes through [RoomService]) and, next to it, the handlers
    of the in-memory revision, followed by the properties of the
    specification that concern them and by further properties of the code.

    Conventions.
    - A JavaScript [number] that holds an integer is a [Z]; array lengths and
      indices are [nat]. Where the engine computes with such a number
      ([lives--], the progress figure) the computation is that of the
      doubles, see [decrement] and [nearestDouble].
    - A JavaScript object that is mutated in place ([room], [player]) is
      threaded through a small state-and-exception monad [Eng].
    - [Math.random()] and [Date.now()] are supplied by an environment. *)

From Stdlib Require Import ZArith Lia.
From stdpp Require Import base tactics option list sorting strings pretty gmap.

Open Scope Z_scope.

(** ** Data model ([lib/types.ts]) *)

Inductive RoomState : Type := Lobby | Playing | GameOver | Victory.

#[global] Instance RoomState_eq_dec : EqDecision RoomState.
Proof. solve_decision. Defined.

Record Player : Type := mkPlayer {
  p_id : string;
  username : string;
  numbers : list Z
}.

#[global] Instance Player_eq_dec : EqDecision Player.
Proof. solve_decision. Defined.

Inductive EventType : Type :=
  MoveMade | MoveFailed | GameStarted | GameEnded | GameReset.

#[global] Instance EventType_eq_dec : EqDecision EventType.
Proof. solve_decision. Defined.

(** The [data: any] payload of an event, one constructor per shape that the
    handlers build. *)
Inductive EventData : Type :=
  | DataMessage (message : string)
  | DataMoveMade (playerId : string) (playerName : option string)
      (number : Z) (timeline : list Z)
  | DataMoveFailed (playerId : string) (playerName : option string)
      (number : Z) (error : option string) (livesLost : option Z) (lives : Z)
  | DataGameEnded (result message : string).

#[global] Instance EventData_eq_dec : EqDecision EventData.
Proof. solve_decision. Defined.

Record GameEvent : Type := mkGameEvent {
  ev_id : string;
  ev_type : EventType;
  ev_data : EventData;
  ev_timestamp : Z
}.

#[global] Instance GameEvent_eq_dec : EqDecision GameEvent.
Proof. solve_decision. Defined.

Record GameRoom : Type := mkGameRoom {
  r_id : string;
  players : list Player;
  timeline : list Z;
  lives : Z;
  maxLives : Z;
  numbersPerPlayer : Z;
  state : RoomState;
  hostId : string;
  gameEvents : list GameEvent
}.

#[global] Instance GameRoom_eq_dec : EqDecision GameRoom.
Proof. solve_decision. Defined.

(** Field assignments [room.f = v]. *)
Definition set_players (v : list Player) (r : GameRoom) : GameRoom :=
  mkGameRoom (r_id r) v (timeline r) (lives r) (maxLives r)
    (numbersPerPlayer r) (state r) (hostId r) (gameEvents r).
Definition set_timeline (v : list Z) (r : GameRoom) : GameRoom :=
  mkGameRoom (r_id r) (players r) v (lives r) (maxLives r)
    (numbersPerPlayer r) (state r) (hostId r) (gameEvents r).
Definition set_lives (v : Z) (r : GameRoom) : GameRoom :=
  mkGameRoom (r_id r) (players r) (timeline r) v (maxLives r)
    (numbersPerPlayer r) (state r) (hostId r) (gameEvents r).
Definition set_state (v : RoomState) (r : GameRoom) : GameRoom :=
  mkGameRoom (r_id r) (players r) (timeline r) (lives r) (maxLives r)
    (numbersPerPlayer r) v (hostId r) (gameEvents r).
Definition set_hostId (v : string) (r : GameRoom) : GameRoom :=
  mkGameRoom (r_id r) (players r) (timeline r) (lives r) (maxLives r)
    (numbersPerPlayer r) (state r) v (gameEvents r).
Definition set_gameEvents (v : list GameEvent) (r : GameRoom) : GameRoom :=
  mkGameRoom (r_id r) (players r) (timeline r) (lives r) (maxLives r)
    (numbersPerPlayer r) (state r) (hostId r) v.
Definition set_numbers (v : list Z) (p : Player) : Player :=
  mkPlayer (p_id p) (username p) v.

Record GameConfig : Type := mkGameConfig {
  cfg_maxLives : Z;
  cfg_numbersPerPlayer : Z;
  minNumber : Z;
  maxNumber : Z
}.

(** ** Array helpers *)

(** [arr.includes(x)] *)
Definition includes (x : Z) (l : list Z) : bool := bool_decide (x ∈ l).

(** [room.players.find((p) => p.id === id)] *)
Definition findPlayer (id : string) (ps : list Player) : option Player :=
  List.find (λ p, bool_decide (p_id p = id)) ps.

(** [arr.flatMap((p) => p.numbers)] *)
Definition allHands (ps : list Player) : list Z := ps ≫= numbers.

(** [arr.sort((a, b) => a - b)]: ascending numeric order. *)
Definition sortAsc (l : list Z) : list Z := merge_sort Z.le l.

(** [arr.slice(start, end)] with JavaScript's treatment of negative and
    out-of-range bounds. *)
Definition jsSlice {A : Type} (l : list A) (start finish : Z) : list A :=
  let len := Z.of_nat (length l) in
  let k := if bool_decide (start < 0) then Z.max (len + start) 0
           else Z.min start len in
  let final := if bool_decide (finish < 0) then Z.max (len + finish) 0
               else Z.min finish len in
  take (Z.to_nat (final - k)) (drop (Z.to_nat k) l).

(** [[a[i], a[j]] = [a[j], a[i]]]: both reads happen before the writes. The
    loop that calls it keeps [j <= i < a.length]. *)
Definition swap (l : list Z) (i j : nat) : list Z :=
  match l !! i, l !! j with
  | Some ai, Some aj => <[j := ai]> (<[i := aj]> l)
  | _, _ => l
  end.

(** The object found by [find] is mutated in place: only the first player
    that satisfies the test changes. *)
Fixpoint update_first (test : Player → bool) (f : Player → Player)
    (ps : list Player) : list Player :=
  match ps with
  | [] => []
  | p :: ps' => if test p then f p :: ps' else p :: update_first test f ps'
  end.

(** ** Numbers

    A JavaScript [number] is an IEEE 754 double: 53 bits of significand,
    results rounded to the nearest double, a tie going to the even
    significand. Every integer from [-2^53] to [2^53] is a double; from
    there to [2^54] in absolute value the doubles are the even integers,
    then the multiples of 4, and so on. *)
Definition maxExact : Z := 2 ^ 53.

(** The integers on which adding and subtracting 1 is exact. *)
Definition exactRange (x : Z) : Prop := - maxExact < x ≤ maxExact.

(** [x--] on a number that holds the integer [x]: the double nearest to
    [x - 1]. In the exact range that is [x - 1]. Up to [2^54] in absolute
    value, [x] is even and [x - 1] lies half-way between the doubles
    [x - 2] and [x]: the one whose half is even is taken. Beyond, [x - 1]
    is nearer to [x] than to any other double. *)
Definition decrement (x : Z) : Z :=
  if bool_decide (- maxExact < x ≤ maxExact) then x - 1
  else if bool_decide (Z.abs x < 2 * maxExact) then
    if Z.even (x `div` 2) then x else x - 2
  else x.

(** A finite double in general: a fraction whose denominator is a power of
    two. *)
Definition Double : Type := (Z * Z)%type.

(** The double nearest to [n / d], for [0 < n] and [0 < d]: [exponent] is
    the exponent of the last bit of the significand (never below -1074,
    where the subnormal numbers are), [m] the significand. *)
Definition nearestPositive (n d : Z) : Double :=
  let k := Z.log2 n - Z.log2 d in
  let below := bool_decide (n * 2 ^ Z.max 0 (- k) < d * 2 ^ Z.max 0 k) in
  let exponent := Z.max ((if below then k - 1 else k) - 52) (-1074) in
  let N := n * 2 ^ Z.max 0 (- exponent) in
  let D := d * 2 ^ Z.max 0 exponent in
  let q := N `div` D in
  let r := N `mod` D in
  let m := if bool_decide (2 * r < D) then q
           else if bool_decide (D < 2 * r) then q + 1
           else if Z.even q then q else q + 1 in
  (m * 2 ^ Z.max 0 exponent, 2 ^ Z.max 0 (- exponent)).

(** The double nearest to [n / d], for [0 < d]. *)
Definition nearestDouble (n d : Z) : Double :=
  if bool_decide (n = 0) then (0, 1)
  else let x := nearestPositive (Z.abs n) d in (Z.sgn n * x.1, x.2).

(** A result at or beyond [2^1024] is [Infinity]. *)
Definition overflows (x : Double) : bool :=
  bool_decide (2 ^ 1024 * x.2 ≤ Z.abs x.1).

(** [x / y] and [x * y] on finite doubles, [y] not 0 in the first. *)
Definition jsDivide (x y : Double) : Double :=
  nearestDouble (Z.sgn y.1 * x.1 * y.2) (x.2 * Z.abs y.1).

Definition jsTimes (x y : Double) : Double :=
  nearestDouble (x.1 * y.1) (x.2 * y.2).

(** [Math.round(x)]: the integer nearest to [x], a half going up. *)
Definition mathRound (x : Double) : Z := (2 * x.1 + x.2) `div` (2 * x.2).

(** ** Randomness

    The [i]-th call of [Math.random()] returns the double [raw i / 2^53]
    (taken modulo [2^53], so that it lies in [0,1)); the product with an
    integer is taken exactly. *)
Definition resolution : Z := 2 ^ 53.

(** [Math.floor(Math.random() * k)] at call number [i]. *)
Definition randomBelow (raw : nat → Z) (i : nat) (k : Z) : Z :=
  ((raw i `mod` resolution) * k) `div` resolution.

(** ** The engine monad: a mutable room, exceptions, and loops cut by fuel *)

Inductive outcome (A : Type) : Type :=
  | Returns (a : A)
  | Throws (msg : string)
  | Unfinished.
Arguments Returns {A} a.
Arguments Throws {A} msg.
Arguments Unfinished {A}.

Definition Eng (A : Type) : Type := GameRoom → outcome A * GameRoom.

Definition ret {A : Type} (a : A) : Eng A := λ r, (Returns a, r).
Definition throw {A : Type} (msg : string) : Eng A := λ r, (Throws msg, r).
Definition bind {A B : Type} (m : Eng A) (k : A → Eng B) : Eng B :=
  λ r, match m r with
       | (Returns a, r') => k a r'
       | (Throws e, r') => (Throws e, r')
       | (Unfinished, r') => (Unfinished, r')
       end.
Definition getRoomObj : Eng GameRoom := λ r, (Returns r, r).
Definition modify (f : GameRoom → GameRoom) : Eng unit :=
  λ r, (Returns tt, f r).

Notation "x <-- m ;; k" := (bind m (λ x, k))
  (at level 100, m at next level, right associativity).
Notation "m ;;; k" := (bind m (λ _, k))
  (at level 100, right associativity).

(** ** The rule engine ([lib/gameLogic.ts]) *)

Module GameEngine.

(** The [while] loop that collects unique numbers. [None]: the loop is
    still running when the fuel is spent. *)
Fixpoint sampleLoop (fuel : nat) (raw : nat → Z) (cursor : nat)
    (range minNum totalNumbers : Z) (allNumbers : list Z)
    : option (list Z * nat) :=
  if bool_decide (Z.of_nat (length allNumbers) < totalNumbers) then
    match fuel with
    | O => None
    | S fuel' =>
        let num := randomBelow raw cursor range + minNum in
        if negb (includes num allNumbers)
        then sampleLoop fuel' raw (S cursor) range minNum totalNumbers
               (allNumbers ++ [num])
        else sampleLoop fuel' raw (S cursor) range minNum totalNumbers
               allNumbers
    end
  else Some (allNumbers, cursor).

(** [for (let i = allNumbers.length - 1; i > 0; i--)] *)
Fixpoint shuffleLoop (raw : nat → Z) (cursor : nat) (i : nat)
    (allNumbers : list Z) : list Z * nat :=
  match i with
  | O => (allNumbers, cursor)
  | S i' =>
      let j := Z.to_nat (randomBelow raw cursor (Z.of_nat i + 1)) in
      shuffleLoop raw (S cursor) i' (swap allNumbers i j)
  end.

(** [for (let playerIndex = 0; playerIndex < playerCount; playerIndex++)] *)
Definition distribute (npp : Z) (playerCount : nat) (allNumbers : list Z)
    : list (list Z) :=
  (λ playerIndex : nat,
     let startIndex := Z.of_nat playerIndex * npp in
     let endIndex := startIndex + npp in
     sortAsc (jsSlice allNumbers startIndex endIndex))
  <$> seq 0 playerCount.

Definition capacityMessage (totalNumbers range : Z) : string :=
  "Not enough unique numbers in range. Need " +:+ pretty totalNumbers +:+
  ", but range only has " +:+ pretty range +:+ " numbers.".

Definition generateAllPlayerNumbers (fuel : nat) (raw : nat → Z)
    (config : GameConfig) (playerCount : nat) : outcome (list (list Z)) :=
  let totalNumbers := Z.of_nat playerCount * cfg_numbersPerPlayer config in
  let range := maxNumber config - minNumber config + 1 in
  if bool_decide (totalNumbers > range) then
    Throws (capacityMessage totalNumbers range)
  else
    match sampleLoop fuel raw 0 range (minNumber config) totalNumbers [] with
    | None => Unfinished
    | Some (allNumbers, cursor) =>
        let '(shuffled, _) :=
          shuffleLoop raw cursor (length allNumbers - 1) allNumbers in
        Returns (distribute (cfg_numbersPerPlayer config) playerCount shuffled)
    end.

(** [allPlayerNumbers] always has one entry per player, so the index is in
    range. *)
Definition assignNumbers (allPlayerNumbers : list (list Z))
    (ps : list Player) : list Player :=
  imap (λ index player,
          set_numbers (default [] (allPlayerNumbers !! index)) player) ps.

Definition initializeGame (fuel : nat) (raw : nat → Z) : Eng unit :=
  room <-- getRoomObj ;;
  let config := mkGameConfig (maxLives room) (numbersPerPlayer room) 1 100 in
  match generateAllPlayerNumbers fuel raw config (length (players room)) with
  | Returns allPlayerNumbers =>
      modify (λ r, set_players (assignNumbers allPlayerNumbers (players r)) r) ;;;
      modify (set_timeline []) ;;;
      modify (λ r, set_lives (maxLives r) r) ;;;
      modify (set_state Playing)
  | Throws error => throw error
  | Unfinished => λ r, (Unfinished, r)
  end.

Record Validation : Type := mkValidation {
  valid : bool;
  v_error : option string
}.

Definition getNextExpectedNumber : Eng Z :=
  room <-- getRoomObj ;;
  let allNumbers := sortAsc (allHands (players room)) in
  match List.find (λ num, negb (includes num (timeline room))) allNumbers with
  | Some num => ret num
  | None => ret (-1)
  end.

Definition expectedMessage (expectedNumber number : Z) : string :=
  "Expected " +:+ pretty expectedNumber +:+ ", got " +:+ pretty number.

Definition validateMove (playerId : string) (number : Z) : Eng Validation :=
  room <-- getRoomObj ;;
  if bool_decide (state room ≠ Playing) then
    ret (mkValidation false (Some "Game is not in playing state"))
  else
    match findPlayer playerId (players room) with
    | None => ret (mkValidation false (Some "Player not found"))
    | Some player =>
        if negb (includes number (numbers player)) then
          ret (mkValidation false (Some "Player does not have this number"))
        else if includes number (timeline room) then
          ret (mkValidation false (Some "Number already played"))
        else
          expectedNumber <-- getNextExpectedNumber ;;
          if bool_decide (number ≠ expectedNumber) then
            ret (mkValidation false
                   (Some (expectedMessage expectedNumber number)))
          else ret (mkValidation true None)
    end.

Record MoveResult : Type := mkMoveResult {
  success : bool;
  gameOver : option bool;
  victory : option bool;
  error : option string;
  livesLost : option Z
}.

Definition makeMove (playerId : string) (number : Z) : Eng MoveResult :=
  validation <-- validateMove playerId number ;;
  if negb (valid validation) then
    modify (λ r, set_lives (decrement (lives r)) r) ;;;
    room <-- getRoomObj ;;
    if bool_decide (lives room ≤ 0) then
      modify (set_state GameOver) ;;;
      ret (mkMoveResult false (Some true) None (v_error validation) (Some 1))
    else
      ret (mkMoveResult false None None (v_error validation) (Some 1))
  else
    modify (λ r, set_timeline (timeline r ++ [number]) r) ;;;
    modify (λ r, set_players
                   (update_first (λ p, bool_decide (p_id p = playerId))
                      (λ player, set_numbers
                         (filter (λ n, n ≠ number) (numbers player)) player)
                      (players r)) r) ;;;
    room <-- getRoomObj ;;
    let allNumbersPlayed :=
      forallb (λ p, bool_decide (length (numbers p) = 0%nat)) (players room) in
    if allNumbersPlayed then
      modify (set_state Victory) ;;;
      ret (mkMoveResult true None (Some true) None None)
    else ret (mkMoveResult true None None None None).

Record GameStateView : Type := mkGameStateView {
  gs_state : RoomState;
  gs_lives : Z;
  gs_maxLives : Z;
  gs_timeline : list Z;
  gs_progress : Z;
  gs_remainingNumbers : list Z;
  gs_gameEvents : list GameEvent
}.

(** [Math.round((playedNumbers / totalNumbers) * 100)] for [0 < total],
    where [totalNumbers] is the product [players.length * numbersPerPlayer]
    as the doubles give it, the double nearest to the integer [total]. The
    quotient and its product with 100 are rounded to a double each; when
    the product of the two factors overflows, the quotient is 0. *)
Definition roundPercent (played total : Z) : Z :=
  let totalNumbers := nearestDouble total 1 in
  let playedNumbers := nearestDouble played 1 in
  if overflows totalNumbers then 0
  else mathRound (jsTimes (jsDivide playedNumbers totalNumbers) (100, 1)).

Definition getGameState (room : GameRoom) : GameStateView :=
  let allNumbers := sortAsc (allHands (players room)) in
  let totalNumbers := Z.of_nat (length (players room)) * numbersPerPlayer room in
  let playedNumbers := Z.of_nat (length (timeline room)) in
  let progress :=
    if bool_decide (totalNumbers > 0) then roundPercent playedNumbers totalNumbers
    else 0 in
  mkGameStateView (state room) (lives room) (maxLives room) (timeline room)
    progress
    (filter (λ n, n ∉ timeline room) allNumbers)
    (gameEvents room).

(** [id] is the string built from [Date.now()] and [Math.random()]. *)
Definition addGameEvent (id : string) (type : EventType) (data : EventData)
    (timestamp : Z) : Eng unit :=
  modify (λ r, set_gameEvents
                 (gameEvents r ++ [mkGameEvent id type data timestamp]) r) ;;;
  room <-- getRoomObj ;;
  if bool_decide (50 < length (gameEvents room))%nat then
    modify (λ r, set_gameEvents
                   (drop (length (gameEvents r) - 50)%nat (gameEvents r)) r)
  else ret tt.

Definition resetGame : Eng unit :=
  modify (λ r, set_players (set_numbers [] <$> players r) r) ;;;
  modify (set_timeline []) ;;;
  modify (λ r, set_lives (maxLives r) r) ;;;
  modify (set_state Lobby) ;;;
  modify (set_gameEvents []).

End GameEngine.

(** Running an engine action on a room object. *)
Definition exec {A : Type} (m : Eng A) (r : GameRoom) : GameRoom := snd (m r).

(** ** Persistence ([database/database.ts], [services/roomService.ts])

    The two SQLite tables. [rooms] is keyed by its primary key [id];
    [players] is kept in insertion order, which is the order of
    [ORDER BY joined_at ASC] (rows inserted later never sort earlier). The
    numeric collections are stored as JSON text and parsed back unchanged;
    the timestamps [created_at] and [updated_at] are not represented. *)

Record RoomRow : Type := mkRoomRow {
  max_lives : Z;
  numbers_per_player : Z;
  row_lives : Z;
  row_state : RoomState;
  host_id : string;
  row_timeline : list Z;
  game_events : list GameEvent
}.

Record PlayerRow : Type := mkPlayerRow {
  pr_id : string;
  pr_room_id : string;
  pr_username : string;
  pr_numbers : list Z
}.

Record Database : Type := mkDatabase {
  roomsTbl : gmap string RoomRow;
  playersTbl : list PlayerRow
}.

Module RoomService.

(** [INSERT INTO rooms (id, max_lives, numbers_per_player, lives, host_id)];
    the other columns take their defaults. A second row with the same
    primary key is rejected and the service throws. *)
Definition createRoom (roomId : string) (maxLives numbersPerPlayer : Z)
    (d : Database) : outcome GameRoom * Database :=
  match roomsTbl d !! roomId with
  | Some _ => (Throws "Failed to create room", d)
  | None =>
      (Returns (mkGameRoom roomId [] [] maxLives maxLives numbersPerPlayer
                  Lobby EmptyString []),
       mkDatabase
         (<[roomId := mkRoomRow maxLives numbersPerPlayer maxLives Lobby EmptyString
                        [] []]> (roomsTbl d))
         (playersTbl d))
  end.

(** [SELECT * FROM players WHERE room_id = ? ORDER BY joined_at ASC] *)
Definition getPlayers (roomId : string) (d : Database) : list PlayerRow :=
  filter (λ row, pr_room_id row = roomId) (playersTbl d).

Definition playerOfRow (row : PlayerRow) : Player :=
  mkPlayer (pr_id row) (pr_username row) (pr_numbers row).

Definition getRoom (roomId : string) (d : Database) : option GameRoom :=
  match roomsTbl d !! roomId with
  | None => None
  | Some roomRow =>
      Some (mkGameRoom roomId
              (playerOfRow <$> getPlayers roomId d)
              (row_timeline roomRow) (row_lives roomRow) (max_lives roomRow)
              (numbers_per_player roomRow) (row_state roomRow)
              (host_id roomRow) (game_events roomRow))
  end.

(** [UPDATE players SET numbers = ? WHERE id = ?] *)
Definition updatePlayerNumbers (player : Player) (tbl : list PlayerRow)
    : list PlayerRow :=
  (λ row, if decide (pr_id row = p_id player)
          then mkPlayerRow (pr_id row) (pr_room_id row) (pr_username row)
                 (numbers player)
          else row) <$> tbl.

(** [UPDATE rooms SET lives, state, timeline, game_events, host_id WHERE id],
    then one numbers update per player of the room object. *)
Definition updateRoom (room : GameRoom) (d : Database) : Database :=
  mkDatabase
    (alter (λ row, mkRoomRow (max_lives row) (numbers_per_player row)
                     (lives room) (state room) (hostId room) (timeline room)
                     (gameEvents room))
       (r_id room) (roomsTbl d))
    (foldl (λ tbl player, updatePlayerNumbers player tbl) (playersTbl d)
       (players room)).

(** [DELETE FROM rooms WHERE id = ?]; the foreign key of [players] is
    declared [ON DELETE CASCADE] and foreign keys are switched on. *)
Definition deleteRoom (roomId : string) (d : Database) : Database :=
  mkDatabase (delete roomId (roomsTbl d))
    (filter (λ row, pr_room_id row ≠ roomId) (playersTbl d)).

(** [INSERT OR REPLACE INTO players]: a row with the same primary key is
    removed first; the new row is the latest one. [None]: the foreign key
    rejects a room that does not exist and the service throws. *)
Definition addPlayer (roomId : string) (player : Player) (d : Database)
    : option Database :=
  match roomsTbl d !! roomId with
  | None => None
  | Some _ =>
      Some (mkDatabase (roomsTbl d)
              (filter (λ row, pr_id row ≠ p_id player) (playersTbl d) ++
               [mkPlayerRow (p_id player) roomId (username player)
                  (numbers player)]))
  end.

(** [DELETE FROM players WHERE id = ?] *)
Definition removePlayer (playerId : string) (d : Database) : Database :=
  mkDatabase (roomsTbl d)
    (filter (λ row, pr_id row ≠ playerId) (playersTbl d)).

(** [UPDATE rooms SET host_id = ? WHERE id = ?] *)
Definition setHost (roomId hostId : string) (d : Database) : Database :=
  mkDatabase
    (alter (λ row, mkRoomRow (max_lives row) (numbers_per_player row)
                     (row_lives row) (row_state row) hostId (row_timeline row)
                     (game_events row))
       roomId (roomsTbl d))
    (playersTbl d).

End RoomService.

(** ** Room routes ([routes/rooms.ts]) *)

Module Routes.

Inductive ResponseBody : Type :=
  | BodyError (error : string)
  | BodyCreated (roomId : string) (room : GameRoom).

Record HttpResponse : Type := mkHttpResponse {
  status : Z;
  body : ResponseBody
}.

(** The [res] object: the response that went out, if any. *)
Definition Res : Type := option HttpResponse.

(** [res.status(code).json(body)]. Express throws when a response has
    already been sent on this [res]. *)
Definition sendJson (code : Z) (b : ResponseBody) (res : Res)
    : outcome unit * Res :=
  match res with
  | None => (Returns tt, Some (mkHttpResponse code b))
  | Some _ => (Throws "Cannot set headers after they are sent to the client", res)
  end.

(** The request body [{ maxLives = 3, numbersPerPlayer = 6 }]. *)
Record CreateBody : Type := mkCreateBody {
  body_maxLives : option Z;
  body_numbersPerPlayer : option Z
}.

(** The [try] block of [POST /]. Neither validation branch returns, so
    control falls through to the next statement unless [json] throws. *)
Definition postRoomTry (roomId : string) (maxLives numbersPerPlayer : Z)
    (d : Database) (res : Res) : outcome unit * Database * Res :=
  let '(o1, res1) :=
    if bool_decide (maxLives < 1) || bool_decide (maxLives > 10)
    then sendJson 400 (BodyError "Max lives must be between 1 and 10") res
    else (Returns tt, res) in
  match o1 with
  | Returns _ =>
      let '(o2, res2) :=
        if bool_decide (numbersPerPlayer < 1) || bool_decide (numbersPerPlayer > 20)
        then sendJson 400
               (BodyError "Numbers per player must be between 1 and 20") res1
        else (Returns tt, res1) in
      match o2 with
      | Returns _ =>
          match RoomService.createRoom roomId maxLives numbersPerPlayer d with
          | (Returns room, d') =>
              let '(o3, res3) := sendJson 200 (BodyCreated roomId room) res2 in
              (o3, d', res3)
          | (Throws e, d') => (Throws e, d', res2)
          | (Unfinished, d') => (Unfinished, d', res2)
          end
      | Throws e => (Throws e, d, res2)
      | Unfinished => (Unfinished, d, res2)
      end
  | Throws e => (Throws e, d, res1)
  | Unfinished => (Unfinished, d, res1)
  end.

(** [POST /]: [roomId] is the code drawn by [generateRoomCode()]. The
    [catch] block answers 500, which itself throws when a response is
    already out. Result: the store and the response the client got. *)
Definition postRoom (roomId : string) (b : CreateBody) (d : Database)
    : Database * Res :=
  let maxLives := default 3 (body_maxLives b) in
  let numbersPerPlayer := default 6 (body_numbersPerPlayer b) in
  match postRoomTry roomId maxLives numbersPerPlayer d None with
  | (Returns _, d', res) => (d', res)
  | (_, d', res) =>
      (d', snd (sendJson 500 (BodyError "Failed to create room") res))
  end.

End Routes.

(** ** Socket handlers ([socket/handlers.ts]) *)

Inductive Target : Type :=
  | ToSocket (socketId : string)   (* [socket.emit] *)
  | ToRoom (roomId : string).      (* [io.to(roomId).emit] *)

Inductive Message : Type :=
  | MsgError (message : string)
  | RoomUpdated (room : GameRoom)
  | GameStateUpdated (view : GameEngine.GameStateView)
  | RoomDeleted (reason : string)
  | LeftRoom.

(** The server: the store, the channel subscriptions [(socket, room)] and
    the messages emitted so far, oldest first. *)
Record World : Type := mkWorld {
  db : Database;
  subs : gset (string * string);
  outbox : list (Target * Message)
}.

(** What a handler invocation takes from its surroundings: the clock, the
    draws of [Math.random()], the strings used as event ids, and the fuel
    that cuts the sampling loop. *)
Record Env : Type := mkEnv {
  env_now : Z;
  env_raw : nat → Z;
  env_eventId : nat → string;
  env_fuel : nat
}.

Module Handlers.

Import GameEngine.

Definition emit (t : Target) (m : Message) (w : World) : World :=
  mkWorld (db w) (subs w) (outbox w ++ [(t, m)]).

Definition withDb (f : Database → Database) (w : World) : World :=
  mkWorld (f (db w)) (subs w) (outbox w).

(** [socket.join(roomId)] and [socket.leave(roomId)] *)
Definition socketJoin (socketId roomId : string) (w : World) : World :=
  mkWorld (db w) ({[ (socketId, roomId) ]} ∪ subs w) (outbox w).
Definition socketLeave (socketId roomId : string) (w : World) : World :=
  mkWorld (db w) (subs w ∖ {[ (socketId, roomId) ]}) (outbox w).

(** The tail shared by the handlers: [room-updated] to the channel, then
    the projection when the game is not in the lobby. *)
Definition emitGameStateIfStarted (t : Target) (room : GameRoom) (w : World)
    : World :=
  if bool_decide (state room ≠ Lobby)
  then emit t (GameStateUpdated (getGameState room)) w
  else w.

Record JoinData : Type := mkJoinData {
  jd_roomId : string;
  jd_playerName : option string;
  jd_isHost : option bool
}.

(** [playerName || "Anonymous"] *)
Definition nameOrAnonymous (playerName : option string) : string :=
  match playerName with
  | Some (String c s) => String c s
  | _ => "Anonymous"
  end.

Definition onJoinRoom (socketId : string) (data : JoinData) (w : World)
    : World :=
  let roomId := jd_roomId data in
  let isHost := default false (jd_isHost data) in
  match RoomService.getRoom roomId (db w) with
  | None => emit (ToSocket socketId) (MsgError "Room not found") w
  | Some room =>
      if bool_decide (state room = Playing) &&
         negb (bool_decide (is_Some (findPlayer socketId (players room))))
      then emit (ToSocket socketId) (MsgError "Cannot join game in progress") w
      else
        match findPlayer socketId (players room) with
        | Some existingPlayer =>
            let w1 := socketJoin socketId roomId w in
            let w2 := emit (ToRoom roomId) (RoomUpdated room) w1 in
            emitGameStateIfStarted (ToSocket socketId) room w2
        | None =>
            let player :=
              mkPlayer socketId (nameOrAnonymous (jd_playerName data)) [] in
            let room1 := set_players (players room ++ [player]) room in
            match RoomService.addPlayer roomId player (db w) with
            | None => w
            | Some d1 =>
                let becomesHost :=
                  isHost || bool_decide (hostId room1 = EmptyString) in
                let room2 :=
                  if becomesHost then set_hostId socketId room1 else room1 in
                let d2 :=
                  if becomesHost then RoomService.setHost roomId socketId d1
                  else d1 in
                let w1 := socketJoin socketId roomId (withDb (λ _, d2) w) in
                let w2 := withDb (RoomService.updateRoom room2) w1 in
                let w3 := emit (ToRoom roomId) (RoomUpdated room2) w2 in
                emitGameStateIfStarted (ToSocket socketId) room2 w3
            end
        end
  end.

Definition startCapacityMessage (totalNumbersNeeded availableNumbers : Z)
    : string :=
  "Not enough unique numbers available. Need " +:+ pretty totalNumbersNeeded +:+
  " but only have " +:+ pretty availableNumbers +:+
  ". Reduce players or numbers per player.".

(** The body of the [try] block of [start-game], up to the store update. *)
Definition startGameBody (env : Env) : Eng unit :=
  initializeGame (env_fuel env) (env_raw env) ;;;
  addGameEvent (env_eventId env 0) GameStarted
    (DataMessage "Game started! Work together to play all numbers in ascending order. No communication allowed!")
    (env_now env).

(** [None]: the sampling loop of the deal is still running when the fuel
    of [env] is spent. *)
Definition onStartGame (env : Env) (socketId roomId : string) (w : World)
    : option World :=
  match RoomService.getRoom roomId (db w) with
  | None => Some (emit (ToSocket socketId) (MsgError "Room not found") w)
  | Some room =>
      if bool_decide (hostId room ≠ socketId) then
        Some (emit (ToSocket socketId)
                (MsgError "Only host can start the game") w)
      else if bool_decide (length (players room) < 2)%nat then
        Some (emit (ToSocket socketId)
                (MsgError "Need at least 2 players to start") w)
      else
        let totalNumbersNeeded :=
          Z.of_nat (length (players room)) * numbersPerPlayer room in
        let availableNumbers := 100 in
        if bool_decide (totalNumbersNeeded > availableNumbers) then
          Some (emit (ToSocket socketId)
                  (MsgError (startCapacityMessage totalNumbersNeeded
                               availableNumbers)) w)
        else
          match startGameBody env room with
          | (Returns _, room') =>
              let w1 := withDb (RoomService.updateRoom room') w in
              let w2 := emit (ToRoom roomId) (RoomUpdated room') w1 in
              Some (emit (ToRoom roomId)
                      (GameStateUpdated (getGameState room')) w2)
          | (Throws message, _) =>
              Some (emit (ToSocket socketId)
                      (MsgError ("Failed to start game: " +:+ message)) w)
          | (Unfinished, _) => None
          end
  end.

(** The engine call and the event bookkeeping of [play-number]. *)
Definition playNumberBody (env : Env) (socketId : string) (number : Z)
    : Eng unit :=
  result <-- makeMove socketId number ;;
  room <-- getRoomObj ;;
  let player := findPlayer socketId (players room) in
  if success result then
    addGameEvent (env_eventId env 0) MoveMade
      (DataMoveMade socketId (username <$> player) number (timeline room))
      (env_now env) ;;;
    if bool_decide (victory result = Some true) then
      addGameEvent (env_eventId env 1) GameEnded
        (DataGameEnded "victory" "Congratulations! You completed the sequence!")
        (env_now env)
    else ret tt
  else
    addGameEvent (env_eventId env 0) MoveFailed
      (DataMoveFailed socketId (username <$> player) number (error result)
         (livesLost result) (lives room))
      (env_now env) ;;;
    if bool_decide (gameOver result = Some true) then
      addGameEvent (env_eventId env 1) GameEnded
        (DataGameEnded "defeat" "Game Over! You ran out of lives.")
        (env_now env)
    else ret tt.

Definition onPlayNumber (env : Env) (socketId roomId : string) (number : Z)
    (w : World) : World :=
  match RoomService.getRoom roomId (db w) with
  | None => emit (ToSocket socketId) (MsgError "Room not found") w
  | Some room =>
      let room' := exec (playNumberBody env socketId number) room in
      let w1 := withDb (RoomService.updateRoom room') w in
      let w2 := emit (ToRoom roomId) (RoomUpdated room') w1 in
      emit (ToRoom roomId) (GameStateUpdated (getGameState room')) w2
  end.

Definition resetGameBody (env : Env) : Eng unit :=
  resetGame ;;;
  addGameEvent (env_eventId env 0) GameReset
    (DataMessage "Game has been reset") (env_now env).

Definition onResetGame (env : Env) (socketId roomId : string) (w : World)
    : World :=
  match RoomService.getRoom roomId (db w) with
  | None => emit (ToSocket socketId) (MsgError "Room not found") w
  | Some room =>
      if bool_decide (hostId room ≠ socketId) then
        emit (ToSocket socketId) (MsgError "Only host can reset the game") w
      else
        let room' := exec (resetGameBody env) room in
        let w1 := withDb (RoomService.updateRoom room') w in
        let w2 := emit (ToRoom roomId) (RoomUpdated room') w1 in
        emit (ToRoom roomId) (GameStateUpdated (getGameState room')) w2
  end.

(** [!roomId]: no room id, or the empty string. *)
Definition noRoomId (roomId : option string) : bool :=
  match roomId with
  | Some (String _ _) => false
  | _ => true
  end.

Definition handlePlayerLeave (socketId : string) (roomId : option string)
    (w : World) : World :=
  match roomId with
  | Some (String c s) =>
      let roomId := String c s in
      match RoomService.getRoom roomId (db w) with
      | None => w
      | Some room =>
          let isHost := bool_decide (hostId room = socketId) in
          let wasInLobby := bool_decide (state room = Lobby) in
          let room1 :=
            set_players (filter (λ p, p_id p ≠ socketId) (players room)) room in
          let w1 := withDb (RoomService.removePlayer socketId) w in
          if isHost && wasInLobby then
            let w2 := emit (ToRoom roomId)
                        (RoomDeleted "Host left during lobby") w1 in
            withDb (RoomService.deleteRoom roomId) w2
          else if bool_decide (length (players room1) = 0%nat) then
            withDb (RoomService.deleteRoom roomId) w1
          else
            let promote := isHost && bool_decide (0 < length (players room1))%nat in
            let newHost :=
              match players room1 with
              | first :: _ => p_id first
              | [] => hostId room1
              end in
            let room2 := if promote then set_hostId newHost room1 else room1 in
            let w2 :=
              if promote then withDb (RoomService.setHost roomId newHost) w1
              else w1 in
            let w3 := withDb (RoomService.updateRoom room2) w2 in
            let w4 := emit (ToRoom roomId) (RoomUpdated room2) w3 in
            emitGameStateIfStarted (ToRoom roomId) room2 w4
      end
  | _ => w
  end.

Definition onLeaveRoom (socketId roomId : string) (w : World) : World :=
  let w1 := socketLeave socketId roomId w in
  let w2 := handlePlayerLeave socketId (Some roomId) w1 in
  emit (ToSocket socketId) LeftRoom w2.

(** [disconnect] carries no room id. *)
Definition onDisconnect (socketId : string) (w : World) : World :=
  handlePlayerLeave socketId None w.

End Handlers.

(** ** The server as a transition system *)

Inductive Request : Type :=
  | CreateRoom (code : string) (b : Routes.CreateBody)
  | JoinRoom (socketId : string) (data : Handlers.JoinData)
  | StartGame (env : Env) (socketId roomId : string)
  | PlayNumber (env : Env) (socketId roomId : string) (number : Z)
  | ResetGame (env : Env) (socketId roomId : string)
  | LeaveRoom (socketId roomId : string)
  | Disconnect (socketId : string).

(** One request served to completion. [None]: [start-game] did not finish
    within the fuel of its environment. *)
Definition serve (req : Request) (w : World) : option World :=
  match req with
  | CreateRoom code b =>
      Some (Handlers.withDb (λ d, fst (Routes.postRoom code b d)) w)
  | JoinRoom socketId data => Some (Handlers.onJoinRoom socketId data w)
  | StartGame env socketId roomId => Handlers.onStartGame env socketId roomId w
  | PlayNumber env socketId roomId number =>
      Some (Handlers.onPlayNumber env socketId roomId number w)
  | ResetGame env socketId roomId =>
      Some (Handlers.onResetGame env socketId roomId w)
  | LeaveRoom socketId roomId => Some (Handlers.onLeaveRoom socketId roomId w)
  | Disconnect socketId => Some (Handlers.onDisconnect socketId w)
  end.

Fixpoint serveAll (reqs : list Request) (w : World) : option World :=
  match reqs with
  | [] => Some w
  | req :: reqs' =>
      match serve req w with
      | Some w' => serveAll reqs' w'
      | None => None
      end
  end.

Definition emptyWorld : World := mkWorld (mkDatabase ∅ []) ∅ [].

(** The worlds the server can be in: those reached from the empty store by
    serving requests one after the other. *)
Inductive reachable : World → Prop :=
  | reachable_empty : reachable emptyWorld
  | reachable_serve (req : Request) (w w' : World) :
      reachable w → serve req w = Some w' → reachable w'.

(** * Vocabulary of the properties *)

Import RoomService GameEngine Handlers.

(** [n] is the smallest number, over all hands, that is not on the
    timeline. *)
Definition leastUnplayed (room : GameRoom) (n : Z) : Prop :=
  n ∈ allHands (players room) ∧ (n ∉ timeline room) ∧
  ∀ m, m ∈ allHands (players room) → m ∉ timeline room → n ≤ m.

(** The five rejection messages. *)
Definition notPlayingMsg : string := "Game is not in playing state".

Definition unknownPlayerMsg : string := "Player not found".

Definition notHeldMsg : string := "Player does not have this number".

Definition alreadyPlayedMsg : string := "Number already played".

(** The hand of the mover after a successful move. *)
Definition playFrom (playerId : string) (number : Z) (ps : list Player)
    : list Player :=
  update_first (λ p, bool_decide (p_id p = playerId))
    (λ player, set_numbers (filter (λ n, n ≠ number) (numbers player)) player)
    ps.

Definition allHandsEmpty (ps : list Player) : Prop :=
  ∀ p, p ∈ ps → numbers p = [].

(** The claim of C3 about a rejected move, as the specification words it:
    the state is set to [game-over] exactly when the decrement brings the
    lives to 0. *)
Definition gameOverExactlyAtZero (playerId : string) (number : Z)
    (room : GameRoom) : Prop :=
  let '(res, room') := GameEngine.makeMove playerId number room in
  (state room' = GameOver ∧ state room ≠ GameOver) ↔ lives room' = 0.

Definition roomAtZeroLives : GameRoom :=
  mkGameRoom "ROOM01" [mkPlayer "s1" "ann" [4; 9]; mkPlayer "s2" "bob" [7]]
    [] 0 0 1 Playing "s1" [].

(** The numbers the sampling loop has looked at after [n] draws. *)
Definition draws (raw : nat → Z) (range minNum : Z) (n : nat) : list Z :=
  (λ i, randomBelow raw i range + minNum) <$> seq 0 n.

(** What the sampling loop keeps true of [allNumbers]. *)
Definition sampled (range minNum : Z) (allNumbers : list Z) : Prop :=
  NoDup allNumbers ∧ Forall (λ x, minNum ≤ x < minNum + range) allNumbers.

(** A random source whose draws in the range 1..100 are 1, 2, 3, ... *)
Definition countingSource (i : nat) : Z :=
  (Z.of_nat i * resolution + 99) `div` 100.

(** The primary key of [players]: no two rows share an id. *)
Definition wf (d : Database) : Prop := NoDup (pr_id <$> playersTbl d).

(** What the sequence of numbers updates of [updateRoom] does to one row. *)
Definition updRow (ps : list Player) (row : PlayerRow) : PlayerRow :=
  foldl (λ row p, if decide (pr_id row = p_id p)
                  then mkPlayerRow (pr_id row) (pr_room_id row)
                         (pr_username row) (numbers p)
                  else row) row ps.

(** The room object after a deal of [hands]. *)
Definition dealt (hands : list (list Z)) (room : GameRoom) : GameRoom :=
  set_state Playing
    (set_lives (maxLives room)
       (set_timeline []
          (set_players (assignNumbers hands (players room)) room))).

(** Everything that is in play: the numbers played and the numbers held. *)
Definition pool (room : GameRoom) : list Z :=
  timeline room ++ allHands (players room).

(** While the game is being played: the timeline goes strictly up, every
    number on it is below every number still held, and no number is held
    twice. *)
Definition playingInv (room : GameRoom) : Prop :=
  state room = Playing →
  StronglySorted Z.lt (timeline room) ∧
  (∀ t h, t ∈ timeline room → h ∈ allHands (players room) → t < h) ∧
  NoDup (allHands (players room)).

(** In a room configured with at least one life, a life is left as long as
    the game is not over. *)
Definition livesInv (room : GameRoom) : Prop :=
  1 ≤ maxLives room → state room ≠ GameOver → 1 ≤ lives room.

Definition good (room : GameRoom) : Prop := playingInv room ∧ livesInv room.

(** The room as [createRoom] makes it. *)
Definition created (room : GameRoom) : Prop :=
  state room = Lobby ∧ lives room = maxLives room ∧ timeline room = [].

(** The ways in which serving one request changes one stored room. *)
Inductive roomChange : GameRoom → GameRoom → Prop :=
  | change_none (r : GameRoom) : roomChange r r
  | change_evict (r : GameRoom) (socketId host : string) :
      roomChange r
        (set_hostId host
           (set_players (filter (λ p, p_id p ≠ socketId) (players r)) r))
  | change_seat (r : GameRoom) (p : Player) (host : string) :
      numbers p = [] →
      roomChange r (set_hostId host (set_players (players r ++ [p]) r))
  | change_move (r r1 : GameRoom) (socketId : string) (number : Z)
      (res : GameEngine.MoveResult) (events : list GameEvent) :
      GameEngine.makeMove socketId number r = (Returns res, r1) →
      roomChange r (set_gameEvents events r1)
  | change_start (r : GameRoom) (fuel : nat) (raw : nat → Z)
      (hands : list (list Z)) (events : list GameEvent) :
      GameEngine.generateAllPlayerNumbers fuel raw
        (mkGameConfig (maxLives r) (numbersPerPlayer r) 1 100)
        (length (players r)) = Returns hands →
      roomChange r (set_gameEvents events (dealt hands r))
  | change_reset (r : GameRoom) (events : list GameEvent) :
      roomChange r
        (set_gameEvents events
           (set_state Lobby
              (set_lives (maxLives r)
                 (set_timeline []
                    (set_players (set_numbers [] <$> players r) r))))).

(** The changes that only move numbers from a hand to the timeline. *)
Inductive gentleChange : GameRoom → GameRoom → Prop :=
  | gentle_none (r : GameRoom) : gentleChange r r
  | gentle_move (r r1 : GameRoom) (socketId : string) (number : Z)
      (res : GameEngine.MoveResult) (events : list GameEvent) :
      GameEngine.makeMove socketId number r = (Returns res, r1) →
      gentleChange r (set_gameEvents events r1).

(** The room object still has the seats and the configuration of the stored
    room. *)
Definition sameSeats (room room' : GameRoom) : Prop :=
  r_id room' = r_id room ∧
  p_id <$> players room' = p_id <$> players room ∧
  username <$> players room' = username <$> players room ∧
  maxLives room' = maxLives room ∧
  numbersPerPlayer room' = numbersPerPlayer room.

(** The requests that neither seat nor unseat anybody and do not restart the
    game of the room [roomId]. *)
Definition quiet (roomId : string) (req : Request) : Prop :=
  match req with
  | CreateRoom _ _ | PlayNumber _ _ _ _ | Disconnect _ => True
  | StartGame _ _ roomId' | ResetGame _ _ roomId' => roomId' ≠ roomId
  | JoinRoom _ _ | LeaveRoom _ _ => False
  end.

(** The requests that restore the lives of the room [roomId]. *)
Definition restarts (roomId : string) (req : Request) : Prop :=
  match req with
  | StartGame _ _ roomId' | ResetGame _ _ roomId' => roomId' = roomId
  | _ => False
  end.

(** The player object a join builds, the host it leaves the room with, and
    the room object it stores. *)
Definition newPlayer (socketId : string) (data : JoinData) : Player :=
  mkPlayer socketId (nameOrAnonymous (jd_playerName data)) [].

Definition hostAfterJoin (socketId : string) (data : JoinData)
    (room : GameRoom) : string :=
  if default false (jd_isHost data) || bool_decide (hostId room = EmptyString)
  then socketId else hostId room.

Definition roomAfterJoin (socketId : string) (data : JoinData)
    (room : GameRoom) : GameRoom :=
  set_hostId (hostAfterJoin socketId data room)
    (set_players (players room ++ [newPlayer socketId data]) room).

(** The store after a newcomer is seated. *)
Definition storeAfterJoin (socketId : string) (data : JoinData)
    (room : GameRoom) (d : Database) : Database :=
  let player := newPlayer socketId data in
  let d1 := mkDatabase (roomsTbl d)
              (filter (λ row, pr_id row ≠ socketId) (playersTbl d) ++
               [mkPlayerRow socketId (jd_roomId data) (username player) []]) in
  let d2 :=
    if default false (jd_isHost data) || bool_decide (hostId room = EmptyString)
    then setHost (jd_roomId data) socketId d1 else d1 in
  updateRoom (roomAfterJoin socketId data room) d2.

(** The players that stay, the host the room is left with, and the room
    object that is stored when the room survives. *)
Definition remaining (socketId : string) (room : GameRoom) : list Player :=
  filter (λ p, p_id p ≠ socketId) (players room).

Definition hostAfterLeave (socketId : string) (room : GameRoom) : string :=
  if bool_decide (hostId room = socketId) then
    match remaining socketId room with
    | first :: _ => p_id first
    | [] => hostId room
    end
  else hostId room.

Definition roomAfterLeave (socketId : string) (room : GameRoom) : GameRoom :=
  set_hostId (hostAfterLeave socketId room)
    (set_players (remaining socketId room) room).

Definition hostLeavesLobby (socketId : string) (room : GameRoom) : Prop :=
  hostId room = socketId ∧ state room = Lobby.

(** The store when the room survives the leave. *)
Definition storeAfterLeave (socketId roomId : string) (room : GameRoom)
    (d : Database) : Database :=
  let d1 := removePlayer socketId d in
  let d2 :=
    if bool_decide (hostId room = socketId)
    then setHost roomId (hostAfterLeave socketId room) d1 else d1 in
  updateRoom (roomAfterLeave socketId room) d2.

(** What [start-game] checks before it deals. *)
Definition startAllowed (socketId : string) (room : GameRoom) : Prop :=
  hostId room = socketId ∧
  (2 ≤ length (players room))%nat ∧
  Z.of_nat (length (players room)) * numbersPerPlayer room ≤ 100.

(** The deal that [start-game] makes for a room with the draws of [env]. *)
Definition dealFor (env : Env) (room : GameRoom) : outcome (list (list Z)) :=
  GameEngine.generateAllPlayerNumbers (env_fuel env) (env_raw env)
    (mkGameConfig (maxLives room) (numbersPerPlayer room) 1 100)
    (length (players room)).

Definition demoEnv : Env := mkEnv 1700000000000 countingSource (λ _, "ev") 8.

(** A room in the middle of a game: 4 has been played, one life is gone. *)
Definition midGameWorld : World :=
  mkWorld
    (mkDatabase
       {[ "ROOM01" := mkRoomRow 3 2 2 Playing "s1" [4] [] ]}
       [mkPlayerRow "s1" "ROOM01" "ann" [9];
        mkPlayerRow "s2" "ROOM01" "bob" [7; 30]])
    ∅ [].

Definition lobbyWorld : World :=
  mkWorld
    (mkDatabase
       {[ "ROOM01" := mkRoomRow 3 2 3 Lobby "s1" [] [] ]}
       [mkPlayerRow "s1" "ROOM01" "ann" [];
        mkPlayerRow "s2" "ROOM01" "bob" []])
    ∅ [].

(** How a stored room looks after a request, against how it looked before. *)
Definition roomRefines (req : Request) (roomId : string)
    (before : option GameRoom) (r' : GameRoom) : Prop :=
  match before with
  | Some r =>
      roomChange r r' ∧
      (quiet roomId req → gentleChange r r') ∧
      (¬ restarts roomId req → lives r' ≤ lives r)
  | None => created r'
  end.

Definition worldGood (w : World) : Prop :=
  wf (db w) ∧
  ∀ roomId room, RoomService.getRoom roomId (db w) = Some room → good room.

(** A room is created, two players join; the first one is the host. *)
Definition demoSetup (maxL : Z) : list Request :=
  [CreateRoom "ROOM01" (Routes.mkCreateBody (Some maxL) (Some 2));
   JoinRoom "s1" (Handlers.mkJoinData "ROOM01" (Some "ann") None);
   JoinRoom "s2" (Handlers.mkJoinData "ROOM01" (Some "bob") None)].

Definition demoLobbyWorld : World :=
  default emptyWorld (serveAll (demoSetup 3) emptyWorld).

Definition demoFullLobby : World :=
  default emptyWorld
    (serveAll (demoSetup 3 ++
               [JoinRoom "s3" (Handlers.mkJoinData "ROOM01" (Some "cid") None)])
       emptyWorld).

Definition demoLobbyRoom : GameRoom :=
  mkGameRoom "ROOM01" [mkPlayer "s1" "ann" []; mkPlayer "s2" "bob" []]
    [] 3 3 2 Lobby "s1" [].

(** The set equality of claim C1: the numbers on the timeline are the dealt
    numbers that are no longer held. *)
Definition timelineIsDealtMinusHeld (hands : list (list Z)) (room : GameRoom)
    : Prop :=
  ∀ x, x ∈ timeline room ↔ x ∈ mjoin hands ∧ x ∉ allHands (players room).

Definition demoStartedWorld : World :=
  default emptyWorld (Handlers.onStartGame demoEnv "s1" "ROOM01" demoLobbyWorld).

Definition demoLeftWorld : World :=
  default emptyWorld (serve (LeaveRoom "s2" "ROOM01") demoStartedWorld).

Definition demoLeftRoom : GameRoom :=
  default demoLobbyRoom (RoomService.getRoom "ROOM01" (db demoLeftWorld)).

Definition demoPlays : list Request :=
  [PlayNumber demoEnv "s2" "ROOM01" 1; PlayNumber demoEnv "s1" "ROOM01" 3].

(** The started game after the second player has played 1. *)
Definition demoFirstPlayWorld : World :=
  default emptyWorld
    (serve (PlayNumber demoEnv "s2" "ROOM01" 1) demoStartedWorld).

Definition demoFirstPlayRoom : GameRoom :=
  default demoLobbyRoom (RoomService.getRoom "ROOM01" (db demoFirstPlayWorld)).

Definition demoPlayedWorld : World :=
  default emptyWorld (serveAll demoPlays demoStartedWorld).

Definition demoPlayedRoom : GameRoom :=
  default demoLobbyRoom (RoomService.getRoom "ROOM01" (db demoPlayedWorld)).

(** The room after a deal of nothing: two players, no number each. *)
Definition dealtNothingRoom : GameRoom :=
  exec (GameEngine.initializeGame 0 countingSource)
    (mkGameRoom "ROOM01" [mkPlayer "s1" "ann" []; mkPlayer "s2" "bob" []]
       [] 3 3 0 Lobby "s1" []).

Definition midGameRoom : GameRoom :=
  mkGameRoom "ROOM01"
    [mkPlayer "s1" "ann" [9]; mkPlayer "s2" "bob" [7; 30]]
    [4] 2 3 2 Playing "s1" [].

(** ** Vocabulary of the further properties *)

(** The verdict of [validateMove], as a boolean. *)
Definition accepted (playerId : string) (number : Z) (room : GameRoom) : bool :=
  match validateMove playerId number room with
  | (Returns v, _) => valid v
  | _ => false
  end.

(** [n] times [lives--]. *)
Fixpoint decrements (n : nat) (x : Z) : Z :=
  match n with
  | O => x
  | S n' => decrements n' (decrement x)
  end.

(** Moves made one after the other on the same room object. *)
Fixpoint makeMoves (moves : list (string * Z)) (room : GameRoom) : GameRoom :=
  match moves with
  | [] => room
  | (playerId, number) :: moves' =>
      makeMoves moves' (exec (makeMove playerId number) room)
  end.

(** What the engine can do to a room object, one call at a time. *)
Inductive engineStep : GameRoom → GameRoom → Prop :=
  | step_initialize (fuel : nat) (raw : nat → Z) (r : GameRoom) :
      engineStep r (exec (initializeGame fuel raw) r)
  | step_move (playerId : string) (number : Z) (r : GameRoom) :
      engineStep r (exec (makeMove playerId number) r)
  | step_event (id : string) (type : EventType) (data : EventData)
      (timestamp : Z) (r : GameRoom) :
      engineStep r (exec (addGameEvent id type data timestamp) r)
  | step_reset (r : GameRoom) :
      engineStep r (exec resetGame r).

(** A room as it is while the players gather: in the lobby, with all its
    lives, nothing played, nothing held and no events. *)
Definition lobbyFresh (room : GameRoom) : Prop :=
  state room = Lobby ∧ lives room = maxLives room ∧ timeline room = [] ∧
  gameEvents room = [] ∧ allHandsEmpty (players room).

(** The holder of a number: the first player whose hand has it. *)
Definition holderOf (n : Z) (ps : list Player) : option Player :=
  List.find (λ p, includes n (numbers p)) ps.

(** The move that is next in order: the number the engine expects, played
    by its holder. *)
Definition nextMove (room : GameRoom) : option (string * Z) :=
  match getNextExpectedNumber room with
  | (Returns n, _) => (λ p, (p_id p, n)) <$> holderOf n (players room)
  | _ => None
  end.

(** [k] moves, each the one that is next in order. *)
Fixpoint playInOrder (k : nat) (room : GameRoom) : GameRoom :=
  match k with
  | O => room
  | S k' =>
      match nextMove room with
      | Some (playerId, number) =>
          playInOrder k' (exec (makeMove playerId number) room)
      | None => room
      end
  end.

(** While a game is played by the rules: the seats have different ids, no
    number is held twice and no held number is on the timeline. *)
Definition inPlay (room : GameRoom) : Prop :=
  state room = Playing ∧ NoDup (p_id <$> players room) ∧
  NoDup (allHands (players room)) ∧
  ∀ h, h ∈ allHands (players room) → h ∉ timeline room.

(** The foreign key of [players]: every row names a stored room. *)
Definition fkOk (d : Database) : Prop :=
  ∀ row, row ∈ playersTbl d → is_Some (roomsTbl d !! pr_room_id row).

(** The room object [createRoom] returns. *)
Definition newRoom (roomId : string) (maxLives numbersPerPlayer : Z)
    : GameRoom :=
  mkGameRoom roomId [] [] maxLives maxLives numbersPerPlayer Lobby
    EmptyString [].

(** ** The routes that read and delete a room ([routes/rooms.ts]) *)

Module RoomRoutes.

Inductive Body : Type :=
  | ErrorBody (error : string)
  | RoomBody (room : option GameRoom)
  | MessageBody (message : string).

(** The [res] object: the status and body that went out, if any. *)
Definition Res : Type := option (Z * Body).

(** [res.status(code).json(body)]; [res.json(body)] is the same with the
    status 200. Express throws when a response has already been sent. *)
Definition json (code : Z) (b : Body) (res : Res) : outcome unit * Res :=
  match res with
  | None => (Returns tt, Some (code, b))
  | Some _ =>
      (Throws "Cannot set headers after they are sent to the client", res)
  end.

(** The [try] block of [GET /:roomId]. The branch for a missing room does
    not return. *)
Definition getRoomTry (roomId : string) (d : Database) (res : Res)
    : outcome unit * Res :=
  let room := RoomService.getRoom roomId d in
  let '(o1, res1) :=
    match room with
    | None => json 404 (ErrorBody "Room not found") res
    | Some _ => (Returns tt, res)
    end in
  match o1 with
  | Returns _ => json 200 (RoomBody room) res1
  | Throws e => (Throws e, res1)
  | Unfinished => (Unfinished, res1)
  end.

(** [GET /:roomId]. The [catch] block answers 500, which itself throws
    when a response is already out. Result: how the handler ended and the
    response the client got. *)
Definition getRoomRoute (roomId : string) (d : Database)
    : outcome unit * Res :=
  match getRoomTry roomId d None with
  | (Returns _, res) => (Returns tt, res)
  | (_, res) => json 500 (ErrorBody "Failed to fetch room") res
  end.

(** The [try] block of [DELETE /:roomId]. *)
Definition deleteRoomTry (roomId : string) (d : Database) (res : Res)
    : outcome unit * Database * Res :=
  let room := RoomService.getRoom roomId d in
  let '(o1, res1) :=
    match room with
    | None => json 404 (ErrorBody "Room not found") res
    | Some _ => (Returns tt, res)
    end in
  match o1 with
  | Returns _ =>
      let d' := RoomService.deleteRoom roomId d in
      let '(o2, res2) :=
        json 200 (MessageBody "Room deleted successfully") res1 in
      (o2, d', res2)
  | Throws e => (Throws e, d, res1)
  | Unfinished => (Unfinished, d, res1)
  end.

(** [DELETE /:roomId]: how the handler ended, the store and the response. *)
Definition deleteRoomRoute (roomId : string) (d : Database)
    : outcome unit * Database * Res :=
  match deleteRoomTry roomId d None with
  | (Returns _, d', res) => (Returns tt, d', res)
  | (_, d', res) =>
      let '(o, res') := json 500 (ErrorBody "Failed to delete room") res in
      (o, d', res')
  end.

End RoomRoutes.

(** What the requests other than the creation of a room do to the store:
    they keep the foreign key and store no room that was not there. *)
Definition storeKept (d d' : Database) : Prop :=
  (fkOk d → fkOk d') ∧
  ∀ k, is_Some (roomsTbl d' !! k) → is_Some (roomsTbl d !! k).

(** The room object [reset-game] stores: the room of the lobby, with the
    one event that records the reset. *)
Definition roomAfterReset (env : Env) (room : GameRoom) : GameRoom :=
  mkGameRoom (r_id room) (set_numbers [] <$> players room) []
    (maxLives room) (maxLives room) (numbersPerPlayer room) Lobby
    (hostId room)
    [mkGameEvent (env_eventId env 0) GameReset
       (DataMessage "Game has been reset") (env_now env)].

(** The connection a request comes from and the room it names. A room is
    created over HTTP; a [disconnect] names no room. *)
Definition requester (req : Request) : option string :=
  match req with
  | CreateRoom _ _ => None
  | JoinRoom socketId _ | StartGame _ socketId _ | PlayNumber _ socketId _ _
  | ResetGame _ socketId _ | LeaveRoom socketId _ | Disconnect socketId =>
      Some socketId
  end.

Definition roomNamed (req : Request) : option string :=
  match req with
  | CreateRoom _ _ | Disconnect _ => None
  | JoinRoom _ data => Some (jd_roomId data)
  | StartGame _ _ roomId | PlayNumber _ _ roomId _ | ResetGame _ _ roomId
  | LeaveRoom _ roomId => Some roomId
  end.

Definition isError (m : Message) : bool :=
  match m with MsgError _ => true | _ => false end.

(** A message a request may cause: to the requesting connection, or to the
    channel of the room it names; an error only to the former. *)
Definition wellAddressed (req : Request) (tm : Target * Message) : Prop :=
  match tm.1 with
  | ToSocket socketId => requester req = Some socketId
  | ToRoom roomId => roomNamed req = Some roomId ∧ isError tm.2 = false
  end.

(** ** The handlers of the in-memory revision ([socket/handlers.ts] over
    the [rooms] map of [routes/rooms.ts])

    The [Map] from room codes to room objects is a list of entries in
    insertion order, which is the order [rooms.entries()] iterates in; a
    room object mutated in place changes the entry under its code. *)

Module InMemory.

Import Handlers.

Record MemWorld : Type := mkMemWorld {
  rooms : list (string * GameRoom);
  m_subs : gset (string * string);
  m_outbox : list (Target * Message)
}.

(** [rooms.get(roomId)] *)
Definition get (roomId : string) (rs : list (string * GameRoom))
    : option GameRoom :=
  snd <$> List.find (λ kv, bool_decide (kv.1 = roomId)) rs.

(** The room object stored under [roomId] is mutated in place. *)
Definition mutate (roomId : string) (f : GameRoom → GameRoom)
    (rs : list (string * GameRoom)) : list (string * GameRoom) :=
  (λ kv, if decide (kv.1 = roomId) then (kv.1, f kv.2) else kv) <$> rs.

(** [rooms.delete(roomId)] *)
Definition remove (roomId : string) (rs : list (string * GameRoom))
    : list (string * GameRoom) :=
  filter (λ kv, kv.1 ≠ roomId) rs.

Definition m_emit (t : Target) (m : Message) (w : MemWorld) : MemWorld :=
  mkMemWorld (rooms w) (m_subs w) (m_outbox w ++ [(t, m)]).

Definition withRooms
    (f : list (string * GameRoom) → list (string * GameRoom))
    (w : MemWorld) : MemWorld :=
  mkMemWorld (f (rooms w)) (m_subs w) (m_outbox w).

Definition onJoinRoom (socketId : string) (data : JoinData) (w : MemWorld)
    : MemWorld :=
  let roomId := jd_roomId data in
  let isHost := default false (jd_isHost data) in
  match get roomId (rooms w) with
  | None => m_emit (ToSocket socketId) (MsgError "Room not found") w
  | Some room =>
      let player :=
        mkPlayer socketId (nameOrAnonymous (jd_playerName data)) [] in
      let room1 := set_players (players room ++ [player]) room in
      let room2 :=
        if isHost || bool_decide (hostId room1 = EmptyString)
        then set_hostId socketId room1 else room1 in
      let w1 := withRooms (mutate roomId (λ _, room2)) w in
      let w2 := mkMemWorld (rooms w1) ({[ (socketId, roomId) ]} ∪ m_subs w1)
                  (m_outbox w1) in
      m_emit (ToRoom roomId) (RoomUpdated room2) w2
  end.

(** The loop over [rooms.entries()]: the code of the first room that has a
    player with the id. *)
Definition findRoomOf (socketId : string) (rs : list (string * GameRoom))
    : option string :=
  fst <$> List.find
            (λ kv, existsb (λ p, bool_decide (p_id p = socketId))
                     (players kv.2)) rs.

Definition handlePlayerLeave (socketId : string) (roomId : option string)
    (w : MemWorld) : MemWorld :=
  let roomId1 :=
    if noRoomId roomId then findRoomOf socketId (rooms w) else roomId in
  match roomId1 with
  | Some (String c s) =>
      let roomId := String c s in
      match get roomId (rooms w) with
      | None => w
      | Some room =>
          let isHost := bool_decide (hostId room = socketId) in
          let wasInLobby := bool_decide (state room = Lobby) in
          let room1 :=
            set_players (filter (λ p, p_id p ≠ socketId) (players room)) room in
          let w1 := withRooms (mutate roomId (λ _, room1)) w in
          if isHost && wasInLobby then
            let w2 := m_emit (ToRoom roomId)
                        (RoomDeleted "Host left during lobby") w1 in
            withRooms (remove roomId) w2
          else if bool_decide (length (players room1) = 0%nat) then
            withRooms (remove roomId) w1
          else
            let room2 :=
              if isHost && bool_decide (0 < length (players room1))%nat then
                match players room1 with
                | first :: _ => set_hostId (p_id first) room1
                | [] => room1
                end
              else room1 in
            let w2 := withRooms (mutate roomId (λ _, room2)) w1 in
            m_emit (ToRoom roomId) (RoomUpdated room2) w2
      end
  | _ => w
  end.

Definition onLeaveRoom (socketId roomId : string) (w : MemWorld) : MemWorld :=
  let w1 := mkMemWorld (rooms w) (m_subs w ∖ {[ (socketId, roomId) ]})
              (m_outbox w) in
  handlePlayerLeave socketId (Some roomId) w1.

Definition onDisconnect (socketId : string) (w : MemWorld) : MemWorld :=
  handlePlayerLeave socketId None w.

End InMemory.

(** A map of two rooms in which the socket s1 is the host of the first. *)
Definition memDemo : InMemory.MemWorld :=
  InMemory.mkMemWorld
    [("ROOM01", demoLobbyRoom);
     ("ROOM02", mkGameRoom "ROOM02" [mkPlayer "s3" "cid" []] [] 3 3 2 Lobby
                  "s3" [])]
    ∅ [].

(** [progress] is an integer nearest to the percentage that [played] is of
    [total]. *)
Definition nearestPercent (played total progress : Z) : Prop :=
  0 ≤ progress ≤ 100 ∧
  2 * Z.abs (100 * played - progress * total) ≤ total.

#[global] Instance nearestPercent_dec (played total progress : Z) :
  Decision (nearestPercent played total progress).
Proof. unfold nearestPercent. apply _. Defined.


(** * Properties *)

(** ** Numbers *)

Section NumberFacts.

Lemma decrement_le (x : Z) : decrement x ≤ x.
Proof. unfold decrement. repeat case_match; lia. Qed.

Lemma decrement_ge (x : Z) : x - 2 ≤ decrement x.
Proof. unfold decrement. repeat case_match; lia. Qed.

Lemma decrement_exact (x : Z) : exactRange x → decrement x = x - 1.
Proof. intros Hx. unfold decrement. by rewrite bool_decide_eq_true_2. Qed.

(** Outside the exact range a decrement is lost or doubled; the value the
    definition gives is the double nearest to [x - 1]. *)
Lemma decrement_nearest_examples :
  Forall (λ x, let y := nearestDouble (x - 1) 1 in y.1 = decrement x * y.2)
    [3; 0; -7; maxExact; maxExact + 2; maxExact + 4; 2 * maxExact - 2;
     2 * maxExact; 2 * maxExact + 4; 4 * maxExact; - maxExact;
     - maxExact - 2; - maxExact - 4; - 2 * maxExact; 2 ^ 996] ∧
  decrement (maxExact + 2) = maxExact ∧
  decrement (- maxExact) = - maxExact ∧
  decrement (2 ^ 996) = 2 ^ 996.
Proof.
  split; [|by vm_compute].
  repeat (apply Forall_cons_2; [vm_compute; reflexivity|]).
  apply Forall_nil_2.
Qed.

End NumberFacts.

(** ** Arrays, sorting and searching *)

Section ArrayFacts.

Lemma includes_true (x : Z) (l : list Z) : includes x l = true ↔ x ∈ l.
Proof. unfold includes. apply bool_decide_eq_true. Qed.

Lemma includes_false (x : Z) (l : list Z) : includes x l = false ↔ x ∉ l.
Proof. unfold includes. apply bool_decide_eq_false. Qed.

Lemma sortAsc_perm (l : list Z) : sortAsc l ≡ₚ l.
Proof. apply merge_sort_Permutation. Qed.

Lemma sortAsc_sorted (l : list Z) : StronglySorted Z.le (sortAsc l).
Proof. apply StronglySorted_merge_sort; apply _. Qed.

Lemma sortAsc_elem (x : Z) (l : list Z) : x ∈ sortAsc l ↔ x ∈ l.
Proof. by rewrite sortAsc_perm. Qed.

(** The first element of an ascending array that passes a test is the least
    element that passes it. *)
Lemma find_sorted_least (f : Z → bool) (l : list Z) (x : Z) :
  StronglySorted Z.le l →
  List.find f l = Some x →
  x ∈ l ∧ f x = true ∧ ∀ y, y ∈ l → f y = true → x ≤ y.
Proof.
  induction 1 as [|a l Hl IH Ha]; simpl; [done|].
  destruct (f a) eqn:Hfa.
  - intros [= <-]. split; [left|]. split; [done|].
    intros y Hy _. apply elem_of_cons in Hy as [->|Hy]; [lia|].
    rewrite Forall_forall in Ha. by apply Ha.
  - intros Hfind. destruct (IH Hfind) as (Hx & Hfx & Hmin).
    split; [by right|]. split; [done|].
    intros y Hy Hfy. apply elem_of_cons in Hy as [->|Hy]; [congruence|].
    by apply Hmin.
Qed.

Lemma find_none_all (f : Z → bool) (l : list Z) :
  List.find f l = None → ∀ y, y ∈ l → f y = false.
Proof.
  intros H y Hy. apply (List.find_none f l H). by apply list_elem_of_In.
Qed.

Lemma findPlayer_Some (id : string) (ps : list Player) (p : Player) :
  findPlayer id ps = Some p → p ∈ ps ∧ p_id p = id.
Proof.
  unfold findPlayer. intros H. apply List.find_some in H as [Hin Hid].
  split; [by apply list_elem_of_In|]. by apply bool_decide_eq_true in Hid.
Qed.

Lemma findPlayer_None (id : string) (ps : list Player) :
  findPlayer id ps = None ↔ ∀ p, p ∈ ps → p_id p ≠ id.
Proof.
  unfold findPlayer. split.
  - intros H p Hp. apply list_elem_of_In in Hp.
    pose proof (List.find_none _ _ H p Hp) as Hf.
    by apply bool_decide_eq_false in Hf.
  - intros H. induction ps as [|q ps IH]; simpl; [done|].
    rewrite bool_decide_eq_false_2.
    + apply IH. intros p Hp. apply H. by right.
    + apply H. left.
Qed.

Lemma elem_of_allHands (x : Z) (ps : list Player) :
  x ∈ allHands ps ↔ ∃ p, p ∈ ps ∧ x ∈ numbers p.
Proof.
  unfold allHands. rewrite list_elem_of_bind. split.
  - intros (p & Hx & Hp). eauto.
  - intros (p & Hp & Hx). eauto.
Qed.

End ArrayFacts.

(** ** Move validation *)

Lemma getNextExpectedNumber_spec (room : GameRoom) :
  ∃ e, GameEngine.getNextExpectedNumber room = (Returns e, room) ∧
       ((leastUnplayed room e) ∨
        (e = -1 ∧ ∀ m, m ∈ allHands (players room) → m ∈ timeline room)).
Proof.
  unfold GameEngine.getNextExpectedNumber, bind, getRoomObj.
  destruct (List.find _ _) as [e|] eqn:Hfind.
  - exists e. split; [done|]. left.
    apply find_sorted_least in Hfind as (He & Hfe & Hmin);
      [|apply sortAsc_sorted].
    apply (proj1 (sortAsc_elem _ _)) in He.
    apply negb_true_iff, includes_false in Hfe.
    split; [done|]. split; [done|].
    intros m Hm Hnot. apply Hmin; [by apply (proj2 (sortAsc_elem _ _))|].
    by apply negb_true_iff, includes_false.
  - exists (-1). split; [done|]. right. split; [done|].
    intros m Hm. apply (proj2 (sortAsc_elem _ _)) in Hm.
    pose proof (find_none_all _ _ Hfind m Hm) as Hf.
    by apply negb_false_iff, includes_true in Hf.
Qed.

Lemma leastUnplayed_unique (room : GameRoom) (a b : Z) :
  leastUnplayed room a → leastUnplayed room b → a = b.
Proof.
  intros (Ha1 & Ha2 & Ha3) (Hb1 & Hb2 & Hb3).
  specialize (Ha3 b Hb1 Hb2). specialize (Hb3 a Ha1 Ha2). lia.
Qed.

Lemma rejection_messages_distinct (e n : Z) :
  NoDup [notPlayingMsg; unknownPlayerMsg; notHeldMsg; alreadyPlayedMsg;
         GameEngine.expectedMessage e n].
Proof.
  unfold GameEngine.expectedMessage.
  repeat (apply NoDup_cons; split;
          [rewrite ?elem_of_cons, elem_of_nil; cbn; intuition discriminate|]).
  apply NoDup_nil_2.
Qed.

(** What [validateMove] returns, check by check. *)
Lemma validateMove_not_playing (playerId : string) (number : Z) (room : GameRoom) :
  state room ≠ Playing →
  GameEngine.validateMove playerId number room =
    (Returns (GameEngine.mkValidation false (Some notPlayingMsg)), room).
Proof.
  intros Hst. unfold GameEngine.validateMove, bind, getRoomObj, ret.
  by rewrite bool_decide_eq_true_2.
Qed.

Lemma validateMove_unknown_player (playerId : string) (number : Z)
    (room : GameRoom) :
  state room = Playing → findPlayer playerId (players room) = None →
  GameEngine.validateMove playerId number room =
    (Returns (GameEngine.mkValidation false (Some unknownPlayerMsg)), room).
Proof.
  intros Hst Hfind. unfold GameEngine.validateMove, bind, getRoomObj, ret.
  rewrite bool_decide_eq_false_2 by (by intros ?). by rewrite Hfind.
Qed.

Lemma validateMove_not_held (playerId : string) (number : Z) (room : GameRoom)
    (player : Player) :
  state room = Playing → findPlayer playerId (players room) = Some player →
  number ∉ numbers player →
  GameEngine.validateMove playerId number room =
    (Returns (GameEngine.mkValidation false (Some notHeldMsg)), room).
Proof.
  intros Hst Hfind Hheld. unfold GameEngine.validateMove, bind, getRoomObj, ret.
  rewrite bool_decide_eq_false_2 by (by intros ?). rewrite Hfind.
  by rewrite (proj2 (includes_false _ _) Hheld).
Qed.

Lemma validateMove_already_played (playerId : string) (number : Z)
    (room : GameRoom) (player : Player) :
  state room = Playing → findPlayer playerId (players room) = Some player →
  number ∈ numbers player → number ∈ timeline room →
  GameEngine.validateMove playerId number room =
    (Returns (GameEngine.mkValidation false (Some alreadyPlayedMsg)), room).
Proof.
  intros Hst Hfind Hheld Hplayed.
  unfold GameEngine.validateMove, bind, getRoomObj, ret.
  rewrite bool_decide_eq_false_2 by (by intros ?). rewrite Hfind.
  rewrite (proj2 (includes_true _ _) Hheld). simpl.
  by rewrite (proj2 (includes_true _ _) Hplayed).
Qed.

(** A held number that has not been played is compared with the expected
    one, which is then the least unplayed number. *)
Lemma validateMove_unplayed (playerId : string) (number : Z) (room : GameRoom)
    (player : Player) :
  state room = Playing → findPlayer playerId (players room) = Some player →
  number ∈ numbers player → number ∉ timeline room →
  ∃ e, leastUnplayed room e ∧
    GameEngine.validateMove playerId number room =
      (Returns (if bool_decide (number ≠ e)
                then GameEngine.mkValidation false
                       (Some (GameEngine.expectedMessage e number))
                else GameEngine.mkValidation true None), room).
Proof.
  intros Hst Hfind Hheld Hplayed.
  destruct (getNextExpectedNumber_spec room) as (e & Hexp & He).
  assert (Hall : number ∈ allHands (players room)).
  { apply elem_of_allHands. exists player. split; [|done].
    by apply findPlayer_Some in Hfind as [? _]. }
  destruct He as [He|[_ He]]; [|by specialize (He number Hall)].
  exists e. split; [done|].
  unfold GameEngine.validateMove, bind, getRoomObj, ret.
  rewrite bool_decide_eq_false_2 by (by intros ?). rewrite Hfind.
  rewrite (proj2 (includes_true _ _) Hheld). simpl.
  rewrite (proj2 (includes_false _ _) Hplayed), Hexp.
  by case_bool_decide.
Qed.

(** The verdict: it is always returned, on the unchanged room object, and
    it is [valid] exactly when all five checks pass. *)
Lemma validateMove_verdict (room : GameRoom) (playerId : string) (number : Z) :
  ∃ v, GameEngine.validateMove playerId number room = (Returns v, room) ∧
    (GameEngine.valid v = true ↔
       state room = Playing ∧
       ∃ player, findPlayer playerId (players room) = Some player ∧
                 number ∈ numbers player ∧
                 (number ∉ timeline room) ∧
                 leastUnplayed room number).
Proof.
  destruct (decide (state room = Playing)) as [Hst|Hst].
  2:{ eexists. split; [by apply validateMove_not_playing|]. simpl.
      split; [done|]. by intros [? _]. }
  destruct (findPlayer playerId (players room)) as [player|] eqn:Hfind.
  2:{ eexists. split; [by apply validateMove_unknown_player|]. simpl.
      split; [done|]. by intros (_ & ? & ? & _). }
  destruct (decide (number ∈ numbers player)) as [Hheld|Hheld].
  2:{ eexists. split; [by eapply validateMove_not_held|]. simpl.
      split; [done|]. by intros (_ & ? & [= <-] & ? & _). }
  destruct (decide (number ∈ timeline room)) as [Hplayed|Hplayed].
  { eexists. split; [by eapply validateMove_already_played|]. simpl.
    split; [done|]. by intros (_ & ? & _ & _ & ? & _). }
  destruct (validateMove_unplayed playerId number room player)
    as (e & He & Hrun); try done.
  eexists. split; [exact Hrun|]. case_bool_decide as Hne; simpl.
  - split; [done|]. intros (_ & _ & _ & _ & _ & Hleast).
    destruct Hne. by eapply leastUnplayed_unique.
  - subst e. split; [|done]. intros _. eauto 10.
Qed.

(** C5. [validateMove] always returns, leaves the room object as it found
    it, and accepts exactly when the game is in [playing], the engine finds
    a player with the given id, that player holds the number, the number is
    not on the timeline, and it is the least unplayed number over all
    hands. Each of the five kinds of violation gets its own message, and the
    five messages are pairwise different. *)
Theorem C5_validateMove_characterised (room : GameRoom) (playerId : string)
    (number : Z) :
  ∃ v, GameEngine.validateMove playerId number room = (Returns v, room) ∧
    (GameEngine.valid v = true ↔
       state room = Playing ∧
       ∃ player, findPlayer playerId (players room) = Some player ∧
                 number ∈ numbers player ∧
                 (number ∉ timeline room) ∧
                 leastUnplayed room number) ∧
    (GameEngine.valid v = true → GameEngine.v_error v = None) ∧
    (state room ≠ Playing → GameEngine.v_error v = Some notPlayingMsg) ∧
    (state room = Playing → findPlayer playerId (players room) = None →
       GameEngine.v_error v = Some unknownPlayerMsg) ∧
    (∀ player, state room = Playing →
       findPlayer playerId (players room) = Some player →
       (number ∉ numbers player → GameEngine.v_error v = Some notHeldMsg) ∧
       (number ∈ numbers player → number ∈ timeline room →
          GameEngine.v_error v = Some alreadyPlayedMsg) ∧
       (number ∈ numbers player → number ∉ timeline room →
          ¬ leastUnplayed room number →
          ∃ e, e ≠ number ∧ leastUnplayed room e ∧
               GameEngine.v_error v = Some (GameEngine.expectedMessage e number))) ∧
    (∀ e, NoDup [notPlayingMsg; unknownPlayerMsg; notHeldMsg; alreadyPlayedMsg;
                 GameEngine.expectedMessage e number]).
Proof.
  destruct (validateMove_verdict room playerId number) as (v & Hv & Hiff).
  exists v. split; [done|]. split; [done|].
  split; [|split; [|split; [|split]]].
  - intros Hvalid. apply Hiff in Hvalid
      as (Hst & player & Hfind & Hheld & Hplayed & Hleast).
    destruct (validateMove_unplayed playerId number room player)
      as (e & He & Hrun); try done.
    rewrite Hrun in Hv. injection Hv as <-.
    rewrite bool_decide_eq_false_2; [done|].
    intros Hne. apply Hne. by eapply leastUnplayed_unique.
  - intros Hst. rewrite validateMove_not_playing in Hv by done.
    by injection Hv as <-.
  - intros Hst Hfind. rewrite validateMove_unknown_player in Hv by done.
    by injection Hv as <-.
  - intros player Hst Hfind. split; [|split].
    + intros Hheld.
      rewrite (validateMove_not_held _ _ _ player) in Hv by done.
      by injection Hv as <-.
    + intros Hheld Hplayed.
      rewrite (validateMove_already_played _ _ _ player) in Hv by done.
      by injection Hv as <-.
    + intros Hheld Hplayed Hnot.
      destruct (validateMove_unplayed playerId number room player)
        as (e & He & Hrun); try done.
      rewrite Hrun in Hv. injection Hv as <-.
      assert (Hne : number ≠ e) by (by intros ->).
      exists e. rewrite bool_decide_eq_true_2 by done.
      split; [by intros ->|done].
  - intros e. apply rejection_messages_distinct.
Qed.

(** ** Moves *)

Lemma forallb_hands_empty (ps : list Player) :
  forallb (λ p, bool_decide (length (numbers p) = 0%nat)) ps = true ↔
  allHandsEmpty ps.
Proof.
  unfold allHandsEmpty. rewrite forallb_forall. split.
  - intros H p Hp. apply list_elem_of_In in Hp.
    specialize (H p Hp). apply bool_decide_eq_true in H.
    by apply nil_length_inv.
  - intros H p Hp. apply list_elem_of_In in Hp.
    apply bool_decide_eq_true. by rewrite (H p Hp).
Qed.

Lemma validateMove_returns (playerId : string) (number : Z) (room : GameRoom) :
  ∃ v, GameEngine.validateMove playerId number room = (Returns v, room).
Proof.
  destruct (validateMove_verdict room playerId number) as (v & Hv & _).
  eauto.
Qed.

(** A rejected move: [lives--], and [game-over] when no life is left. *)
Lemma makeMove_rejected (playerId : string) (number : Z) (room : GameRoom)
    (v : GameEngine.Validation) :
  GameEngine.validateMove playerId number room = (Returns v, room) →
  GameEngine.valid v = false →
  GameEngine.makeMove playerId number room =
    if bool_decide (decrement (lives room) ≤ 0)
    then (Returns (GameEngine.mkMoveResult false (Some true) None
                     (GameEngine.v_error v) (Some 1)),
          set_state GameOver (set_lives (decrement (lives room)) room))
    else (Returns (GameEngine.mkMoveResult false None None
                     (GameEngine.v_error v) (Some 1)),
          set_lives (decrement (lives room)) room).
Proof.
  intros Hv Hvalid. unfold GameEngine.makeMove, bind at 1. rewrite Hv, Hvalid.
  simpl. unfold bind, modify, getRoomObj, ret. simpl.
  by case_bool_decide.
Qed.

(** An accepted move: the number goes from the hand to the timeline, and
    [victory] when no hand holds a number any more. *)
Lemma makeMove_accepted (playerId : string) (number : Z) (room : GameRoom)
    (v : GameEngine.Validation) :
  GameEngine.validateMove playerId number room = (Returns v, room) →
  GameEngine.valid v = true →
  let room1 :=
    set_players (playFrom playerId number (players room))
      (set_timeline (timeline room ++ [number]) room) in
  GameEngine.makeMove playerId number room =
    if forallb (λ p, bool_decide (length (numbers p) = 0%nat)) (players room1)
    then (Returns (GameEngine.mkMoveResult true None (Some true) None None),
          set_state Victory room1)
    else (Returns (GameEngine.mkMoveResult true None None None None), room1).
Proof.
  intros Hv Hvalid. unfold GameEngine.makeMove, bind at 1. rewrite Hv, Hvalid.
  simpl. unfold bind, modify, getRoomObj, ret. simpl.
  fold (playFrom playerId number (players room)).
  by destruct (forallb _ _).
Qed.

(** C3, counterexample. A room in [playing] whose lives are already 0 (a
    room created with [maxLives = 0]): the rejected move takes the lives to
    -1, not to 0, and the state is set to [game-over] all the same. *)
Lemma C3_counterexample_below_zero :
  let out := GameEngine.makeMove "s1" 9 roomAtZeroLives in
  lives (snd out) = -1 ∧ state (snd out) = GameOver ∧
  fst out = Returns (GameEngine.mkMoveResult false (Some true) None
                       (Some (GameEngine.expectedMessage 4 9)) (Some 1)) ∧
  ¬ gameOverExactlyAtZero "s1" 9 roomAtZeroLives.
Proof.
  vm_compute. split; [reflexivity|]. split; [reflexivity|].
  split; [reflexivity|].
  intros [H _].
  assert (Hset : GameOver = GameOver ∧ Playing ≠ GameOver)
    by (split; [reflexivity|discriminate]).
  apply H in Hset. discriminate.
Qed.

(** C3 (amended). For every room, player id and number. If [validateMove]
    rejects, [makeMove] does [lives--], which never raises the lives and
    takes exactly one life whenever the lives are in the range in which
    the doubles count exactly ([-2^53 < lives <= 2^53]); it leaves the
    timeline and all hands as they were, and sets the state to [game-over]
    exactly when the lives are 0 or less after the decrement (otherwise the
    state stays). If [validateMove] accepts, [makeMove] appends the number
    to the timeline, removes it from the hand of the player the engine
    found, leaves the lives alone, and sets the state to [victory] exactly
    when every hand is empty afterwards (otherwise the state stays
    [playing]). *)
Theorem C3_makeMove_effect (room : GameRoom) (playerId : string) (number : Z) :
  ∃ v res room',
    GameEngine.validateMove playerId number room = (Returns v, room) ∧
    GameEngine.makeMove playerId number room = (Returns res, room') ∧
    (GameEngine.valid v = false →
       GameEngine.success res = false ∧
       lives room' = decrement (lives room) ∧
       lives room' ≤ lives room ∧
       (exactRange (lives room) → lives room' = lives room - 1) ∧
       timeline room' = timeline room ∧
       players room' = players room ∧
       (lives room' ≤ 0 →
          state room' = GameOver ∧ GameEngine.gameOver res = Some true) ∧
       (0 < lives room' →
          state room' = state room ∧ GameEngine.gameOver res = None)) ∧
    (GameEngine.valid v = true →
       GameEngine.success res = true ∧
       timeline room' = timeline room ++ [number] ∧
       players room' = playFrom playerId number (players room) ∧
       lives room' = lives room ∧
       (allHandsEmpty (players room') →
          state room' = Victory ∧ GameEngine.victory res = Some true) ∧
       (¬ allHandsEmpty (players room') →
          state room' = Playing ∧ GameEngine.victory res = None)).
Proof.
  destruct (validateMove_verdict room playerId number) as (v & Hv & Hiff).
  exists v. destruct (GameEngine.valid v) eqn:Hvalid.
  - pose proof (makeMove_accepted _ _ _ _ Hv Hvalid) as Hmove. simpl in Hmove.
    apply proj1 in Hiff. destruct (Hiff eq_refl) as (Hplaying & _).
    destruct (forallb _ _) eqn:Hall in Hmove.
    + apply forallb_hands_empty in Hall. simpl in Hall.
      do 2 eexists. split; [done|]. split; [exact Hmove|].
      split; [done|]. intros _. simpl. repeat split; try done.
    + assert (Hne : ¬ allHandsEmpty (playFrom playerId number (players room))).
      { intros Hall'. apply forallb_hands_empty in Hall'. simpl in Hall.
        congruence. }
      do 2 eexists. split; [done|]. split; [exact Hmove|].
      split; [done|]. intros _. simpl. repeat split; try done.
  - pose proof (makeMove_rejected _ _ _ _ Hv Hvalid) as Hmove.
    pose proof (decrement_le (lives room)) as Hdown.
    pose proof (decrement_exact (lives room)) as Hexact.
    case_bool_decide as Hle.
    + do 2 eexists. split; [done|]. split; [exact Hmove|].
      split; [|done]. intros _. simpl. repeat split; try done; lia.
    + do 2 eexists. split; [done|]. split; [exact Hmove|].
      split; [|done]. intros _. simpl. repeat split; try done; lia.
Qed.

(** ** Dealing *)

Section Dealing.

Lemma resolution_pos : 0 < resolution.
Proof. by vm_compute. Qed.

Lemma randomBelow_range (raw : nat → Z) (i : nat) (k : Z) :
  0 < k → 0 ≤ randomBelow raw i k < k.
Proof.
  intros Hk. unfold randomBelow. pose proof resolution_pos as Hr.
  pose proof (Z.mod_pos_bound (raw i) resolution Hr) as Hm.
  split.
  - apply Z.div_pos; nia.
  - apply Z.div_lt_upper_bound; nia.
Qed.

Lemma draws_S (raw : nat → Z) (range minNum : Z) (n : nat) :
  draws raw range minNum (S n) =
  draws raw range minNum n ++ [randomBelow raw n range + minNum].
Proof. unfold draws. by rewrite seq_S, fmap_app. Qed.

Lemma sampleLoop_sound (fuel : nat) (raw : nat → Z) (cursor : nat)
    (range minNum total : Z) (acc out : list Z) (c : nat) :
  0 < range →
  sampled range minNum acc →
  GameEngine.sampleLoop fuel raw cursor range minNum total acc = Some (out, c) →
  sampled range minNum out ∧
  (Z.of_nat (length acc) ≤ total → Z.of_nat (length out) = total) ∧
  (total ≤ Z.of_nat (length acc) → out = acc).
Proof.
  intros Hrange. revert cursor acc.
  induction fuel as [|fuel IH]; intros cursor acc Hacc; simpl.
  - case_bool_decide; [done|]. intros [= <- <-].
    split; [done|]. split; [lia|done].
  - case_bool_decide as Hlt; [|intros [= <- <-]; split; [done|]; split; [lia|done]].
    destruct (includes _ acc) eqn:Hin; simpl.
    + intros Hloop. destruct (IH _ _ Hacc Hloop) as (Hout & Hlen & Hsame).
      split; [done|]. split; [done|]. lia.
    + apply includes_false in Hin. intros Hloop.
      assert (Hacc' : sampled range minNum
                        (acc ++ [randomBelow raw cursor range + minNum])).
      { destruct Hacc as [Hnd Hall]. split.
        - apply NoDup_app. split; [done|]. split; [|apply NoDup_singleton].
          intros x Hx Hx'. apply list_elem_of_singleton in Hx'. by subst.
        - apply Forall_app. split; [done|]. apply Forall_singleton.
          pose proof (randomBelow_range raw cursor range Hrange). lia. }
      destruct (IH _ _ Hacc' Hloop) as (Hout & Hlen & Hsame).
      rewrite length_app in Hlen. simpl in Hlen.
      split; [done|]. split; [lia|lia].
Qed.

(** The loop ends as soon as the draws so far take enough distinct values. *)
Lemma sampleLoop_terminates (fuel : nat) (raw : nat → Z) (cursor : nat)
    (range minNum total : Z) (acc : list Z) :
  NoDup acc →
  (∀ x, x ∈ acc ↔ x ∈ draws raw range minNum cursor) →
  total ≤ Z.of_nat (length (remove_dups (draws raw range minNum (cursor + fuel)))) →
  is_Some (GameEngine.sampleLoop fuel raw cursor range minNum total acc).
Proof.
  revert cursor acc.
  induction fuel as [|fuel IH]; intros cursor acc Hnd Hsame Henough; simpl.
  - case_bool_decide as Hlt; [|done]. exfalso.
    rewrite Nat.add_0_r in Henough.
    assert (Hperm : acc ≡ₚ remove_dups (draws raw range minNum cursor)).
    { apply NoDup_Permutation; [done|apply NoDup_remove_dups|].
      intros x. by rewrite elem_of_remove_dups. }
    rewrite <- Hperm in Henough. lia.
  - case_bool_decide as Hlt; [|done].
    replace (cursor + S fuel)%nat with (S cursor + fuel)%nat in Henough by lia.
    destruct (includes _ acc) eqn:Hin; simpl.
    + apply includes_true in Hin. apply IH; [done|intros x|done].
      rewrite draws_S, elem_of_app, list_elem_of_singleton, <- Hsame.
      split; [by left|]. intros [? | ->]; done.
    + apply includes_false in Hin. apply IH; [|intros x|done].
      * apply NoDup_app. split; [done|]. split; [|apply NoDup_singleton].
        intros x Hx Hx'. apply list_elem_of_singleton in Hx'. by subst.
      * rewrite draws_S, !elem_of_app, Hsame. done.
Qed.

Lemma swap_perm (l : list Z) (i j : nat) : swap l i j ≡ₚ l.
Proof.
  unfold swap.
  destruct (l !! i) as [ai|] eqn:Hi; [|done].
  destruct (l !! j) as [aj|] eqn:Hj; [|done].
  by apply Permutation_insert_swap.
Qed.

Lemma shuffleLoop_perm (raw : nat → Z) (cursor i : nat) (l : list Z) :
  fst (GameEngine.shuffleLoop raw cursor i l) ≡ₚ l.
Proof.
  revert cursor l. induction i as [|i IH]; intros cursor l; simpl; [done|].
  rewrite IH. apply swap_perm.
Qed.

(** A slice between two indices that are in order is a [take] of a [drop]. *)
Lemma jsSlice_nat {A : Type} (l : list A) (s n : nat) :
  jsSlice l (Z.of_nat s) (Z.of_nat s + Z.of_nat n) = take n (drop s l).
Proof.
  unfold jsSlice. rewrite !bool_decide_eq_false_2 by lia.
  destruct (decide (length l ≤ s)%nat) as [Hge|Hlt].
  - rewrite !Z.min_r by lia. rewrite Z.sub_diag. simpl.
    rewrite (drop_ge l s) by done. by rewrite take_nil.
  - rewrite (Z.min_l (Z.of_nat s)) by lia. rewrite Nat2Z.id.
    destruct (decide (Z.of_nat s + Z.of_nat n ≤ Z.of_nat (length l))).
    + rewrite Z.min_l by lia. f_equal. lia.
    + rewrite Z.min_r by lia. rewrite !take_ge; [done| |];
        rewrite length_drop; lia.
Qed.

Lemma jsSlice_nil {A : Type} (start finish : Z) :
  jsSlice (@nil A) start finish = [].
Proof. unfold jsSlice. by rewrite drop_nil, take_nil. Qed.

(** What [distribute] gives with a count of numbers per player. *)
Lemma distribute_nat (n playerCount : nat) (allNumbers : list Z) :
  GameEngine.distribute (Z.of_nat n) playerCount allNumbers =
  (λ i : nat, sortAsc (take n (drop (i * n) allNumbers))) <$> seq 0 playerCount.
Proof.
  unfold GameEngine.distribute. apply list_fmap_ext. intros _ i _. simpl.
  rewrite <- Nat2Z.inj_mul. by rewrite jsSlice_nat.
Qed.

Lemma chunks_join (n playerCount : nat) (l : list Z) :
  mjoin ((λ i : nat, take n (drop (i * n) l)) <$> seq 0 playerCount) =
  take (playerCount * n) l.
Proof.
  induction playerCount as [|k IH]; [done|].
  rewrite seq_S, fmap_app, join_app, IH. simpl.
  rewrite app_nil_r, take_take_drop. f_equal. lia.
Qed.

Lemma join_sorted_perm (f : nat → list Z) (l : list nat) :
  mjoin ((λ i, sortAsc (f i)) <$> l) ≡ₚ mjoin (f <$> l).
Proof.
  induction l as [|i l IH]; simpl; [done|]. by rewrite IH, sortAsc_perm.
Qed.

Lemma distribute_perm (n playerCount : nat) (allNumbers : list Z) :
  mjoin (GameEngine.distribute (Z.of_nat n) playerCount allNumbers) ≡ₚ
  take (playerCount * n) allNumbers.
Proof.
  rewrite distribute_nat, <- chunks_join.
  apply (join_sorted_perm (λ i, take n (drop (i * n) allNumbers))).
Qed.

Lemma distribute_length (npp : Z) (playerCount : nat) (allNumbers : list Z) :
  length (GameEngine.distribute npp playerCount allNumbers) = playerCount.
Proof. unfold GameEngine.distribute. by rewrite length_fmap, length_seq. Qed.

Lemma distribute_hands (n playerCount : nat) (allNumbers : list Z) (h : list Z) :
  length allNumbers = (playerCount * n)%nat →
  h ∈ GameEngine.distribute (Z.of_nat n) playerCount allNumbers →
  length h = n ∧ StronglySorted Z.le h.
Proof.
  intros Hlen. rewrite distribute_nat.
  intros (i & -> & Hi)%list_elem_of_fmap. apply elem_of_seq in Hi.
  split; [|apply sortAsc_sorted].
  rewrite (Permutation_length (sortAsc_perm _)), length_take, length_drop.
  nia.
Qed.

Lemma distribute_of_nil (npp : Z) (playerCount : nat) :
  mjoin (GameEngine.distribute npp playerCount []) = [].
Proof.
  unfold GameEngine.distribute.
  induction (seq 0 playerCount) as [|i l IH]; [done|].
  rewrite fmap_cons. change (mjoin (?x :: ?ls)) with (x ++ mjoin ls).
  rewrite IH. simpl. by rewrite jsSlice_nil.
Qed.

Lemma generate_returns_inv (fuel : nat) (raw : nat → Z) (config : GameConfig)
    (playerCount : nat) (hands : list (list Z)) :
  GameEngine.generateAllPlayerNumbers fuel raw config playerCount = Returns hands →
  let total := Z.of_nat playerCount * cfg_numbersPerPlayer config in
  let range := maxNumber config - minNumber config + 1 in
  total ≤ range ∧
  ∃ allNumbers cursor shuffled,
    GameEngine.sampleLoop fuel raw 0 range (minNumber config) total [] =
      Some (allNumbers, cursor) ∧
    shuffled ≡ₚ allNumbers ∧
    hands = GameEngine.distribute (cfg_numbersPerPlayer config) playerCount shuffled.
Proof.
  unfold GameEngine.generateAllPlayerNumbers. simpl.
  case_bool_decide as Hcap; [done|].
  destruct (GameEngine.sampleLoop _ _ _ _ _ _ _) as [[allNumbers cursor]|] eqn:Hs;
    [|done].
  pose proof (shuffleLoop_perm raw cursor (length allNumbers - 1) allNumbers) as Hp.
  destruct (GameEngine.shuffleLoop _ _ _ _) as [shuffled c'].
  intros [= <-]. split; [lia|]. by exists allNumbers, cursor, shuffled.
Qed.

Lemma sampled_nil (range minNum : Z) : sampled range minNum [].
Proof. split; [apply NoDup_nil_2|apply Forall_nil_2]. Qed.

(** Whatever the configured count per player, a deal that returns gives one
    hand per player, no number twice, and only numbers of the range. *)
Lemma generate_hands_distinct (fuel : nat) (raw : nat → Z) (config : GameConfig)
    (playerCount : nat) (hands : list (list Z)) :
  GameEngine.generateAllPlayerNumbers fuel raw config playerCount = Returns hands →
  length hands = playerCount ∧
  NoDup (mjoin hands) ∧
  Forall (λ x, minNumber config ≤ x ≤ maxNumber config) (mjoin hands).
Proof.
  intros Hgen. apply generate_returns_inv in Hgen as (Hcap & all & c & sh & Hs & Hp & ->).
  split; [apply distribute_length|].
  set (npp := cfg_numbersPerPlayer config) in *.
  set (range := maxNumber config - minNumber config + 1) in *.
  destruct (decide (0 < Z.of_nat playerCount * npp)) as [Hpos|Hnonpos].
  - assert (Hrange : 0 < range) by lia.
    apply (sampleLoop_sound _ _ _ _ _ _ _ _ _ Hrange (sampled_nil _ _)) in Hs
      as ([Hnd Hall] & Hlen & _).
    simpl in Hlen. specialize (Hlen ltac:(lia)).
    assert (Hnpp : 0 ≤ npp) by nia.
    rewrite <- (Z2Nat.id npp Hnpp).
    rewrite distribute_perm, take_ge
      by (rewrite Hp; apply Nat2Z.inj_le; rewrite Nat2Z.inj_mul, Z2Nat.id; lia).
    rewrite Hp. split; [done|].
    eapply Forall_impl; [exact Hall|]. simpl. intros x Hx. unfold range in Hx. lia.
  - destruct fuel; simpl in Hs;
      rewrite bool_decide_eq_false_2 in Hs by (simpl; lia);
      injection Hs as <- <-; apply Permutation_nil_r in Hp as ->;
      rewrite distribute_of_nil; (split; [apply NoDup_nil_2|apply Forall_nil_2]).
Qed.

Lemma join_lookup_elem (ls : list (list Z)) (i : nat) (l : list Z) (x : Z) :
  ls !! i = Some l → x ∈ l → x ∈ mjoin ls.
Proof.
  intros Hl Hx. apply list_elem_of_join. exists l. split; [done|].
  by eapply list_elem_of_lookup_2.
Qed.

(** Hands whose concatenation has no repetition are pairwise disjoint. *)
Lemma join_nodup_disjoint (ls : list (list Z)) (i j : nat) (li lj : list Z) :
  NoDup (mjoin ls) → i ≠ j → ls !! i = Some li → ls !! j = Some lj →
  ∀ x, x ∈ li → x ∉ lj.
Proof.
  revert i j. induction ls as [|l ls IH]; intros i j Hnd Hij Hi Hj x Hxi Hxj;
    [done|].
  change (mjoin (l :: ls)) with (l ++ mjoin ls) in Hnd.
  apply NoDup_app in Hnd as (_ & Hdisj & Hnd).
  destruct i as [|i], j as [|j]; simpl in *; simplify_eq.
  - apply (Hdisj x Hxi). by eapply join_lookup_elem.
  - apply (Hdisj x Hxj). by eapply join_lookup_elem.
  - eapply (IH i j); eauto.
Qed.

(** C2. With the range 1..100: when the total requested exceeds 100 the
    function throws the capacity error and returns no hands; otherwise it
    never throws, it returns as soon as the draws of the random source have
    taken enough distinct values, and what it returns is one hand per
    player, each of the configured length and in ascending order, the hands
    pairwise disjoint, their union without repetition, of exactly
    [playerCount * numbersPerPlayer] numbers, all between 1 and 100. *)
Theorem C2_generateAllPlayerNumbers (fuel : nat) (raw : nat → Z) (maxL : Z)
    (numbersPerPlayer playerCount : nat) :
  let config := mkGameConfig maxL (Z.of_nat numbersPerPlayer) 1 100 in
  let total := (playerCount * numbersPerPlayer)%nat in
  ((100 < total)%nat →
     GameEngine.generateAllPlayerNumbers fuel raw config playerCount =
       Throws (GameEngine.capacityMessage (Z.of_nat total) 100)) ∧
  ((total ≤ 100)%nat →
     (∀ msg, GameEngine.generateAllPlayerNumbers fuel raw config playerCount ≠
               Throws msg) ∧
     ((total ≤ length (remove_dups (draws raw 100 1 fuel)))%nat →
        ∃ hands, GameEngine.generateAllPlayerNumbers fuel raw config playerCount =
                   Returns hands) ∧
     (∀ hands,
        GameEngine.generateAllPlayerNumbers fuel raw config playerCount =
          Returns hands →
        length hands = playerCount ∧
        (∀ h, h ∈ hands → length h = numbersPerPlayer ∧ StronglySorted Z.le h) ∧
        (∀ i j hi hj, i ≠ j → hands !! i = Some hi → hands !! j = Some hj →
                      ∀ x, x ∈ hi → x ∉ hj) ∧
        NoDup (mjoin hands) ∧
        length (mjoin hands) = total ∧
        Forall (λ x, 1 ≤ x ≤ 100) (mjoin hands))).
Proof.
  intros config total. split.
  - intros Hbig. unfold GameEngine.generateAllPlayerNumbers. simpl.
    rewrite bool_decide_eq_true_2 by (unfold total in Hbig; nia).
    do 2 f_equal. unfold total. lia.
  - intros Hfit. split; [|split].
    + intros msg. unfold GameEngine.generateAllPlayerNumbers. simpl.
      rewrite bool_decide_eq_false_2 by (unfold total in Hfit; nia).
      destruct (GameEngine.sampleLoop _ _ _ _ _ _ _) as [[all c]|]; [|done].
      by destruct (GameEngine.shuffleLoop _ _ _ _).
    + intros Henough. unfold GameEngine.generateAllPlayerNumbers. simpl.
      rewrite bool_decide_eq_false_2 by (unfold total in Hfit; nia).
      destruct (sampleLoop_terminates fuel raw 0 100 1
                  (Z.of_nat playerCount * Z.of_nat numbersPerPlayer) [])
        as [[all c] Hs].
      * apply NoDup_nil_2.
      * intros x. unfold draws. simpl. done.
      * simpl. unfold total in Henough. lia.
      * change (100 - 1 + 1) with 100. rewrite Hs.
        destruct (GameEngine.shuffleLoop _ _ _ _). eauto.
    + intros hands Hgen.
      destruct (generate_hands_distinct _ _ _ _ _ Hgen) as (Hlen & Hnd & Hall).
      apply generate_returns_inv in Hgen as (Hcap & all & c & sh & Hs & Hp & ->).
      simpl in *.
      assert (Hrange : 0 < 100 - 1 + 1) by lia.
      apply (sampleLoop_sound _ _ _ _ _ _ _ _ _ Hrange (sampled_nil _ _)) in Hs
        as (_ & Hlen' & _).
      simpl in Hlen'. assert (Hlen'' := Hlen' ltac:(lia)).
      assert (Hsh : length sh = total).
      { rewrite Hp. unfold total. lia. }
      clear Hlen'. split; [done|]. split; [|split; [|split; [done|split; [|done]]]].
      * intros h Hh. by apply (distribute_hands _ _ _ _ Hsh).
      * intros i j hi hj. by apply join_nodup_disjoint.
      * by rewrite distribute_perm, take_ge by lia.
Qed.

(** C2, witness: two players, three numbers each, six draws. *)
Lemma C2_generateAllPlayerNumbers_witness :
  ∃ hands, GameEngine.generateAllPlayerNumbers 6 countingSource
             (mkGameConfig 3 3 1 100) 2 = Returns hands.
Proof.
  destruct (C2_generateAllPlayerNumbers 6 countingSource 3 3 2) as [_ Hfit].
  destruct (Hfit ltac:(simpl; lia)) as (_ & Hreturns & _).
  apply Hreturns. vm_compute. lia.
Defined.

End Dealing.

(** ** The store *)

Section Store.

Import RoomService.

Lemma updRow_keys (ps : list Player) (row : PlayerRow) :
  pr_id (updRow ps row) = pr_id row ∧
  pr_room_id (updRow ps row) = pr_room_id row ∧
  pr_username (updRow ps row) = pr_username row.
Proof.
  revert row. induction ps as [|p ps IH]; intros row; simpl; [done|].
  destruct (IH (if decide (pr_id row = p_id p)
                then mkPlayerRow (pr_id row) (pr_room_id row)
                       (pr_username row) (numbers p)
                else row)) as (-> & -> & ->).
  by case_decide.
Qed.

Lemma updRow_absent (ps : list Player) (row : PlayerRow) :
  pr_id row ∉ p_id <$> ps → updRow ps row = row.
Proof.
  revert row. induction ps as [|p ps IH]; intros row Hnot; simpl; [done|].
  rewrite fmap_cons, not_elem_of_cons in Hnot. destruct Hnot as [Hne Hnot].
  rewrite decide_False by done. by apply IH.
Qed.

Lemma fmap_updRow_absent (ps : list Player) (l : list PlayerRow) :
  (∀ row, row ∈ l → pr_id row ∉ p_id <$> ps) → updRow ps <$> l = l.
Proof.
  induction l as [|row l IH]; intros Hl; [done|].
  rewrite fmap_cons, updRow_absent, IH; [done| |].
  - intros r Hr. apply Hl. by right.
  - apply Hl. left.
Qed.

Lemma updRow_cons (p : Player) (ps : list Player) (row : PlayerRow) :
  updRow (p :: ps) row =
  updRow ps (if decide (pr_id row = p_id p)
             then mkPlayerRow (pr_id row) (pr_room_id row) (pr_username row)
                    (numbers p)
             else row).
Proof. done. Qed.

Lemma updRow_present (ps : list Player) (row : PlayerRow) (p : Player) :
  NoDup (p_id <$> ps) → p ∈ ps → pr_id row = p_id p →
  pr_numbers (updRow ps row) = numbers p.
Proof.
  revert row. induction ps as [|q ps IH]; intros row Hnd Hp Hid; [by inv Hp|].
  rewrite fmap_cons in Hnd. apply NoDup_cons in Hnd as [Hq Hnd].
  rewrite updRow_cons.
  apply elem_of_cons in Hp as [->|Hp].
  - rewrite decide_True by done. rewrite updRow_absent; [done|].
    simpl. by rewrite Hid.
  - rewrite decide_False.
    + by apply IH.
    + intros Heq. apply Hq. rewrite <- Heq, Hid. by apply list_elem_of_fmap_2.
Qed.

Lemma updateRoom_players (room : GameRoom) (d : Database) :
  playersTbl (updateRoom room d) = updRow (players room) <$> playersTbl d.
Proof.
  unfold updateRoom. simpl. generalize (playersTbl d).
  induction (players room) as [|p ps IH]; intros tbl; simpl.
  - by rewrite list_fmap_id.
  - rewrite IH. unfold updatePlayerNumbers. rewrite <- list_fmap_compose.
    by apply list_fmap_ext.
Qed.

Lemma getPlayers_fmap (f : PlayerRow → PlayerRow) (roomId : string)
    (d : Database) (rooms' : gmap string RoomRow) :
  (∀ row, pr_room_id (f row) = pr_room_id row) →
  getPlayers roomId (mkDatabase rooms' (f <$> playersTbl d)) =
  f <$> getPlayers roomId d.
Proof.
  intros Hf. unfold getPlayers. simpl.
  induction (playersTbl d) as [|row tbl IH]; [done|].
  rewrite fmap_cons, !filter_cons, Hf, IH. by case_decide.
Qed.

Lemma getPlayers_updateRoom (room : GameRoom) (roomId : string) (d : Database) :
  getPlayers roomId (updateRoom room d) =
  updRow (players room) <$> getPlayers roomId d.
Proof.
  pose proof (updateRoom_players room d) as Hp.
  destruct (updateRoom room d) as [rooms' tbl'] eqn:Hu. simpl in Hp. subst tbl'.
  apply getPlayers_fmap. intros row. apply updRow_keys.
Qed.

Lemma wf_updateRoom (room : GameRoom) (d : Database) :
  wf d → wf (updateRoom room d).
Proof.
  unfold wf. rewrite updateRoom_players, <- list_fmap_compose.
  intros Hnd. erewrite list_fmap_ext; [exact Hnd|].
  intros _ row _. simpl. apply updRow_keys.
Qed.

Lemma getPlayers_ids_nodup (roomId : string) (d : Database) :
  wf d → NoDup (pr_id <$> getPlayers roomId d).
Proof.
  unfold wf, getPlayers. intros Hnd.
  apply (sublist_NoDup _ (pr_id <$> playersTbl d)); [done|].
  apply fmap_sublist, sublist_filter.
Qed.

(** A row of another room does not carry the id of a row of this room. *)
Lemma getPlayers_ids_apart (roomId roomId' : string) (d : Database)
    (row : PlayerRow) :
  wf d → roomId' ≠ roomId → row ∈ getPlayers roomId' d →
  pr_id row ∉ pr_id <$> getPlayers roomId d.
Proof.
  unfold wf, getPlayers. intros Hnd Hne Hrow Hin.
  apply list_elem_of_fmap in Hin as (row' & Hid & Hrow').
  apply list_elem_of_filter in Hrow as [Hr Hrow].
  apply list_elem_of_filter in Hrow' as [Hr' Hrow'].
  assert (row = row'); [|congruence].
  apply list_elem_of_lookup in Hrow as [i Hi].
  apply list_elem_of_lookup in Hrow' as [j Hj].
  assert (i = j); [|congruence].
  eapply NoDup_lookup; [exact Hnd| |];
    rewrite list_lookup_fmap; [by rewrite Hi|rewrite Hj; simpl; by rewrite Hid].
Qed.

Lemma getRoom_Some_inv (roomId : string) (d : Database) (room : GameRoom) :
  getRoom roomId d = Some room →
  ∃ row, roomsTbl d !! roomId = Some row ∧
    room = mkGameRoom roomId (playerOfRow <$> getPlayers roomId d)
             (row_timeline row) (row_lives row) (max_lives row)
             (numbers_per_player row) (row_state row) (host_id row)
             (game_events row).
Proof.
  unfold getRoom. destruct (roomsTbl d !! roomId) as [row|]; [|done].
  intros [= <-]. eauto.
Qed.

Lemma getRoom_id (roomId : string) (d : Database) (room : GameRoom) :
  getRoom roomId d = Some room → r_id room = roomId.
Proof. intros (row & _ & ->)%getRoom_Some_inv. done. Qed.

Lemma players_ids_of_rows (l : list PlayerRow) :
  p_id <$> (playerOfRow <$> l) = pr_id <$> l.
Proof. rewrite <- list_fmap_compose. by apply list_fmap_ext. Qed.

(** Writing player objects back onto the rows they were read from. *)
Lemma updRow_roundtrip (qs ps : list Player) (l : list PlayerRow) :
  NoDup (p_id <$> qs) → (∀ p, p ∈ ps → p ∈ qs) →
  pr_id <$> l = p_id <$> ps →
  pr_username <$> l = username <$> ps →
  playerOfRow <$> (updRow qs <$> l) = ps.
Proof.
  intros Hnd. revert l. induction ps as [|p ps IH]; intros l Hsub Hids Hnames.
  - by apply fmap_nil_inv in Hids as ->.
  - destruct l as [|row l]; [done|].
    rewrite !fmap_cons in *. injection Hids as Hid Hids.
    injection Hnames as Hname Hnames.
    rewrite IH; [|intros q Hq; apply Hsub; by right|done|done].
    f_equal. unfold playerOfRow.
    destruct (updRow_keys qs row) as (-> & _ & ->).
    rewrite (updRow_present qs row p Hnd); [|apply Hsub; left|done].
    rewrite Hid, Hname. by destruct p.
Qed.

(** [updateRoom] followed by [getRoom] gives back the room object, when the
    object has the players of the stored room, in order, and its
    configuration. *)
Lemma getRoom_updateRoom_same (room room0 : GameRoom) (d : Database) :
  wf d →
  getRoom (r_id room) d = Some room0 →
  p_id <$> players room = p_id <$> players room0 →
  username <$> players room = username <$> players room0 →
  maxLives room = maxLives room0 →
  numbersPerPlayer room = numbersPerPlayer room0 →
  getRoom (r_id room) (updateRoom room d) = Some room.
Proof.
  intros Hwf Hget Hids Hnames Hmax Hnpp.
  apply getRoom_Some_inv in Hget as (row & Hrow & ->). simpl in *.
  unfold getRoom. rewrite getPlayers_updateRoom.
  unfold updateRoom at 1. simpl. rewrite lookup_alter_eq, Hrow. simpl.
  rewrite players_ids_of_rows in Hids.
  rewrite <- list_fmap_compose in Hnames.
  rewrite (updRow_roundtrip (players room) (players room)); try done.
  - rewrite <- Hmax, <- Hnpp. by destruct room.
  - rewrite Hids. by apply getPlayers_ids_nodup.
Qed.

(** [updateRoom] leaves the other rooms as they are. *)
Lemma getRoom_updateRoom_other (room : GameRoom) (roomId' : string)
    (d : Database) :
  wf d →
  (∀ p, p ∈ players room → p_id p ∈ pr_id <$> getPlayers (r_id room) d) →
  roomId' ≠ r_id room →
  getRoom roomId' (updateRoom room d) = getRoom roomId' d.
Proof.
  intros Hwf Hids Hne. unfold getRoom. rewrite getPlayers_updateRoom.
  unfold updateRoom at 1. simpl. rewrite lookup_alter_ne by done.
  destruct (roomsTbl d !! roomId') as [row|]; [|done].
  rewrite fmap_updRow_absent; [done|].
  intros r Hr Hin. apply list_elem_of_fmap in Hin as (p & Hid & Hp).
  apply (getPlayers_ids_apart (r_id room) roomId' d r Hwf Hne Hr).
  rewrite Hid. by apply Hids.
Qed.

Lemma getPlayers_filter (P : PlayerRow → Prop) `{!∀ row, Decision (P row)}
    (roomId : string) (d : Database) (rooms' : gmap string RoomRow) :
  getPlayers roomId (mkDatabase rooms' (filter P (playersTbl d))) =
  filter P (getPlayers roomId d).
Proof.
  unfold getPlayers. simpl.
  induction (playersTbl d) as [|row tbl IH]; [done|].
  rewrite !filter_cons. repeat case_decide; rewrite ?filter_cons;
    repeat case_decide; try done; by rewrite IH.
Qed.

Lemma wf_filter (P : PlayerRow → Prop) `{!∀ row, Decision (P row)}
    (d : Database) (rooms' : gmap string RoomRow) :
  wf d → wf (mkDatabase rooms' (filter P (playersTbl d))).
Proof.
  unfold wf. simpl. intros Hnd.
  apply (sublist_NoDup _ (pr_id <$> playersTbl d)); [done|].
  apply fmap_sublist, sublist_filter.
Qed.

Lemma players_filter_id (sid : string) (l : list PlayerRow) :
  playerOfRow <$> filter (λ row, pr_id row ≠ sid) l =
  filter (λ p, p_id p ≠ sid) (playerOfRow <$> l).
Proof.
  induction l as [|row l IH]; [done|].
  rewrite fmap_cons, !filter_cons. simpl.
  case_decide; [rewrite fmap_cons|]; by rewrite IH.
Qed.

(** *** [removePlayer] *)

Lemma wf_removePlayer (sid : string) (d : Database) :
  wf d → wf (removePlayer sid d).
Proof. apply wf_filter. Qed.

Lemma getRoom_removePlayer (sid roomId : string) (d : Database) :
  getRoom roomId (removePlayer sid d) =
  (λ room, set_players (filter (λ p, p_id p ≠ sid) (players room)) room)
    <$> getRoom roomId d.
Proof.
  unfold getRoom, removePlayer. rewrite getPlayers_filter. simpl.
  destruct (roomsTbl d !! roomId) as [row|]; [|done]. simpl.
  unfold set_players. simpl. by rewrite players_filter_id.
Qed.

(** *** [deleteRoom] *)

Lemma wf_deleteRoom (roomId : string) (d : Database) :
  wf d → wf (deleteRoom roomId d).
Proof. apply wf_filter. Qed.

Lemma getRoom_deleteRoom_same (roomId : string) (d : Database) :
  getRoom roomId (deleteRoom roomId d) = None.
Proof. unfold getRoom, deleteRoom. simpl. by rewrite lookup_delete_eq. Qed.

Lemma getRoom_deleteRoom_other (roomId roomId' : string) (d : Database) :
  roomId' ≠ roomId →
  getRoom roomId' (deleteRoom roomId d) = getRoom roomId' d.
Proof.
  intros Hne. unfold getRoom, deleteRoom. rewrite getPlayers_filter. simpl.
  rewrite lookup_delete_ne by done.
  destruct (roomsTbl d !! roomId') as [row|]; [|done].
  do 3 f_equal. unfold getPlayers. rewrite list_filter_filter.
  apply list_filter_iff. intros rw. split; [by intros [_ ?]|].
  intros Hr. split; [congruence|done].
Qed.

(** *** [setHost] *)

Lemma wf_setHost (roomId host : string) (d : Database) :
  wf d → wf (setHost roomId host d).
Proof. done. Qed.

Lemma getRoom_setHost_same (roomId host : string) (d : Database) :
  getRoom roomId (setHost roomId host d) = set_hostId host <$> getRoom roomId d.
Proof.
  unfold getRoom, setHost. simpl. rewrite lookup_alter_eq.
  by destruct (roomsTbl d !! roomId) as [row|].
Qed.

Lemma getRoom_setHost_other (roomId roomId' host : string) (d : Database) :
  roomId' ≠ roomId →
  getRoom roomId' (setHost roomId host d) = getRoom roomId' d.
Proof.
  intros Hne. unfold getRoom, setHost. simpl. by rewrite lookup_alter_ne.
Qed.

(** *** [addPlayer] *)

Lemma addPlayer_Some (roomId : string) (player : Player) (d : Database) :
  is_Some (roomsTbl d !! roomId) →
  addPlayer roomId player d =
    Some (mkDatabase (roomsTbl d)
            (filter (λ row, pr_id row ≠ p_id player) (playersTbl d) ++
             [mkPlayerRow (p_id player) roomId (username player)
                (numbers player)])).
Proof. intros [row Hrow]. unfold addPlayer. by rewrite Hrow. Qed.

Lemma wf_addPlayer (roomId : string) (player : Player) (d d' : Database) :
  wf d → addPlayer roomId player d = Some d' → wf d'.
Proof.
  unfold addPlayer, wf. destruct (roomsTbl d !! roomId); [|done].
  intros Hnd [= <-]. simpl. rewrite fmap_app. apply NoDup_app.
  split; [|split; [|apply NoDup_singleton]].
  - apply (sublist_NoDup _ (pr_id <$> playersTbl d)); [done|].
    apply fmap_sublist, sublist_filter.
  - intros x Hx Hx'. apply list_elem_of_singleton in Hx'. simpl in Hx'. subst x.
    apply list_elem_of_fmap in Hx as (row & Hid & Hrow).
    apply list_elem_of_filter in Hrow as [Hne _]. by apply Hne.
Qed.

Lemma getRoom_addPlayer_same (roomId : string) (player : Player)
    (d d' : Database) (room : GameRoom) :
  getRoom roomId d = Some room →
  addPlayer roomId player d = Some d' →
  getRoom roomId d' =
    Some (set_players
            (filter (λ p, p_id p ≠ p_id player) (players room) ++ [player]) room).
Proof.
  intros (row & Hrow & ->)%getRoom_Some_inv.
  unfold addPlayer. rewrite Hrow. intros [= <-].
  unfold getRoom. simpl. rewrite Hrow. unfold set_players. simpl.
  do 2 f_equal. unfold getPlayers. simpl.
  rewrite filter_app, fmap_app, filter_cons, decide_True by done.
  rewrite filter_nil. simpl. f_equal; [|by destruct player].
  rewrite <- players_filter_id. f_equal.
  rewrite !list_filter_filter. apply list_filter_iff. intros rw. tauto.
Qed.

Lemma getRoom_addPlayer_other (roomId roomId' : string) (player : Player)
    (d d' : Database) :
  roomId' ≠ roomId →
  addPlayer roomId player d = Some d' →
  getRoom roomId' d' =
    (λ room, set_players (filter (λ p, p_id p ≠ p_id player) (players room)) room)
      <$> getRoom roomId' d.
Proof.
  intros Hne. unfold addPlayer. destruct (roomsTbl d !! roomId); [|done].
  intros [= <-]. unfold getRoom. simpl.
  destruct (roomsTbl d !! roomId') as [row|]; [|done]. simpl.
  unfold set_players. simpl. do 2 f_equal.
  rewrite <- players_filter_id. f_equal. unfold getPlayers. simpl.
  rewrite filter_app, filter_cons, decide_False by (simpl; congruence).
  rewrite filter_nil, app_nil_r.
  rewrite !list_filter_filter. apply list_filter_iff. intros rw. tauto.
Qed.

(** *** [createRoom] *)

Lemma createRoom_store (code : string) (maxL npp : Z) (d : Database) :
  snd (createRoom code maxL npp d) = d ∨
  (roomsTbl d !! code = None ∧
   snd (createRoom code maxL npp d) =
     mkDatabase (<[code := mkRoomRow maxL npp maxL Lobby EmptyString [] []]>
                   (roomsTbl d)) (playersTbl d)).
Proof.
  unfold createRoom. destruct (roomsTbl d !! code); [by left|by right].
Qed.

End Store.

(** ** What the engine actions do to the room object *)

Section EngineRuns.

Import GameEngine Handlers.

Lemma addGameEvent_run (id : string) (type : EventType) (data : EventData)
    (timestamp : Z) (room : GameRoom) :
  ∃ events, addGameEvent id type data timestamp room =
              (Returns tt, set_gameEvents events room).
Proof.
  unfold addGameEvent, bind, modify, getRoomObj, ret. simpl.
  case_bool_decide; eexists; unfold set_gameEvents; simpl; reflexivity.
Qed.

Lemma initializeGame_run (fuel : nat) (raw : nat → Z) (room : GameRoom) :
  match generateAllPlayerNumbers fuel raw
          (mkGameConfig (maxLives room) (numbersPerPlayer room) 1 100)
          (length (players room)) with
  | Returns hands => initializeGame fuel raw room = (Returns tt, dealt hands room)
  | Throws e => initializeGame fuel raw room = (Throws e, room)
  | Unfinished => initializeGame fuel raw room = (Unfinished, room)
  end.
Proof.
  unfold initializeGame, bind, getRoomObj, modify, throw. cbv zeta.
  destruct (generateAllPlayerNumbers _ _ _ _); reflexivity.
Qed.

Lemma resetGame_run (room : GameRoom) :
  resetGame room =
  (Returns tt,
   set_gameEvents []
     (set_state Lobby
        (set_lives (maxLives room)
           (set_timeline []
              (set_players (set_numbers [] <$> players room) room))))).
Proof. done. Qed.

Lemma startGameBody_run (env : Env) (room : GameRoom) :
  match generateAllPlayerNumbers (env_fuel env) (env_raw env)
          (mkGameConfig (maxLives room) (numbersPerPlayer room) 1 100)
          (length (players room)) with
  | Returns hands =>
      ∃ events, startGameBody env room =
                  (Returns tt, set_gameEvents events (dealt hands room))
  | Throws e => startGameBody env room = (Throws e, room)
  | Unfinished => startGameBody env room = (Unfinished, room)
  end.
Proof.
  pose proof (initializeGame_run (env_fuel env) (env_raw env) room) as Hinit.
  destruct (generateAllPlayerNumbers _ _ _ _) as [hands|e|];
    unfold startGameBody, bind; rewrite Hinit; [|done|done].
  apply addGameEvent_run.
Qed.

Lemma makeMove_returns (playerId : string) (number : Z) (room : GameRoom) :
  ∃ res room1, makeMove playerId number room = (Returns res, room1).
Proof.
  destruct (validateMove_returns playerId number room) as (v & Hv).
  destruct (valid v) eqn:Hvalid.
  - rewrite (makeMove_accepted _ _ _ _ Hv Hvalid). cbv zeta.
    destruct (forallb _ _); eauto.
  - rewrite (makeMove_rejected _ _ _ _ Hv Hvalid). case_bool_decide; eauto.
Qed.

Lemma playNumberBody_run (env : Env) (socketId : string) (number : Z)
    (room : GameRoom) :
  ∃ res room1 events,
    makeMove socketId number room = (Returns res, room1) ∧
    playNumberBody env socketId number room =
      (Returns tt, set_gameEvents events room1).
Proof.
  destruct (makeMove_returns socketId number room) as (res & room1 & Hmove).
  exists res, room1. unfold playNumberBody, bind at 1. rewrite Hmove.
  unfold bind at 1, getRoomObj.
  destruct (success res).
  - unfold bind at 1.
    destruct (addGameEvent_run (env_eventId env 0) MoveMade
                (DataMoveMade socketId (username <$> findPlayer socketId (players room1))
                   number (timeline room1)) (env_now env) room1) as [ev1 ->].
    case_bool_decide.
    + destruct (addGameEvent_run (env_eventId env 1) GameEnded
                  (DataGameEnded "victory"
                     "Congratulations! You completed the sequence!")
                  (env_now env) (set_gameEvents ev1 room1)) as [ev2 Hev2].
      exists ev2. split; [done|]. rewrite Hev2. done.
    + exists ev1. done.
  - unfold bind at 1.
    destruct (addGameEvent_run (env_eventId env 0) MoveFailed
                (DataMoveFailed socketId
                   (username <$> findPlayer socketId (players room1)) number
                   (error res) (livesLost res) (lives room1))
                (env_now env) room1) as [ev1 ->].
    case_bool_decide.
    + destruct (addGameEvent_run (env_eventId env 1) GameEnded
                  (DataGameEnded "defeat" "Game Over! You ran out of lives.")
                  (env_now env) (set_gameEvents ev1 room1)) as [ev2 Hev2].
      exists ev2. split; [done|]. rewrite Hev2. done.
    + exists ev1. done.
Qed.

Lemma resetGameBody_run (env : Env) (room : GameRoom) :
  ∃ events, resetGameBody env room =
    (Returns tt,
     set_gameEvents events
       (set_state Lobby
          (set_lives (maxLives room)
             (set_timeline []
                (set_players (set_numbers [] <$> players room) room))))).
Proof.
  unfold resetGameBody, bind at 1. rewrite resetGame_run.
  destruct (addGameEvent_run (env_eventId env 0) GameReset
              (DataMessage "Game has been reset") (env_now env)
              (set_gameEvents []
                 (set_state Lobby
                    (set_lives (maxLives room)
                       (set_timeline []
                          (set_players (set_numbers [] <$> players room) room))))))
    as [ev ->].
  by exists ev.
Qed.

End EngineRuns.

(** ** Rooms as a transition system *)

Section RoomInvariants.

Lemma allHands_cons (p : Player) (ps : list Player) :
  allHands (p :: ps) = numbers p ++ allHands ps.
Proof. done. Qed.

Lemma allHands_app (ps qs : list Player) :
  allHands (ps ++ qs) = allHands ps ++ allHands qs.
Proof. unfold allHands. apply bind_app. Qed.

Lemma allHands_filter_sublist (P : Player → Prop) `{!∀ p, Decision (P p)}
    (ps : list Player) :
  allHands (filter P ps) `sublist_of` allHands ps.
Proof.
  induction ps as [|p ps IH]; [done|].
  rewrite filter_cons. case_decide.
  - rewrite !allHands_cons. by apply sublist_app.
  - rewrite allHands_cons. by apply sublist_inserts_l.
Qed.

Lemma allHands_reset (ps : list Player) :
  allHands (set_numbers [] <$> ps) = [].
Proof. induction ps as [|p ps IH]; [done|]. by rewrite fmap_cons, allHands_cons, IH. Qed.

Lemma allHands_assign (hands : list (list Z)) (ps : list Player) :
  length hands = length ps →
  allHands (GameEngine.assignNumbers hands ps) = mjoin hands.
Proof.
  unfold GameEngine.assignNumbers. revert hands.
  induction ps as [|p ps IH]; intros hands Hlen.
  - by destruct hands.
  - destruct hands as [|h hands]; [done|]. simpl in Hlen.
    rewrite imap_cons, allHands_cons. simpl. f_equal.
    rewrite <- IH by lia. f_equal.
Qed.

Lemma filter_keeps_all {A : Type} (P : A → Prop) `{!∀ x, Decision (P x)}
    (l : list A) :
  Forall P l → filter P l = l.
Proof.
  induction 1 as [|x l Hx Hl IH]; [done|].
  by rewrite filter_cons_True, IH.
Qed.

(** Taking a number out of a hand that holds it once. *)
Lemma filter_out_perm (n : Z) (l : list Z) :
  NoDup l → n ∈ l → l ≡ₚ n :: filter (λ x, x ≠ n) l.
Proof.
  induction 1 as [|x l Hx Hnd IH]; [by intros ?%elem_of_nil|].
  intros Hn. rewrite filter_cons. case_decide as Hne.
  - apply elem_of_cons in Hn as [->|Hn]; [done|].
    rewrite (IH Hn) at 1. apply Permutation_swap.
  - subst x. rewrite filter_keeps_all; [done|].
    apply Forall_forall. intros y Hy ->. done.
Qed.

Lemma playFrom_perm (socketId : string) (n : Z) (ps : list Player) (p : Player) :
  NoDup (allHands ps) →
  findPlayer socketId ps = Some p → n ∈ numbers p →
  allHands ps ≡ₚ n :: allHands (playFrom socketId n ps).
Proof.
  induction ps as [|q ps IH]; [done|].
  rewrite allHands_cons. intros Hnd. apply NoDup_app in Hnd as (Hq & _ & Hps).
  unfold findPlayer, playFrom. simpl. case_bool_decide as Hid.
  - intros [= <-] Hn. rewrite allHands_cons. simpl.
    by rewrite (filter_out_perm n (numbers q)) at 1.
  - intros Hfind Hn. rewrite allHands_cons.
    fold (playFrom socketId n ps). rewrite (IH Hps Hfind Hn).
    by rewrite Permutation_middle.
Qed.

Lemma playingInv_move (socketId : string) (number : Z) (r r1 : GameRoom)
    (res : GameEngine.MoveResult) :
  GameEngine.makeMove socketId number r = (Returns res, r1) →
  playingInv r → playingInv r1.
Proof.
  intros Hmove Hinv.
  destruct (validateMove_verdict r socketId number) as (v & Hv & Hiff).
  destruct (GameEngine.valid v) eqn:Hvalid.
  - pose proof (makeMove_accepted _ _ _ _ Hv Hvalid) as Hacc. simpl in Hacc.
    apply proj1 in Hiff.
    destruct (Hiff eq_refl) as (Hplaying & p & Hfind & Hheld & Hnew & Hleast).
    destruct (Hinv Hplaying) as (Hsorted & Hbelow & Hnd).
    pose proof (playFrom_perm socketId number (players r) p Hnd Hfind Hheld) as Hperm.
    assert (Hnd' : NoDup (number :: allHands (playFrom socketId number (players r))))
      by (by rewrite <- Hperm).
    apply NoDup_cons in Hnd' as [Hout Hnd'].
    assert (Hgoal : playingInv
              (set_players (playFrom socketId number (players r))
                 (set_timeline (timeline r ++ [number]) r))).
    { intros _. simpl. split; [|split; [|done]].
      - apply StronglySorted_app. split; [|split; [done|repeat constructor]].
        intros t x Ht Hx. apply list_elem_of_singleton in Hx. subst x.
        apply Hbelow; [done|]. by destruct Hleast.
      - intros t h Ht Hh.
        assert (Hh' : h ∈ allHands (players r)) by (rewrite Hperm; by right).
        apply elem_of_app in Ht as [Ht|Ht]; [by apply Hbelow|].
        apply list_elem_of_singleton in Ht. subst t.
        destruct Hleast as (_ & _ & Hleast).
        assert (number ≤ h).
        { apply Hleast; [done|]. intros Hin. specialize (Hbelow h h Hin Hh'). lia. }
        assert (number ≠ h) by (intros ->; done). lia. }
    rewrite Hmove in Hacc. destruct (forallb _ _); injection Hacc as _ ->;
      [by intros ?|done].
  - pose proof (makeMove_rejected _ _ _ _ Hv Hvalid) as Hrej.
    rewrite Hmove in Hrej. case_bool_decide; injection Hrej as _ ->;
      [by intros ?|done].
Qed.

Lemma livesInv_move (socketId : string) (number : Z) (r r1 : GameRoom)
    (res : GameEngine.MoveResult) :
  GameEngine.makeMove socketId number r = (Returns res, r1) →
  livesInv r → livesInv r1.
Proof.
  intros Hmove Hinv.
  destruct (validateMove_verdict r socketId number) as (v & Hv & Hiff).
  destruct (GameEngine.valid v) eqn:Hvalid.
  - pose proof (makeMove_accepted _ _ _ _ Hv Hvalid) as Hacc. simpl in Hacc.
    apply proj1 in Hiff. destruct (Hiff eq_refl) as (Hplaying & _).
    rewrite Hmove in Hacc.
    destruct (forallb _ _); injection Hacc as _ ->; intros Hmax _; simpl in *;
      (apply Hinv; [done|congruence]).
  - pose proof (makeMove_rejected _ _ _ _ Hv Hvalid) as Hrej.
    rewrite Hmove in Hrej. case_bool_decide; injection Hrej as _ ->;
      intros Hmax Hst; simpl in *; [done|lia].
Qed.

(** Every change keeps a room good. *)
Lemma good_change (r r' : GameRoom) : roomChange r r' → good r → good r'.
Proof.
  intros Hchange [Hplay Hlives]. destruct Hchange as
    [r|r sid host|r p host Hp|r r1 sid n res events Hmove
    |r fuel raw hands events Hgen|r events].
  - done.
  - split; [|done]. intros Hst. destruct (Hplay Hst) as (Hs & Hb & Hnd).
    simpl. split; [done|]. split.
    + intros t h Ht Hh. apply Hb; [done|].
      eapply elem_of_sublist; [exact Hh|]. apply allHands_filter_sublist.
    + eapply sublist_NoDup; [exact Hnd|apply allHands_filter_sublist].
  - split; [|done]. intros Hst. destruct (Hplay Hst) as (Hs & Hb & Hnd).
    simpl. rewrite allHands_app. unfold allHands at 2 4. simpl.
    rewrite Hp, !app_nil_r. done.
  - split.
    + apply (playingInv_move _ _ _ _ _ Hmove) in Hplay. exact Hplay.
    + apply (livesInv_move _ _ _ _ _ Hmove) in Hlives. exact Hlives.
  - destruct (generate_hands_distinct _ _ _ _ _ Hgen) as (Hlen & Hnd & _).
    split.
    + intros _. simpl. rewrite allHands_assign by done.
      split; [constructor|]. split; [|done]. by intros t h ?%elem_of_nil.
    + intros Hmax _. simpl in *. done.
  - split; [done|]. intros Hmax _. simpl in *. done.
Qed.

Lemma good_created (r : GameRoom) : created r → good r.
Proof.
  intros (Hst & Hl & Ht). split.
  - intros Hp. congruence.
  - intros Hmax _. lia.
Qed.

(** A gentle change keeps the pool of a good room. *)
Lemma gentle_pool (r r' : GameRoom) :
  gentleChange r r' → playingInv r → pool r' ≡ₚ pool r.
Proof.
  intros [r0|r0 r1 sid n res events Hmove] Hinv; [done|].
  unfold pool. simpl.
  destruct (validateMove_verdict r0 sid n) as (v & Hv & Hiff).
  destruct (GameEngine.valid v) eqn:Hvalid.
  - pose proof (makeMove_accepted _ _ _ _ Hv Hvalid) as Hacc. simpl in Hacc.
    apply proj1 in Hiff.
    destruct (Hiff eq_refl) as (Hplaying & p & Hfind & Hheld & _).
    destruct (Hinv Hplaying) as (_ & _ & Hnd).
    pose proof (playFrom_perm sid n (players r0) p Hnd Hfind Hheld) as Hperm.
    rewrite Hmove in Hacc.
    destruct (forallb _ _); injection Hacc as _ ->; simpl;
      by rewrite Hperm, <- app_assoc.
  - pose proof (makeMove_rejected _ _ _ _ Hv Hvalid) as Hrej.
    rewrite Hmove in Hrej. by case_bool_decide; injection Hrej as _ ->.
Qed.

Lemma gentle_is_change (r r' : GameRoom) : gentleChange r r' → roomChange r r'.
Proof. intros [r0|r0 r1 sid n res events Hmove]; econstructor; eauto. Qed.

End RoomInvariants.

(** ** The handlers on the store *)

Section HandlersOnStore.

Import RoomService GameEngine Handlers.

Lemma sameSeats_refl (room : GameRoom) : sameSeats room room.
Proof. done. Qed.

Lemma sameSeats_events (room room' : GameRoom) (events : list GameEvent) :
  sameSeats room room' → sameSeats room (set_gameEvents events room').
Proof. done. Qed.

Lemma playFrom_seats (socketId : string) (n : Z) (ps : list Player) :
  p_id <$> playFrom socketId n ps = p_id <$> ps ∧
  username <$> playFrom socketId n ps = username <$> ps.
Proof.
  unfold playFrom. induction ps as [|p ps [IH1 IH2]]; [done|]. simpl.
  case_bool_decide; [done|]. by rewrite !fmap_cons, IH1, IH2.
Qed.

Lemma sameSeats_move (socketId : string) (number : Z) (r r1 : GameRoom)
    (res : MoveResult) :
  makeMove socketId number r = (Returns res, r1) → sameSeats r r1.
Proof.
  intros Hmove.
  destruct (validateMove_returns socketId number r) as (v & Hv).
  destruct (valid v) eqn:Hvalid.
  - pose proof (makeMove_accepted _ _ _ _ Hv Hvalid) as Hacc. simpl in Hacc.
    rewrite Hmove in Hacc.
    destruct (playFrom_seats socketId number (players r)) as [Hids Hnames].
    by destruct (forallb _ _); injection Hacc as _ ->.
  - pose proof (makeMove_rejected _ _ _ _ Hv Hvalid) as Hrej.
    rewrite Hmove in Hrej. by case_bool_decide; injection Hrej as _ ->.
Qed.

Lemma imap_set_numbers_seats (g : nat → list Z) (ps : list Player) :
  p_id <$> imap (λ index player, set_numbers (g index) player) ps = p_id <$> ps ∧
  username <$> imap (λ index player, set_numbers (g index) player) ps =
    username <$> ps.
Proof.
  revert g. induction ps as [|p ps IH]; intros g; [done|].
  rewrite imap_cons, !fmap_cons. simpl.
  destruct (IH (g ∘ S)) as [IH1 IH2]. split; f_equal; [apply IH1|apply IH2].
Qed.

Lemma assignNumbers_seats (hands : list (list Z)) (ps : list Player) :
  p_id <$> assignNumbers hands ps = p_id <$> ps ∧
  username <$> assignNumbers hands ps = username <$> ps.
Proof.
  apply (imap_set_numbers_seats (λ index, default [] (hands !! index))).
Qed.

Lemma sameSeats_dealt (hands : list (list Z)) (r : GameRoom) :
  sameSeats r (dealt hands r).
Proof.
  destruct (assignNumbers_seats hands (players r)) as [Hids Hnames]. done.
Qed.

Lemma sameSeats_reset (r : GameRoom) :
  sameSeats r
    (set_state Lobby
       (set_lives (maxLives r)
          (set_timeline [] (set_players (set_numbers [] <$> players r) r)))).
Proof.
  repeat split; simpl; rewrite <- list_fmap_compose; by apply list_fmap_ext.
Qed.

Lemma getRoom_player_ids (roomId : string) (d : Database) (room : GameRoom) :
  getRoom roomId d = Some room →
  p_id <$> players room = pr_id <$> getPlayers roomId d.
Proof.
  intros (row & _ & ->)%getRoom_Some_inv. simpl. apply players_ids_of_rows.
Qed.

(** Storing a room object that has the seats of the stored room replaces
    that room and no other. *)
Lemma getRoom_after_update (room room' : GameRoom) (roomId' : string)
    (d : Database) :
  wf d → getRoom (r_id room) d = Some room → sameSeats room room' →
  getRoom roomId' (updateRoom room' d) =
    if decide (roomId' = r_id room) then Some room' else getRoom roomId' d.
Proof.
  intros Hwf Hget (Hid & Hids & Hnames & Hmax & Hnpp). case_decide as Heq.
  - subst roomId'. rewrite <- Hid.
    apply (getRoom_updateRoom_same room' room); by rewrite ?Hid.
  - apply getRoom_updateRoom_other; [done| |by rewrite Hid].
    intros p Hp. rewrite Hid, <- (getRoom_player_ids _ _ _ Hget), <- Hids.
    by apply list_elem_of_fmap_2.
Qed.

Lemma set_hostId_same (r : GameRoom) (ps : list Player) :
  set_hostId (hostId r) (set_players ps r) = set_players ps r.
Proof. done. Qed.

Lemma filter_not_seated (socketId : string) (ps : list Player) :
  findPlayer socketId ps = None →
  filter (λ p, p_id p ≠ socketId) ps = ps.
Proof.
  intros Hnone. apply filter_keeps_all, Forall_forall.
  by apply findPlayer_None.
Qed.

Lemma getRoom_is_Some (roomId : string) (d : Database) :
  is_Some (getRoom roomId d) ↔ is_Some (roomsTbl d !! roomId).
Proof. unfold getRoom. by destruct (roomsTbl d !! roomId). Qed.

(** *** [join-room] *)

Lemma onJoinRoom_missing (socketId : string) (data : JoinData) (w : World) :
  getRoom (jd_roomId data) (db w) = None →
  onJoinRoom socketId data w =
    emit (ToSocket socketId) (MsgError "Room not found") w.
Proof. intros Hget. unfold onJoinRoom. by rewrite Hget. Qed.

Lemma onJoinRoom_seated (socketId : string) (data : JoinData) (w : World)
    (room : GameRoom) (p : Player) :
  getRoom (jd_roomId data) (db w) = Some room →
  findPlayer socketId (players room) = Some p →
  onJoinRoom socketId data w =
    emitGameStateIfStarted (ToSocket socketId) room
      (emit (ToRoom (jd_roomId data)) (RoomUpdated room)
         (socketJoin socketId (jd_roomId data) w)).
Proof.
  intros Hget Hfind. unfold onJoinRoom. rewrite Hget, Hfind. cbv zeta.
  rewrite (bool_decide_eq_true_2 (is_Some (Some p))) by eauto.
  by rewrite andb_false_r.
Qed.

Lemma onJoinRoom_refused (socketId : string) (data : JoinData) (w : World)
    (room : GameRoom) :
  getRoom (jd_roomId data) (db w) = Some room →
  findPlayer socketId (players room) = None →
  state room = Playing →
  onJoinRoom socketId data w =
    emit (ToSocket socketId) (MsgError "Cannot join game in progress") w.
Proof.
  intros Hget Hfind Hst. unfold onJoinRoom. rewrite Hget, Hfind. cbv zeta.
  rewrite bool_decide_eq_true_2 by done.
  by rewrite (bool_decide_eq_false_2 (is_Some None)) by (by intros [? ?]).
Qed.

Lemma onJoinRoom_new (socketId : string) (data : JoinData) (w : World)
    (room : GameRoom) :
  getRoom (jd_roomId data) (db w) = Some room →
  findPlayer socketId (players room) = None →
  state room ≠ Playing →
  onJoinRoom socketId data w =
    emitGameStateIfStarted (ToSocket socketId)
      (roomAfterJoin socketId data room)
      (emit (ToRoom (jd_roomId data))
         (RoomUpdated (roomAfterJoin socketId data room))
         (mkWorld (storeAfterJoin socketId data room (db w))
            ({[ (socketId, jd_roomId data) ]} ∪ subs w) (outbox w))).
Proof.
  intros Hget Hfind Hst. unfold onJoinRoom. rewrite Hget, Hfind. cbv zeta.
  rewrite bool_decide_eq_false_2 by done. rewrite andb_false_l.
  rewrite addPlayer_Some
    by (apply getRoom_is_Some; rewrite Hget; eauto).
  unfold storeAfterJoin, roomAfterJoin, hostAfterJoin, newPlayer. simpl.
  by destruct (default false (jd_isHost data) ||
               bool_decide (hostId room = EmptyString)).
Qed.

Lemma storeAfterJoin_spec (socketId : string) (data : JoinData)
    (room : GameRoom) (d : Database) (roomId' : string) :
  wf d →
  getRoom (jd_roomId data) d = Some room →
  findPlayer socketId (players room) = None →
  wf (storeAfterJoin socketId data room d) ∧
  getRoom roomId' (storeAfterJoin socketId data room d) =
    if decide (roomId' = jd_roomId data)
    then Some (roomAfterJoin socketId data room)
    else (λ r, set_players (filter (λ p, p_id p ≠ socketId) (players r)) r)
           <$> getRoom roomId' d.
Proof.
  intros Hwf Hget Hfind.
  pose proof (getRoom_id _ _ _ Hget) as Hid.
  assert (Hsome : is_Some (roomsTbl d !! jd_roomId data))
    by (apply getRoom_is_Some; rewrite Hget; eauto).
  pose proof (addPlayer_Some (jd_roomId data) (newPlayer socketId data) d Hsome)
    as Hadd. simpl in Hadd.
  unfold storeAfterJoin. cbv zeta.
  set (d1 := mkDatabase _ _) in *.
  pose proof (wf_addPlayer _ _ _ _ Hwf Hadd) as Hwf1.
  pose proof (getRoom_addPlayer_same _ _ _ _ _ Hget Hadd) as Hsame.
  simpl in Hsame. rewrite (filter_not_seated _ _ Hfind) in Hsame.
  set (d2 := if default false (jd_isHost data) ||
                  bool_decide (hostId room = EmptyString)
              then setHost (jd_roomId data) socketId d1 else d1).
  assert (Hwf2 : wf d2) by (unfold d2; by destruct (_ || _)).
  assert (Hget2 : getRoom (jd_roomId data) d2 =
                  Some (roomAfterJoin socketId data room)).
  { unfold d2, roomAfterJoin, hostAfterJoin.
    destruct (_ || _); [by rewrite getRoom_setHost_same, Hsame|].
    by rewrite Hsame, set_hostId_same. }
  split; [by apply wf_updateRoom|].
  assert (Hid2 : r_id (roomAfterJoin socketId data room) = jd_roomId data) by done.
  rewrite <- Hid2 in Hget2.
  rewrite (getRoom_after_update _ _ roomId' d2 Hwf2 Hget2 (sameSeats_refl _)).
  rewrite Hid2. case_decide as Hne; [done|].
  assert (getRoom roomId' d2 = getRoom roomId' d1) as ->.
  { unfold d2. destruct (_ || _); [by apply getRoom_setHost_other|done]. }
  by rewrite (getRoom_addPlayer_other _ _ _ _ _ Hne Hadd).
Qed.

End HandlersOnStore.

(** ** Joining *)

Section Joining.

Import RoomService GameEngine Handlers.

Lemma emitGameStateIfStarted_db (t : Target) (room : GameRoom) (w : World) :
  db (emitGameStateIfStarted t room w) = db w ∧
  subs (emitGameStateIfStarted t room w) = subs w ∧
  outbox (emitGameStateIfStarted t room w) =
    outbox w ++ (if bool_decide (state room ≠ Lobby)
                 then [(t, GameStateUpdated (getGameState room))] else []).
Proof.
  unfold emitGameStateIfStarted. case_bool_decide; simpl; [done|].
  by rewrite app_nil_r.
Qed.

(** C8. A join from a connection that already has a seat in the room leaves
    the store as it is (so the player list, the host and every other field
    of the room are unchanged and no seat is added), subscribes the
    connection to the channel, sends the room snapshot to the channel and,
    when the room is not in the lobby, the game-state projection to the
    requester. Serving the same join again does the same. *)
Theorem C8_rejoin_idempotent (socketId : string) (data : JoinData) (w : World)
    (room : GameRoom) (p : Player) :
  getRoom (jd_roomId data) (db w) = Some room →
  findPlayer socketId (players room) = Some p →
  let w' := onJoinRoom socketId data w in
  db w' = db w ∧
  getRoom (jd_roomId data) (db w') = Some room ∧
  subs w' = {[ (socketId, jd_roomId data) ]} ∪ subs w ∧
  outbox w' =
    outbox w ++
    (ToRoom (jd_roomId data), RoomUpdated room) ::
    (if bool_decide (state room ≠ Lobby)
     then [(ToSocket socketId, GameStateUpdated (getGameState room))]
     else []) ∧
  db (onJoinRoom socketId data w') = db w.
Proof.
  intros Hget Hfind w'.
  assert (Hw' : db w' = db w ∧
                subs w' = {[ (socketId, jd_roomId data) ]} ∪ subs w ∧
                outbox w' =
                  outbox w ++
                  (ToRoom (jd_roomId data), RoomUpdated room) ::
                  (if bool_decide (state room ≠ Lobby)
                   then [(ToSocket socketId, GameStateUpdated (getGameState room))]
                   else [])).
  { unfold w'. rewrite (onJoinRoom_seated _ _ _ _ _ Hget Hfind).
    destruct (emitGameStateIfStarted_db (ToSocket socketId) room
                (emit (ToRoom (jd_roomId data)) (RoomUpdated room)
                   (socketJoin socketId (jd_roomId data) w))) as (-> & -> & ->).
    simpl. by rewrite <- app_assoc. }
  destruct Hw' as (Hdb & Hsubs & Hout).
  split; [done|]. split; [by rewrite Hdb|]. split; [done|]. split; [done|].
  assert (Hget' : getRoom (jd_roomId data) (db w') = Some room) by (by rewrite Hdb).
  rewrite (onJoinRoom_seated _ _ _ _ _ Hget' Hfind).
  by destruct (emitGameStateIfStarted_db (ToSocket socketId) room
                 (emit (ToRoom (jd_roomId data)) (RoomUpdated room)
                    (socketJoin socketId (jd_roomId data) w'))) as (-> & _).
Qed.

(** C10. A join from a connection that has no seat in the room: while the
    room is in [playing] it is refused, with an error to the requester alone
    and nothing else changed; in every other state the newcomer is seated
    with an empty hand at the end of the player list, the room is stored and
    its snapshot goes to the channel. *)
Theorem C10_join_by_newcomer (socketId : string) (data : JoinData) (w : World)
    (room : GameRoom) :
  wf (db w) →
  getRoom (jd_roomId data) (db w) = Some room →
  findPlayer socketId (players room) = None →
  let w' := onJoinRoom socketId data w in
  (state room = Playing →
     w' = emit (ToSocket socketId) (MsgError "Cannot join game in progress") w ∧
     db w' = db w) ∧
  (state room ≠ Playing →
     ∃ room', getRoom (jd_roomId data) (db w') = Some room' ∧
       players room' =
         players room ++
         [mkPlayer socketId (nameOrAnonymous (jd_playerName data)) []] ∧
       timeline room' = timeline room ∧ lives room' = lives room ∧
       state room' = state room ∧
       (ToRoom (jd_roomId data), RoomUpdated room') ∈ outbox w' ∧
       ∀ message, w' ≠ emit (ToSocket socketId) (MsgError message) w).
Proof.
  intros Hwf Hget Hfind w'. split.
  - intros Hst. unfold w'. by rewrite (onJoinRoom_refused _ _ _ _ Hget Hfind Hst).
  - intros Hst. exists (roomAfterJoin socketId data room).
    unfold w'. rewrite (onJoinRoom_new _ _ _ _ Hget Hfind Hst).
    match goal with |- context [emitGameStateIfStarted ?t ?r ?w0] =>
      destruct (emitGameStateIfStarted_db t r w0) as (Hdb & _ & Hout) end.
    rewrite Hdb, Hout. simpl.
    destruct (storeAfterJoin_spec socketId data room (db w) (jd_roomId data)
                Hwf Hget Hfind) as [_ Hafter].
    rewrite decide_True in Hafter by done.
    split; [done|]. split; [done|]. split; [done|]. split; [done|].
    split; [done|]. split.
    + rewrite !elem_of_app. left. right. apply list_elem_of_singleton. done.
    + intros message Heq. apply (f_equal outbox) in Heq.
      rewrite Hout in Heq. simpl in Heq. rewrite <- app_assoc in Heq.
      apply app_inv_head in Heq. simpl in Heq. discriminate.
Qed.

End Joining.

(** ** Leaving *)

Section Leaving.

Import RoomService GameEngine Handlers.

Lemma nonempty_room_id (roomId : string) :
  roomId ≠ EmptyString → ∃ c s, roomId = String c s.
Proof. destruct roomId as [|c s]; [done|eauto]. Qed.

Lemma handlePlayerLeave_no_room (socketId : string) (roomId : option string)
    (w : World) :
  noRoomId roomId = true → handlePlayerLeave socketId roomId w = w.
Proof. by destruct roomId as [[|c s]|]. Qed.

Lemma handlePlayerLeave_missing (socketId roomId : string) (w : World) :
  getRoom roomId (db w) = None →
  handlePlayerLeave socketId (Some roomId) w = w.
Proof.
  intros Hget. destruct roomId as [|c s]; [done|]. simpl. by rewrite Hget.
Qed.

Lemma handlePlayerLeave_host_lobby (socketId roomId : string) (w : World)
    (room : GameRoom) :
  roomId ≠ EmptyString →
  getRoom roomId (db w) = Some room →
  hostLeavesLobby socketId room →
  handlePlayerLeave socketId (Some roomId) w =
    withDb (deleteRoom roomId)
      (emit (ToRoom roomId) (RoomDeleted "Host left during lobby")
         (withDb (removePlayer socketId) w)).
Proof.
  intros (c & s & ->)%nonempty_room_id Hget [Hhost Hlobby].
  unfold handlePlayerLeave. rewrite Hget. cbv zeta.
  by rewrite (bool_decide_eq_true_2 _ Hhost), (bool_decide_eq_true_2 _ Hlobby).
Qed.

Lemma handlePlayerLeave_emptied (socketId roomId : string) (w : World)
    (room : GameRoom) :
  roomId ≠ EmptyString →
  getRoom roomId (db w) = Some room →
  ¬ hostLeavesLobby socketId room →
  remaining socketId room = [] →
  handlePlayerLeave socketId (Some roomId) w =
    withDb (deleteRoom roomId) (withDb (removePlayer socketId) w).
Proof.
  intros (c & s & ->)%nonempty_room_id Hget Hnot Hempty.
  unfold handlePlayerLeave. rewrite Hget. cbv zeta.
  unfold remaining in Hempty. simpl. rewrite Hempty. simpl.
  destruct (bool_decide (hostId room = socketId)) eqn:Hh;
    destruct (bool_decide (state room = Lobby)) eqn:Hl; simpl; try done.
  apply bool_decide_eq_true in Hh, Hl. by destruct Hnot.
Qed.

Lemma handlePlayerLeave_survives (socketId roomId : string) (w : World)
    (room : GameRoom) :
  roomId ≠ EmptyString →
  getRoom roomId (db w) = Some room →
  ¬ hostLeavesLobby socketId room →
  remaining socketId room ≠ [] →
  handlePlayerLeave socketId (Some roomId) w =
    emitGameStateIfStarted (ToRoom roomId) (roomAfterLeave socketId room)
      (emit (ToRoom roomId) (RoomUpdated (roomAfterLeave socketId room))
         (withDb (λ d, storeAfterLeave socketId roomId room d) w)).
Proof.
  intros (c & s & ->)%nonempty_room_id Hget Hnot Hrem.
  unfold handlePlayerLeave. rewrite Hget. cbv zeta.
  unfold storeAfterLeave, roomAfterLeave, hostAfterLeave, remaining in *.
  simpl.
  destruct (filter _ (players room)) as [|first rest] eqn:Hf; [done|]. simpl.
  destruct (bool_decide (hostId room = socketId)) eqn:Hh; simpl.
  - destruct (bool_decide (state room = Lobby)) eqn:Hl; simpl.
    { apply bool_decide_eq_true in Hh, Hl. by destruct Hnot. }
    done.
  - done.
Qed.

Lemma storeAfterLeave_spec (socketId roomId : string) (room : GameRoom)
    (d : Database) (roomId' : string) :
  wf d →
  getRoom roomId d = Some room →
  wf (storeAfterLeave socketId roomId room d) ∧
  getRoom roomId' (storeAfterLeave socketId roomId room d) =
    if decide (roomId' = roomId) then Some (roomAfterLeave socketId room)
    else (λ r, set_players (filter (λ p, p_id p ≠ socketId) (players r)) r)
           <$> getRoom roomId' d.
Proof.
  intros Hwf Hget. pose proof (getRoom_id _ _ _ Hget) as Hid.
  unfold storeAfterLeave. cbv zeta.
  set (d1 := removePlayer socketId d).
  assert (Hwf1 : wf d1) by (by apply wf_removePlayer).
  assert (Hget1 : ∀ rid, getRoom rid d1 =
            (λ r, set_players (filter (λ p, p_id p ≠ socketId) (players r)) r)
              <$> getRoom rid d) by (intros; apply getRoom_removePlayer).
  set (d2 := if bool_decide (hostId room = socketId)
             then setHost roomId (hostAfterLeave socketId room) d1 else d1).
  assert (Hwf2 : wf d2) by (unfold d2; by destruct (bool_decide _)).
  assert (Hget2 : getRoom roomId d2 = Some (roomAfterLeave socketId room)).
  { unfold d2, roomAfterLeave. destruct (bool_decide _) eqn:Hh.
    - by rewrite getRoom_setHost_same, Hget1, Hget.
    - rewrite Hget1, Hget. simpl. unfold hostAfterLeave. rewrite Hh.
      by rewrite set_hostId_same. }
  split; [by apply wf_updateRoom|].
  assert (Hid2 : r_id (roomAfterLeave socketId room) = roomId) by done.
  rewrite <- Hid2 in Hget2.
  rewrite (getRoom_after_update _ _ roomId' d2 Hwf2 Hget2 (sameSeats_refl _)).
  rewrite Hid2. case_decide as Hne; [done|].
  rewrite <- Hget1. unfold d2.
  destruct (bool_decide _); [by apply getRoom_setHost_other|done].
Qed.

Lemma remaining_unseats (socketId : string) (room : GameRoom) :
  socketId ∉ p_id <$> remaining socketId room.
Proof.
  intros (p & -> & Hp)%list_elem_of_fmap.
  by apply list_elem_of_filter in Hp as [Hne _].
Qed.

(** The [leave-room] path does what C7 asks of every departure. For a room
    in which the connection has a seat: the connection leaves the channel
    and its player is removed. If it was the host and the room was in the
    lobby, the room is destroyed and [room-deleted] goes to the channel.
    Otherwise the room is destroyed when nobody stays; else it survives with
    the players that stay, in join order, every other field unchanged,
    except that when the host left, the first player that stays becomes the
    host. *)
Theorem leave_room_removes_player (socketId roomId : string) (w : World)
    (room : GameRoom) (p : Player) :
  wf (db w) →
  roomId ≠ EmptyString →
  getRoom roomId (db w) = Some room →
  findPlayer socketId (players room) = Some p →
  let w' := onLeaveRoom socketId roomId w in
  ((socketId, roomId) ∉ subs w') ∧
  (hostLeavesLobby socketId room →
     getRoom roomId (db w') = None ∧
     outbox w' = outbox w ++
       [(ToRoom roomId, RoomDeleted "Host left during lobby");
        (ToSocket socketId, LeftRoom)]) ∧
  (¬ hostLeavesLobby socketId room →
     (remaining socketId room = [] → getRoom roomId (db w') = None) ∧
     (remaining socketId room ≠ [] →
        ∃ room',
          getRoom roomId (db w') = Some room' ∧
          players room' = remaining socketId room ∧
          (socketId ∉ p_id <$> players room') ∧
          (hostId room ≠ socketId → hostId room' = hostId room) ∧
          (hostId room = socketId →
             Some (hostId room') = p_id <$> head (remaining socketId room)) ∧
          timeline room' = timeline room ∧ lives room' = lives room ∧
          state room' = state room ∧ gameEvents room' = gameEvents room ∧
          (ToRoom roomId, RoomUpdated room') ∈ outbox w')).
Proof.
  intros Hwf Hne Hget Hfind w'.
  set (w0 := socketLeave socketId roomId w).
  assert (Hget0 : getRoom roomId (db w0) = Some room) by done.
  split; [|split].
  - assert (Hsubs : subs w' = subs w0).
    { unfold w', onLeaveRoom. cbv zeta. fold w0.
      destruct (decide (hostLeavesLobby socketId room)) as [Hhl|Hhl].
      - by rewrite (handlePlayerLeave_host_lobby _ _ _ _ Hne Hget0 Hhl).
      - destruct (remaining socketId room) as [|q qs] eqn:Hrem.
        + by rewrite (handlePlayerLeave_emptied _ _ _ _ Hne Hget0 Hhl Hrem).
        + rewrite (handlePlayerLeave_survives _ _ _ _ Hne Hget0 Hhl)
            by (by rewrite Hrem).
          change (subs (emit ?t ?m ?x)) with (subs x).
          by match goal with |- context [emitGameStateIfStarted ?t ?r ?x] =>
            destruct (emitGameStateIfStarted_db t r x) as (_ & -> & _) end. }
    rewrite Hsubs. unfold w0. simpl. intros Hin.
    apply elem_of_difference in Hin as [_ Hin]. apply Hin.
    by apply elem_of_singleton.
  - intros Hhl. unfold w', onLeaveRoom. cbv zeta. fold w0.
    rewrite (handlePlayerLeave_host_lobby _ _ _ _ Hne Hget0 Hhl). simpl.
    split; [apply getRoom_deleteRoom_same|by rewrite <- app_assoc].
  - intros Hhl. unfold w', onLeaveRoom. cbv zeta. fold w0. split.
    + intros Hrem.
      rewrite (handlePlayerLeave_emptied _ _ _ _ Hne Hget0 Hhl Hrem). simpl.
      apply getRoom_deleteRoom_same.
    + intros Hrem.
      rewrite (handlePlayerLeave_survives _ _ _ _ Hne Hget0 Hhl Hrem).
      exists (roomAfterLeave socketId room).
      change (db (emit ?t ?m ?x)) with (db x).
      change (outbox (emit ?t ?m ?x)) with (outbox x ++ [(t, m)]).
      match goal with |- context [emitGameStateIfStarted ?t ?r ?x] =>
        destruct (emitGameStateIfStarted_db t r x) as (Hdb & _ & Hout) end.
      rewrite Hdb, Hout. simpl.
      destruct (storeAfterLeave_spec socketId roomId room (db w) roomId Hwf Hget)
        as [_ Hafter].
      rewrite decide_True in Hafter by done.
      split; [done|]. split; [done|].
      split; [apply remaining_unseats|].
      unfold hostAfterLeave.
      split; [intros Hh; by rewrite bool_decide_eq_false_2|].
      split.
      { intros Hh. rewrite bool_decide_eq_true_2 by done.
        by destruct (remaining socketId room). }
      repeat (split; [done|]).
      rewrite !elem_of_app. left. left. right. by apply list_elem_of_singleton.
Qed.

(** The [disconnect] path: [handlePlayerLeave] gets no room id, and returns
    under its comment "Find room if not provided" without looking for one.
    Nothing is read, stored or sent. *)
Lemma onDisconnect_skips (socketId : string) (w : World) :
  onDisconnect socketId w = w.
Proof. reflexivity. Qed.

End Leaving.

(** ** Starting, playing and resetting *)

Section Starting.

Import RoomService GameEngine Handlers.

#[local] Instance startAllowed_dec (socketId : string) (room : GameRoom) :
  Decision (startAllowed socketId room).
Proof. unfold startAllowed. apply _. Defined.

Lemma onStartGame_refused (env : Env) (socketId roomId : string) (w : World) :
  (getRoom roomId (db w) = None ∨
   ∃ room, getRoom roomId (db w) = Some room ∧ ¬ startAllowed socketId room) →
  ∃ message,
    onStartGame env socketId roomId w =
      Some (emit (ToSocket socketId) (MsgError message) w).
Proof.
  unfold onStartGame. intros [->|(room & -> & Hnot)]; [eauto|].
  case_bool_decide as Hhost; [eauto|].
  case_bool_decide as Hcount; [eauto|]. cbv zeta.
  case_bool_decide as Hcap; [eauto|].
  destruct Hnot. unfold startAllowed. repeat split; [done|lia|lia].
Qed.

Lemma dealFor_no_throw (env : Env) (room : GameRoom) (e : string) :
  Z.of_nat (length (players room)) * numbersPerPlayer room ≤ 100 →
  dealFor env room ≠ Throws e.
Proof.
  intros Hcap. unfold dealFor, generateAllPlayerNumbers. simpl.
  rewrite bool_decide_eq_false_2 by lia.
  destruct (sampleLoop _ _ _ _ _ _ _) as [[all c]|]; [|done].
  by destruct (shuffleLoop _ _ _ _).
Qed.

Lemma onStartGame_allowed (env : Env) (socketId roomId : string) (w : World)
    (room : GameRoom) :
  getRoom roomId (db w) = Some room →
  startAllowed socketId room →
  match dealFor env room with
  | Returns hands =>
      ∃ events,
        let room' := set_gameEvents events (dealt hands room) in
        onStartGame env socketId roomId w =
          Some (emit (ToRoom roomId) (GameStateUpdated (getGameState room'))
                  (emit (ToRoom roomId) (RoomUpdated room')
                     (withDb (updateRoom room') w)))
  | Throws _ => False
  | Unfinished => onStartGame env socketId roomId w = None
  end.
Proof.
  intros Hget (Hhost & Hcount & Hcap).
  pose proof (startGameBody_run env room) as Hbody. fold (dealFor env room) in Hbody.
  pose proof (dealFor_no_throw env room) as Hthrow.
  unfold onStartGame. rewrite Hget.
  rewrite bool_decide_eq_false_2 by (by intros ?).
  rewrite bool_decide_eq_false_2 by lia. cbv zeta.
  rewrite bool_decide_eq_false_2 by lia.
  destruct (dealFor env room) as [hands|e|].
  - destruct Hbody as [events ->]. by exists events.
  - by destruct (Hthrow e Hcap).
  - by rewrite Hbody.
Qed.

(** C6, counterexample. The host sends [start-game] while the room is in
    [playing]: no error, the game starts again with a fresh deal, an empty
    timeline and all lives. *)
Lemma C6_counterexample_restart :
  state <$> getRoom "ROOM01" (db midGameWorld) = Some Playing ∧
  (getRoom "ROOM01" ∘ db) <$> onStartGame demoEnv "s1" "ROOM01" midGameWorld =
    Some (Some (mkGameRoom "ROOM01"
                  [mkPlayer "s1" "ann" [2; 3]; mkPlayer "s2" "bob" [1; 4]]
                  [] 3 3 2 Playing "s1"
                  [mkGameEvent "ev" GameStarted
                     (DataMessage "Game started! Work together to play all numbers in ascending order. No communication allowed!")
                     1700000000000])).
Proof. split; vm_compute; reflexivity. Qed.

Lemma assignNumbers_hands (hands : list (list Z)) (ps : list Player) :
  length hands = length ps → numbers <$> assignNumbers hands ps = hands.
Proof.
  intros Hlen. unfold assignNumbers. rewrite fmap_imap.
  apply list_eq. intros i. rewrite list_lookup_imap.
  destruct (hands !! i) as [h|] eqn:Hh.
  - destruct (lookup_lt_is_Some_2 ps i) as [q Hq];
      [rewrite <- Hlen; by eapply lookup_lt_Some|].
    by rewrite Hq.
  - rewrite lookup_ge_None_2; [done|].
    rewrite <- Hlen. by apply lookup_ge_None.
Qed.

(** A start that goes through stores the dealt room and tells the channel. *)
Lemma onStartGame_started (env : Env) (socketId roomId : string) (w w' : World)
    (room : GameRoom) :
  wf (db w) →
  getRoom roomId (db w) = Some room →
  startAllowed socketId room →
  onStartGame env socketId roomId w = Some w' →
  ∃ hands room',
    dealFor env room = Returns hands ∧
    getRoom roomId (db w') = Some room' ∧
    numbers <$> players room' = hands ∧
    p_id <$> players room' = p_id <$> players room ∧
    timeline room' = [] ∧
    lives room' = maxLives room ∧
    state room' = Playing ∧
    hostId room' = hostId room ∧
    outbox w' = outbox w ++
      [(ToRoom roomId, RoomUpdated room');
       (ToRoom roomId, GameStateUpdated (getGameState room'))].
Proof.
  intros Hwf Hget Hok Hw'.
  pose proof (onStartGame_allowed env socketId roomId w room Hget Hok) as Hrun.
  pose proof (getRoom_id _ _ _ Hget) as Hid.
  destruct (dealFor env room) as [hands|e|] eqn:Hdeal; [|done|congruence].
  destruct Hrun as [events Hrun]. cbv zeta in Hrun.
  rewrite Hrun in Hw'. injection Hw' as <-.
  exists hands, (set_gameEvents events (dealt hands room)).
  split; [done|]. simpl.
  assert (Hseats : sameSeats room (set_gameEvents events (dealt hands room)))
    by apply sameSeats_dealt.
  rewrite <- Hid in Hget.
  pose proof (getRoom_after_update _ _ roomId (db w) Hwf Hget Hseats) as Hafter.
  rewrite decide_True in Hafter by done.
  split; [done|].
  destruct (generate_hands_distinct _ _ _ _ _ Hdeal) as (Hlen & _).
  split; [by apply assignNumbers_hands|].
  split; [apply assignNumbers_seats|].
  repeat (split; [done|]). by rewrite <- app_assoc.
Qed.

(** C6 (amended). [start-game] deals, clears the timeline, restores the
    lives and sets the state to [playing] only if the requester is the host
    of the room, at least two players are seated and
    [players.length * numbersPerPlayer <= 100]; the state of the room is not
    looked at. When the room is missing or one of these three conditions
    fails, an error goes to the requesting connection alone and the store is
    unchanged. When they hold, the handler never reports an error; it
    returns as soon as the deal does, and then the stored room is the dealt
    one and its snapshot goes to the channel. *)
Theorem C6_start_game (env : Env) (socketId roomId : string) (w : World) :
  wf (db w) →
  ((getRoom roomId (db w) = None ∨
    ∃ room, getRoom roomId (db w) = Some room ∧ ¬ startAllowed socketId room) →
   ∃ message,
     onStartGame env socketId roomId w =
       Some (emit (ToSocket socketId) (MsgError message) w)) ∧
  (∀ w', onStartGame env socketId roomId w = Some w' → db w' ≠ db w →
     ∃ room, getRoom roomId (db w) = Some room ∧ startAllowed socketId room) ∧
  (∀ room, getRoom roomId (db w) = Some room → startAllowed socketId room →
     (is_Some (onStartGame env socketId roomId w) ↔
        ∃ hands, dealFor env room = Returns hands) ∧
     ∀ w', onStartGame env socketId roomId w = Some w' →
       ∃ hands room',
         dealFor env room = Returns hands ∧
         getRoom roomId (db w') = Some room' ∧
         numbers <$> players room' = hands ∧
         p_id <$> players room' = p_id <$> players room ∧
         timeline room' = [] ∧
         lives room' = maxLives room ∧
         state room' = Playing ∧
         hostId room' = hostId room ∧
         outbox w' = outbox w ++
           [(ToRoom roomId, RoomUpdated room');
            (ToRoom roomId, GameStateUpdated (getGameState room'))]).
Proof.
  intros Hwf. split; [apply onStartGame_refused|]. split.
  - intros w' Hstart Hdb.
    destruct (getRoom roomId (db w)) as [room|] eqn:Hget.
    + destruct (decide (startAllowed socketId room)) as [Hok|Hnot]; [eauto|].
      destruct (onStartGame_refused env socketId roomId w) as [m Hm].
      { right. eauto. }
      rewrite Hm in Hstart. injection Hstart as <-. by destruct Hdb.
    + destruct (onStartGame_refused env socketId roomId w) as [m Hm];
        [by left|].
      rewrite Hm in Hstart. injection Hstart as <-. by destruct Hdb.
  - intros room Hget Hok. split; [|intros w'; by apply onStartGame_started].
    pose proof (onStartGame_allowed env socketId roomId w room Hget Hok) as Hrun.
    destruct (dealFor env room) as [hands|e|] eqn:Hdeal; [|done|].
    + destruct Hrun as [events ->]. split; eauto.
    + rewrite Hrun. split; by intros [? ?].
Qed.

(** C6, witness: a guest asks for the start and gets the error. *)
Lemma C6_start_game_witness :
  ∃ message,
    onStartGame demoEnv "s2" "ROOM01" lobbyWorld =
      Some (emit (ToSocket "s2") (MsgError message) lobbyWorld).
Proof.
  apply (C6_start_game demoEnv "s2" "ROOM01" lobbyWorld).
  - unfold wf. apply (bool_decide_unpack _). vm_compute. exact I.
  - right. eexists. split; [vm_compute; reflexivity|].
    intros [Hhost _]. vm_compute in Hhost. discriminate.
Defined.

End Starting.

(** ** Every request refines the room transition system *)

Section Refinement.

Import RoomService GameEngine Handlers.

Lemma onPlayNumber_db (env : Env) (socketId roomId : string) (number : Z)
    (w : World) :
  db (onPlayNumber env socketId roomId number w) = db w ∨
  ∃ room res room1 events,
    getRoom roomId (db w) = Some room ∧
    makeMove socketId number room = (Returns res, room1) ∧
    db (onPlayNumber env socketId roomId number w) =
      updateRoom (set_gameEvents events room1) (db w).
Proof.
  unfold onPlayNumber. destruct (getRoom roomId (db w)) as [room|] eqn:Hget;
    [|by left].
  right. destruct (playNumberBody_run env socketId number room)
    as (res & room1 & events & Hmove & Hbody).
  exists room, res, room1, events. split; [done|]. split; [done|].
  unfold exec. by rewrite Hbody.
Qed.

Lemma onResetGame_db (env : Env) (socketId roomId : string) (w : World) :
  db (onResetGame env socketId roomId w) = db w ∨
  ∃ room events,
    getRoom roomId (db w) = Some room ∧
    db (onResetGame env socketId roomId w) =
      updateRoom
        (set_gameEvents events
           (set_state Lobby
              (set_lives (maxLives room)
                 (set_timeline []
                    (set_players (set_numbers [] <$> players room) room)))))
        (db w).
Proof.
  unfold onResetGame. destruct (getRoom roomId (db w)) as [room|] eqn:Hget;
    [|by left].
  case_bool_decide; [by left|]. right.
  destruct (resetGameBody_run env room) as (events & Hbody).
  exists room, events. split; [done|]. unfold exec. by rewrite Hbody.
Qed.

Lemma postRoom_db (code : string) (b : Routes.CreateBody) (d : Database) :
  fst (Routes.postRoom code b d) = d ∨
  ∃ maxL npp,
    roomsTbl d !! code = None ∧
    fst (Routes.postRoom code b d) =
      mkDatabase (<[code := mkRoomRow maxL npp maxL Lobby EmptyString [] []]>
                    (roomsTbl d)) (playersTbl d).
Proof.
  unfold Routes.postRoom, Routes.postRoomTry.
  set (maxL := default 3 (Routes.body_maxLives b)).
  set (npp := default 6 (Routes.body_numbersPerPlayer b)).
  destruct (bool_decide (maxL < 1) || bool_decide (maxL > 10));
    destruct (bool_decide (npp < 1) || bool_decide (npp > 20)); simpl;
    try (by left);
    unfold createRoom; (destruct (roomsTbl d !! code) eqn:Hcode;
      [by left|right; exists maxL, npp; by split]).
Qed.

Lemma refines_same (req : Request) (roomId : string) (r : GameRoom) :
  roomRefines req roomId (Some r) r.
Proof. split; [constructor|split; [intros _; constructor|intros _; lia]]. Qed.

Lemma makeMove_lives (socketId : string) (number : Z) (r r1 : GameRoom)
    (res : MoveResult) :
  makeMove socketId number r = (Returns res, r1) →
  lives r - 2 ≤ lives r1 ≤ lives r ∧
  (lives r1 ≠ lives r → lives r1 ≤ 0 → state r1 = GameOver).
Proof.
  intros Hmove.
  pose proof (decrement_le (lives r)) as Hdown.
  pose proof (decrement_ge (lives r)) as Hup.
  destruct (validateMove_returns socketId number r) as (v & Hv).
  destruct (valid v) eqn:Hvalid.
  - pose proof (makeMove_accepted _ _ _ _ Hv Hvalid) as Hacc. simpl in Hacc.
    rewrite Hmove in Hacc.
    destruct (forallb _ _); injection Hacc as _ ->; simpl; lia.
  - pose proof (makeMove_rejected _ _ _ _ Hv Hvalid) as Hrej.
    rewrite Hmove in Hrej.
    case_bool_decide; injection Hrej as _ ->; simpl; (split; [lia|]);
      [done|lia].
Qed.

Lemma refines_unchanged (req : Request) (roomId : string) (d d' : Database)
    (r' : GameRoom) :
  getRoom roomId d' = getRoom roomId d → getRoom roomId d' = Some r' →
  roomRefines req roomId (getRoom roomId d) r'.
Proof. intros <- ->. apply refines_same. Qed.

Lemma refines_evict (req : Request) (roomId socketId : string) (d d' : Database)
    (r' : GameRoom) :
  ¬ quiet roomId req →
  getRoom roomId d' =
    (λ r, set_players (filter (λ p, p_id p ≠ socketId) (players r)) r)
      <$> getRoom roomId d →
  getRoom roomId d' = Some r' →
  roomRefines req roomId (getRoom roomId d) r'.
Proof.
  intros Hloud -> Hget. destruct (getRoom roomId d) as [r|]; [|done].
  injection Hget as <-. split; [|split; [done|intros _; simpl; lia]].
  rewrite <- (set_hostId_same r). apply change_evict.
Qed.

#[local] Ltac store_unchanged :=
  split; [done|];
  let H := fresh "Hsame" in
  intros ? ? H; cbn [db emit socketJoin socketLeave] in H;
  rewrite H; apply refines_same.

(** Serving a request keeps the primary key, and changes every stored room
    by one of the room transitions; a room that was not there before is a
    newly created one. *)
Lemma serve_refines (req : Request) (w w' : World) :
  wf (db w) → serve req w = Some w' →
  wf (db w') ∧
  ∀ roomId r', getRoom roomId (db w') = Some r' →
    roomRefines req roomId (getRoom roomId (db w)) r'.
Proof.
  intros Hwf Hserve. destruct req as
    [code b|sid data|env sid rid|env sid rid n|env sid rid|sid rid|sid];
    simpl in Hserve.
  - (* create *)
    injection Hserve as <-. simpl.
    destruct (postRoom_db code b (db w)) as [->|(maxL & npp & Hnone & ->)];
      [store_unchanged|].
    split; [done|]. intros roomId r' Hget.
    unfold getRoom in *. simpl in *.
    destruct (decide (roomId = code)) as [->|Hne].
    + rewrite lookup_insert_eq in Hget. rewrite Hnone. injection Hget as <-. done.
    + rewrite lookup_insert_ne in Hget by done.
      destruct (roomsTbl (db w) !! roomId); [|done].
      injection Hget as <-. apply refines_same.
  - (* join *)
    injection Hserve as <-.
    destruct (getRoom (jd_roomId data) (db w)) as [room|] eqn:Hget;
      [|rewrite (onJoinRoom_missing _ _ _ Hget);
        store_unchanged].
    destruct (findPlayer sid (players room)) as [p|] eqn:Hfind.
    { rewrite (onJoinRoom_seated _ _ _ _ _ Hget Hfind).
      match goal with |- context [emitGameStateIfStarted ?t ?r ?x] =>
        destruct (emitGameStateIfStarted_db t r x) as (-> & _) end.
      store_unchanged. }
    destruct (decide (state room = Playing)) as [Hst|Hst].
    { rewrite (onJoinRoom_refused _ _ _ _ Hget Hfind Hst).
      store_unchanged. }
    rewrite (onJoinRoom_new _ _ _ _ Hget Hfind Hst).
    match goal with |- context [emitGameStateIfStarted ?t ?r ?x] =>
      destruct (emitGameStateIfStarted_db t r x) as (-> & _) end.
    simpl. split.
    + by apply (storeAfterJoin_spec sid data room (db w) EmptyString).
    + intros roomId r' Hget'.
      destruct (storeAfterJoin_spec sid data room (db w) roomId Hwf Hget Hfind)
        as [_ Hafter].
      case_decide as Heq.
      * subst roomId. rewrite Hget. rewrite Hafter in Hget'.
        injection Hget' as <-.
        split; [by apply change_seat|split; [done|intros _; simpl; lia]].
      * by apply (refines_evict (JoinRoom sid data) roomId sid _ _ _
                    (λ H, H) Hafter).
  - (* start *)
    destruct (getRoom rid (db w)) as [room|] eqn:Hget.
    2:{ destruct (onStartGame_refused env sid rid w) as [m Hm]; [by left|].
        rewrite Hm in Hserve. injection Hserve as <-.
        store_unchanged. }
    destruct (decide (startAllowed sid room)) as [Hok|Hnot].
    2:{ destruct (onStartGame_refused env sid rid w) as [m Hm]; [right; eauto|].
        rewrite Hm in Hserve. injection Hserve as <-.
        store_unchanged. }
    pose proof (onStartGame_allowed env sid rid w room Hget Hok) as Hrun.
    destruct (dealFor env room) as [hands|e|] eqn:Hdeal; [|done|congruence].
    destruct Hrun as [events Hrun]. cbv zeta in Hrun.
    rewrite Hrun in Hserve. injection Hserve as <-. simpl.
    split; [by apply wf_updateRoom|]. intros roomId r' Hget'.
    pose proof (getRoom_id _ _ _ Hget) as Hid. rewrite <- Hid in Hget.
    rewrite (getRoom_after_update room _ roomId (db w) Hwf Hget
               (sameSeats_events _ _ events (sameSeats_dealt hands room)))
      in Hget'.
    case_decide as Heq.
    + subst roomId. rewrite Hget. injection Hget' as <-.
      split; [by eapply change_start|]. simpl. rewrite Hid.
      split; [done|]. intros Hnot. by destruct Hnot.
    + rewrite Hget'. apply refines_same.
  - (* play *)
    injection Hserve as <-.
    destruct (onPlayNumber_db env sid rid n w)
      as [->|(room & res & room1 & events & Hget & Hmove & ->)];
      [store_unchanged|].
    split; [by apply wf_updateRoom|]. intros roomId r' Hget'.
    pose proof (getRoom_id _ _ _ Hget) as Hid. rewrite <- Hid in Hget.
    rewrite (getRoom_after_update room _ roomId (db w) Hwf Hget
               (sameSeats_events _ _ events (sameSeats_move _ _ _ _ _ Hmove)))
      in Hget'.
    case_decide as Heq.
    + subst roomId. rewrite Hget. injection Hget' as <-.
      split; [by eapply change_move|].
      split; [intros _; by eapply gentle_move|]. intros _. simpl.
      by destruct (makeMove_lives _ _ _ _ _ Hmove) as [[_ ?] _].
    + rewrite Hget'. apply refines_same.
  - (* reset *)
    injection Hserve as <-.
    destruct (onResetGame_db env sid rid w)
      as [->|(room & events & Hget & ->)];
      [store_unchanged|].
    split; [by apply wf_updateRoom|]. intros roomId r' Hget'.
    pose proof (getRoom_id _ _ _ Hget) as Hid. rewrite <- Hid in Hget.
    rewrite (getRoom_after_update room _ roomId (db w) Hwf Hget
               (sameSeats_events _ _ events (sameSeats_reset room))) in Hget'.
    case_decide as Heq.
    + subst roomId. rewrite Hget. injection Hget' as <-.
      split; [by apply change_reset|]. simpl. rewrite Hid.
      split; [done|]. intros Hnot. by destruct Hnot.
    + rewrite Hget'. apply refines_same.
  - (* leave *)
    injection Hserve as <-. unfold onLeaveRoom. cbv zeta.
    change (db (emit ?t ?m ?x)) with (db x).
    set (w0 := socketLeave sid rid w).
    destruct (decide (rid = EmptyString)) as [->|Hne];
      [rewrite (handlePlayerLeave_no_room sid (Some EmptyString) w0 eq_refl);
       subst w0; store_unchanged|].
    destruct (getRoom rid (db w)) as [room|] eqn:Hget;
      [|rewrite (handlePlayerLeave_missing _ _ w0 Hget);
        subst w0; store_unchanged].
    assert (Hget0 : getRoom rid (db w0) = Some room) by done.
    assert (Hdeleted : ∀ x, db x = db w →
              wf (db (withDb (deleteRoom rid) (withDb (removePlayer sid) x))) ∧
              ∀ roomId r',
                getRoom roomId
                  (db (withDb (deleteRoom rid) (withDb (removePlayer sid) x))) =
                  Some r' →
                roomRefines (LeaveRoom sid rid) roomId (getRoom roomId (db w)) r').
    { intros x Hx. simpl. rewrite Hx. split.
      - by apply wf_deleteRoom, wf_removePlayer.
      - intros roomId r' Hget'. destruct (decide (roomId = rid)) as [->|Hneq].
        + by rewrite getRoom_deleteRoom_same in Hget'.
        + rewrite getRoom_deleteRoom_other in Hget' by done.
          apply (refines_evict (LeaveRoom sid rid) roomId sid _
                   (removePlayer sid (db w)) _ (λ H, H));
            [apply getRoom_removePlayer|done]. }
    destruct (decide (hostLeavesLobby sid room)) as [Hhl|Hhl].
    { rewrite (handlePlayerLeave_host_lobby _ _ _ _ Hne Hget0 Hhl).
      apply (Hdeleted (emit (ToRoom rid) (RoomDeleted "Host left during lobby") w0)).
      done. }
    destruct (remaining sid room) as [|q qs] eqn:Hrem.
    { rewrite (handlePlayerLeave_emptied _ _ _ _ Hne Hget0 Hhl Hrem).
      by apply (Hdeleted w0). }
    rewrite (handlePlayerLeave_survives _ _ _ _ Hne Hget0 Hhl)
      by (by rewrite Hrem).
    match goal with |- context [emitGameStateIfStarted ?t ?r ?x] =>
      destruct (emitGameStateIfStarted_db t r x) as (-> & _) end.
    simpl. split.
    + by apply (storeAfterLeave_spec sid rid room (db w) EmptyString).
    + intros roomId r' Hget'.
      destruct (storeAfterLeave_spec sid rid room (db w) roomId Hwf Hget)
        as [_ Hafter].
      case_decide as Heq.
      * subst roomId. rewrite Hget. rewrite Hafter in Hget'.
        injection Hget' as <-.
        split; [apply change_evict|split; [done|intros _; simpl; lia]].
      * by apply (refines_evict (LeaveRoom sid rid) roomId sid _ _ _
                    (λ H, H) Hafter).
  - (* disconnect *)
    injection Hserve as <-. change (onDisconnect sid w) with w.
    store_unchanged.
Qed.

End Refinement.

(** ** Invariants of the reachable worlds *)

Section Reachability.

Import RoomService GameEngine Handlers.

Lemma worldGood_serve (req : Request) (w w' : World) :
  worldGood w → serve req w = Some w' → worldGood w'.
Proof.
  intros [Hwf Hgood] Hserve.
  destruct (serve_refines req w w' Hwf Hserve) as [Hwf' Href].
  split; [done|]. intros roomId r' Hget'.
  specialize (Href roomId r' Hget'). unfold roomRefines in Href.
  destruct (getRoom roomId (db w)) as [r|] eqn:Hget.
  - destruct Href as [Hchange _]. eapply good_change; eauto.
  - by apply good_created.
Qed.

Lemma reachable_good (w : World) : reachable w → worldGood w.
Proof.
  induction 1 as [|req w w' _ IH Hserve].
  - split; [apply NoDup_nil_2|]. intros roomId room Hget. by vm_compute in Hget.
  - by eapply worldGood_serve.
Qed.

Lemma serveAll_reachable (reqs : list Request) (w w' : World) :
  reachable w → serveAll reqs w = Some w' → reachable w'.
Proof.
  revert w. induction reqs as [|req reqs IH]; intros w Hw; simpl.
  - by intros [= <-].
  - destruct (serve req w) as [w1|] eqn:Hserve; [|done].
    apply IH. by eapply reachable_serve.
Qed.

Lemma updateRoom_keeps_rooms (room : GameRoom) (d : Database) (roomId : string) :
  is_Some (roomsTbl d !! roomId) →
  is_Some (roomsTbl (updateRoom room d) !! roomId).
Proof.
  unfold updateRoom. simpl. intros [row Hrow].
  destruct (decide (r_id room = roomId)) as [<-|Hne].
  - rewrite lookup_alter_eq, Hrow. simpl. eauto.
  - rewrite lookup_alter_ne by done. eauto.
Qed.

(** A quiet request destroys no room. *)
Lemma serve_keeps_room (req : Request) (w w' : World) (roomId : string) :
  quiet roomId req → serve req w = Some w' →
  is_Some (getRoom roomId (db w)) → is_Some (getRoom roomId (db w')).
Proof.
  rewrite !getRoom_is_Some. intros Hquiet Hserve Hsome.
  destruct req as
    [code b|sid data|env sid rid|env sid rid n|env sid rid|sid rid|sid];
    simpl in Hserve, Hquiet; try done.
  - injection Hserve as <-. simpl.
    destruct (postRoom_db code b (db w)) as [->|(maxL & npp & Hnone & ->)];
      [done|]. simpl.
    destruct (decide (code = roomId)) as [->|Hne].
    + rewrite lookup_insert_eq. eauto.
    + by rewrite lookup_insert_ne.
  - destruct (getRoom rid (db w)) as [room|] eqn:Hget.
    2:{ destruct (onStartGame_refused env sid rid w) as [m Hm]; [by left|].
        rewrite Hm in Hserve. by injection Hserve as <-. }
    destruct (decide (startAllowed sid room)) as [Hok|Hnot].
    2:{ destruct (onStartGame_refused env sid rid w) as [m Hm]; [right; eauto|].
        rewrite Hm in Hserve. by injection Hserve as <-. }
    pose proof (onStartGame_allowed env sid rid w room Hget Hok) as Hrun.
    destruct (dealFor env room) as [hands|e|] eqn:Hdeal; [|done|congruence].
    destruct Hrun as [events Hrun]. cbv zeta in Hrun.
    rewrite Hrun in Hserve. injection Hserve as <-. cbn [db emit withDb].
    by apply updateRoom_keeps_rooms.
  - injection Hserve as <-.
    destruct (onPlayNumber_db env sid rid n w)
      as [->|(room & res & room1 & events & Hget & Hmove & ->)]; [done|].
    by apply updateRoom_keeps_rooms.
  - injection Hserve as <-.
    destruct (onResetGame_db env sid rid w)
      as [->|(room & events & Hget & ->)]; [done|].
    by apply updateRoom_keeps_rooms.
  - by injection Hserve as <-.
Qed.

(** Quiet requests keep the pool of the room. *)
Lemma quiet_run (reqs : list Request) (w w' : World) (roomId : string)
    (r : GameRoom) :
  worldGood w → Forall (quiet roomId) reqs → serveAll reqs w = Some w' →
  getRoom roomId (db w) = Some r →
  ∃ r', getRoom roomId (db w') = Some r' ∧ pool r' ≡ₚ pool r.
Proof.
  revert w r. induction reqs as [|req reqs IH]; intros w r Hgood Hquiet; simpl.
  - intros [= <-] Hget. eauto.
  - apply Forall_cons in Hquiet as [Hq Hquiet].
    destruct (serve req w) as [w1|] eqn:Hserve; [|done].
    intros Hrun Hget.
    destruct (serve_keeps_room req w w1 roomId Hq Hserve) as [r1 Hget1];
      [rewrite Hget; eauto|].
    destruct Hgood as [Hwf Hgood].
    destruct (serve_refines req w w1 Hwf Hserve) as [_ Href].
    specialize (Href roomId r1 Hget1). rewrite Hget in Href.
    destruct Href as (_ & Hgentle & _).
    pose proof (gentle_pool r r1 (Hgentle Hq) (proj1 (Hgood _ _ Hget))) as Hpool.
    destruct (IH w1 r1) as (r' & Hget' & Hpool'); try done.
    { by eapply worldGood_serve. }
    exists r'. split; [done|]. by rewrite Hpool'.
Qed.

Lemma allHands_join (ps : list Player) : allHands ps = mjoin (numbers <$> ps).
Proof.
  induction ps as [|p ps IH]; [done|]. by rewrite allHands_cons, IH.
Qed.

End Reachability.

(** ** The timeline and the lives over whole runs *)

Section Runs.

Import RoomService GameEngine Handlers.

Lemma strictly_sorted_nodup (l : list Z) : StronglySorted Z.lt l → NoDup l.
Proof.
  induction 1 as [|x l Hl IH Hx]; [apply NoDup_nil_2|].
  apply NoDup_cons. split; [|done].
  intros Hin. rewrite Forall_forall in Hx. specialize (Hx x Hin). lia.
Qed.

(** C1, counterexample. After the deal [[2;3]] and [[1;4]], the second
    player leaves: the room stays in [playing] with an empty timeline, while
    the dealt numbers 1 and 4 are held by nobody. *)
Lemma C1_counterexample_after_leave :
  reachable demoLeftWorld ∧
  dealFor demoEnv demoLobbyRoom = Returns [[2; 3]; [1; 4]] ∧
  onStartGame demoEnv "s1" "ROOM01" demoLobbyWorld = Some demoStartedWorld ∧
  serve (LeaveRoom "s2" "ROOM01") demoStartedWorld = Some demoLeftWorld ∧
  getRoom "ROOM01" (db demoLeftWorld) = Some demoLeftRoom ∧
  (state demoLeftRoom, timeline demoLeftRoom, players demoLeftRoom) =
    (Playing, [], [mkPlayer "s1" "ann" [2; 3]]) ∧
  ¬ timelineIsDealtMinusHeld [[2; 3]; [1; 4]] demoLeftRoom.
Proof.
  split.
  { apply (serveAll_reachable
             (demoSetup 3 ++ [StartGame demoEnv "s1" "ROOM01";
                              LeaveRoom "s2" "ROOM01"]) emptyWorld);
      [constructor|vm_compute; reflexivity]. }
  do 5 (split; [vm_compute; reflexivity|]).
  intros Hclaim. destruct (Hclaim 1) as [_ Hback].
  assert (Hin : 1 ∈ timeline demoLeftRoom).
  { apply Hback. vm_compute. split.
    - do 2 right. left.
    - intros Hheld. by repeat (apply elem_of_cons in Hheld as [?|Hheld];
                                [discriminate|]); apply elem_of_nil in Hheld. }
  vm_compute in Hin. by apply elem_of_nil in Hin.
Qed.

(** C1 (amended). In every reachable world, a room in [playing] has a
    timeline without duplicates that goes strictly up, and every number on
    it is below every number still held. From a start that dealt [hands],
    as long as the requests served since are quiet for the room (moves in
    any room, and nobody joining, leaving or restarting), the timeline of
    the room in [playing] is, as a set, the dealt numbers minus the numbers
    still held. *)
Theorem C1_timeline_while_playing :
  (∀ w roomId room,
     reachable w → getRoom roomId (db w) = Some room → state room = Playing →
     NoDup (timeline room) ∧
     StronglySorted Z.lt (timeline room) ∧
     (∀ t h, t ∈ timeline room → h ∈ allHands (players room) → t < h)) ∧
  (∀ w0 env socketId roomId room0 w1 reqs w2 room2,
     reachable w0 →
     getRoom roomId (db w0) = Some room0 →
     startAllowed socketId room0 →
     onStartGame env socketId roomId w0 = Some w1 →
     Forall (quiet roomId) reqs →
     serveAll reqs w1 = Some w2 →
     getRoom roomId (db w2) = Some room2 →
     state room2 = Playing →
     ∃ hands, dealFor env room0 = Returns hands ∧
              timelineIsDealtMinusHeld hands room2).
Proof.
  split.
  - intros w roomId room Hreach Hget Hst.
    destruct (reachable_good w Hreach) as [_ Hgood].
    destruct (Hgood _ _ Hget) as [Hplay _].
    destruct (Hplay Hst) as (Hsorted & Hbelow & _).
    split; [by apply strictly_sorted_nodup|done].
  - intros w0 env sid roomId room0 w1 reqs w2 room2
      Hreach Hget0 Hok Hstart Hquiet Hrun Hget2 Hst2.
    destruct (reachable_good w0 Hreach) as [Hwf0 Hgood0].
    destruct (onStartGame_started env sid roomId w0 w1 room0 Hwf0 Hget0 Hok Hstart)
      as (hands & room1 & Hdeal & Hget1 & Hhands & _ & Htl1 & _).
    exists hands. split; [done|].
    assert (Hreach1 : reachable w1)
      by (by apply (reachable_serve (StartGame env sid roomId) w0 w1)).
    assert (Hreach2 : reachable w2) by (by eapply serveAll_reachable).
    destruct (quiet_run reqs w1 w2 roomId room1 (reachable_good _ Hreach1)
                Hquiet Hrun Hget1) as (room2' & Hget2' & Hpool).
    rewrite Hget2 in Hget2'. injection Hget2' as <-.
    unfold pool in Hpool. rewrite Htl1, app_nil_l, (allHands_join (players room1)),
      Hhands in Hpool.
    destruct (reachable_good w2 Hreach2) as [_ Hgood2].
    destruct (Hgood2 _ _ Hget2) as [Hplay2 _].
    destruct (Hplay2 Hst2) as (_ & Hbelow & _).
    intros x. rewrite <- Hpool, elem_of_app. split.
    + intros Hx. split; [by left|]. intros Hheld.
      specialize (Hbelow x x Hx Hheld). lia.
    + intros [[Hx|Hx] Hnot]; [done|by destruct Hnot].
Qed.

Lemma demoLobby_reachable : reachable demoLobbyWorld.
Proof.
  apply (serveAll_reachable (demoSetup 3) emptyWorld); [constructor|].
  vm_compute. reflexivity.
Qed.

(** C1, witness: the deal [[2;3]], [[1;4]], then the second player plays 1
    and the first one tries 3. *)
Lemma C1_timeline_while_playing_witness :
  ∃ hands, dealFor demoEnv demoLobbyRoom = Returns hands ∧
           timelineIsDealtMinusHeld hands demoPlayedRoom.
Proof.
  apply (proj2 C1_timeline_while_playing demoLobbyWorld demoEnv "s1" "ROOM01"
           demoLobbyRoom demoStartedWorld demoPlays demoPlayedWorld
           demoPlayedRoom).
  - apply demoLobby_reachable.
  - vm_compute. reflexivity.
  - split; [reflexivity|]. split; [simpl; lia|simpl; lia].
  - vm_compute. reflexivity.
  - repeat constructor.
  - vm_compute. reflexivity.
  - vm_compute. reflexivity.
  - vm_compute. reflexivity.
Defined.

(** C4, counterexample. In a room with one life, a rejected move ends the
    game with 0 lives and the next rejected move leaves -1. In a room with
    three lives, a [start-game] sent by the host during the game takes the
    lives from 2 back to 3 while the state is [playing] before and after. *)
Lemma C4_counterexample_lives :
  (λ room, (state room, lives room)) <$>
    (serveAll (demoSetup 1 ++ [StartGame demoEnv "s1" "ROOM01";
                               PlayNumber demoEnv "s1" "ROOM01" 99;
                               PlayNumber demoEnv "s1" "ROOM01" 99]) emptyWorld
       ≫= λ w, getRoom "ROOM01" (db w)) = Some (GameOver, -1) ∧
  (λ room, (state room, lives room)) <$>
    (serveAll (demoSetup 3 ++ [StartGame demoEnv "s1" "ROOM01";
                               PlayNumber demoEnv "s1" "ROOM01" 99]) emptyWorld
       ≫= λ w, getRoom "ROOM01" (db w)) = Some (Playing, 2) ∧
  (λ room, (state room, lives room)) <$>
    (serveAll (demoSetup 3 ++ [StartGame demoEnv "s1" "ROOM01";
                               PlayNumber demoEnv "s1" "ROOM01" 99;
                               StartGame demoEnv "s1" "ROOM01"]) emptyWorld
       ≫= λ w, getRoom "ROOM01" (db w)) = Some (Playing, 3).
Proof. repeat split; vm_compute; reflexivity. Qed.

(** A request leaves the lives of a room where they were or below, or
    sets them to [maxLives]. *)
Lemma roomChange_lives (r r' : GameRoom) :
  roomChange r r' → lives r' ≤ lives r ∨ lives r' = maxLives r.
Proof.
  intros [r0|r0 sid host|r0 p host Hp|r0 r1 sid n res events Hmove
         |r0 fuel raw hands events Hgen|r0 events]; simpl;
    [left; lia|left; lia|left; lia| |by right|by right].
  left. by destruct (makeMove_lives _ _ _ _ _ Hmove) as [[_ ?] _].
Qed.

Lemma demoFirstPlay_reachable : reachable demoFirstPlayWorld.
Proof.
  apply (serveAll_reachable
           (demoSetup 3 ++ [StartGame demoEnv "s1" "ROOM01";
                            PlayNumber demoEnv "s2" "ROOM01" 1]) emptyWorld);
    [constructor|vm_compute; reflexivity].
Qed.

Lemma demoPlayed_reachable : reachable demoPlayedWorld.
Proof.
  apply (serveAll_reachable
           (demoSetup 3 ++ StartGame demoEnv "s1" "ROOM01" :: demoPlays)
           emptyWorld);
    [constructor|vm_compute; reflexivity].
Qed.

(** C4 (amended). A [makeMove] never raises the lives, takes at most one
    of them while they are in the range in which the doubles count exactly
    ([-2^53 < lives <= 2^53]), and when it changes them to 0 or below, the
    state it leaves is [game-over]. Over the requests of the server, the
    lives of a stored room after a request are at most what they were, or
    they are the [maxLives] of the room; they never go up except by a
    [start-game] or a [reset-game] for that room. In every reachable world,
    a room configured with [maxLives] above 0 has its lives above 0 in
    every state but [game-over], in particular while it is in [playing]. *)
Theorem C4_lives :
  (∀ socketId number r res r1,
     makeMove socketId number r = (Returns res, r1) →
     lives r1 ≤ lives r ∧
     (exactRange (lives r) → lives r - 1 ≤ lives r1) ∧
     (lives r1 ≠ lives r → lives r1 ≤ 0 → state r1 = GameOver)) ∧
  (∀ req w w' roomId r r',
     reachable w → serve req w = Some w' →
     getRoom roomId (db w) = Some r → getRoom roomId (db w') = Some r' →
     (lives r' ≤ lives r ∨ lives r' = maxLives r) ∧
     (¬ restarts roomId req → lives r' ≤ lives r)) ∧
  (∀ w roomId r,
     reachable w → getRoom roomId (db w) = Some r →
     0 < maxLives r → state r ≠ GameOver → 0 < lives r).
Proof.
  split; [|split].
  - intros sid n r res r1 Hmove.
    destruct (makeMove_lives _ _ _ _ _ Hmove) as [[_ Hle] Hover].
    split; [done|]. split; [|done]. intros Hexact.
    destruct (validateMove_returns sid n r) as (v & Hv).
    destruct (valid v) eqn:Hvalid.
    + pose proof (makeMove_accepted _ _ _ _ Hv Hvalid) as Hacc.
      simpl in Hacc. rewrite Hmove in Hacc.
      destruct (forallb _ _); injection Hacc as _ ->; simpl; lia.
    + pose proof (makeMove_rejected _ _ _ _ Hv Hvalid) as Hrej.
      rewrite Hmove in Hrej. rewrite (decrement_exact _ Hexact) in Hrej.
      case_bool_decide; injection Hrej as _ ->; simpl; lia.
  - intros req w w' roomId r r' Hreach Hserve Hget Hget'.
    destruct (reachable_good w Hreach) as [Hwf _].
    destruct (serve_refines req w w' Hwf Hserve) as [_ Href].
    specialize (Href roomId r' Hget'). rewrite Hget in Href.
    destruct Href as (Hchange & _ & Hlives).
    split; [by apply roomChange_lives|done].
  - intros w roomId r Hreach Hget Hmax Hst.
    destruct (reachable_good w Hreach) as [_ Hgood].
    destruct (Hgood _ _ Hget) as [_ Hlives].
    assert (Hone : 1 ≤ maxLives r) by lia.
    specialize (Hlives Hone Hst). lia.
Qed.

(** C4, witness: after the deal [[2;3]], [[1;4]] and the move of 1, the
    first player tries 3 while 2 is expected. The move is rejected: the
    lives of the stored room go from 3 to 2, and the room, still in
    [playing], has lives left. *)
Lemma C4_lives_witness :
  lives demoFirstPlayRoom = 3 ∧
  lives demoPlayedRoom = 2 ∧
  state demoPlayedRoom = Playing ∧
  lives demoPlayedRoom ≤ lives demoFirstPlayRoom ∧
  0 < lives demoPlayedRoom.
Proof.
  split; [vm_compute; reflexivity|]. split; [vm_compute; reflexivity|].
  split; [vm_compute; reflexivity|]. split.
  - apply (proj1 (proj2 C4_lives) (PlayNumber demoEnv "s1" "ROOM01" 3)
             demoFirstPlayWorld demoPlayedWorld "ROOM01").
    + apply demoFirstPlay_reachable.
    + vm_compute. reflexivity.
    + vm_compute. reflexivity.
    + vm_compute. reflexivity.
    + intros [].
  - apply (proj2 (proj2 C4_lives) demoPlayedWorld "ROOM01" demoPlayedRoom).
    + apply demoPlayed_reachable.
    + vm_compute. reflexivity.
    + vm_compute. reflexivity.
    + vm_compute. discriminate.
Defined.

End Runs.

(** ** Creating a room *)

Section Creating.

Import Routes.

(** Exactly one of the two bounds violated: the 400 goes out and the room
    is created all the same. *)
Lemma postRoom_creates_after_400 (code : string) (b : CreateBody) (d : Database) :
  let maxL := default 3 (body_maxLives b) in
  let npp := default 6 (body_numbersPerPlayer b) in
  roomsTbl d !! code = None →
  (maxL < 1 ∨ 10 < maxL) ∧ 1 ≤ npp ≤ 20 ∨
  1 ≤ maxL ≤ 10 ∧ (npp < 1 ∨ 20 < npp) →
  ∃ message,
    snd (postRoom code b d) = Some (mkHttpResponse 400 (BodyError message)) ∧
    roomsTbl (fst (postRoom code b d)) !! code =
      Some (mkRoomRow maxL npp maxL Lobby EmptyString [] []).
Proof.
  intros maxL npp Hnone Hbad. unfold postRoom, postRoomTry.
  fold maxL npp. unfold RoomService.createRoom. rewrite Hnone.
  destruct Hbad as [[Hm Hn]|[Hm Hn]].
  - assert (bool_decide (maxL < 1) || bool_decide (maxL > 10) = true) as ->.
    { apply orb_true_iff. rewrite !bool_decide_eq_true. lia. }
    assert (bool_decide (npp < 1) || bool_decide (npp > 20) = false) as ->.
    { apply orb_false_iff. rewrite !bool_decide_eq_false. lia. }
    simpl. eexists. split; [done|]. by rewrite lookup_insert_eq.
  - assert (bool_decide (maxL < 1) || bool_decide (maxL > 10) = false) as ->.
    { apply orb_false_iff. rewrite !bool_decide_eq_false. lia. }
    assert (bool_decide (npp < 1) || bool_decide (npp > 20) = true) as ->.
    { apply orb_true_iff. rewrite !bool_decide_eq_true. lia. }
    simpl. eexists. split; [done|]. by rewrite lookup_insert_eq.
Qed.

(** C9, the code at the failing input: [maxLives = 0] on an empty store.
    The client is answered 400, and the room is in the store. *)
Theorem C9_room_created_despite_rejection :
  postRoom "ROOM01" (mkCreateBody (Some 0) None) (mkDatabase ∅ []) =
    (mkDatabase {[ "ROOM01" := mkRoomRow 0 6 0 Lobby EmptyString [] [] ]} [],
     Some (mkHttpResponse 400 (BodyError "Max lives must be between 1 and 10"))).
Proof. vm_compute. reflexivity. Qed.

End Creating.

(** ** Instances on a concrete store *)

Section Instances.

Import RoomService GameEngine Handlers.

Lemma lobbyWorld_wf : wf (db lobbyWorld).
Proof. unfold wf. apply (bool_decide_unpack _). vm_compute. exact I. Qed.

Lemma midGameWorld_wf : wf (db midGameWorld).
Proof. unfold wf. apply (bool_decide_unpack _). vm_compute. exact I. Qed.

(** C8, witness: the host of the lobby joins again. *)
Lemma C8_rejoin_idempotent_witness :
  db (onJoinRoom "s1" (mkJoinData "ROOM01" (Some "ann") (Some true)) lobbyWorld) =
  db lobbyWorld.
Proof.
  apply (C8_rejoin_idempotent "s1" (mkJoinData "ROOM01" (Some "ann") (Some true))
           lobbyWorld demoLobbyRoom (mkPlayer "s1" "ann" [])).
  - vm_compute. reflexivity.
  - vm_compute. reflexivity.
Defined.

(** C10, witness: a third connection tries to join the game in progress. *)
Lemma C10_join_by_newcomer_witness :
  onJoinRoom "s3" (mkJoinData "ROOM01" (Some "cid") None) midGameWorld =
    emit (ToSocket "s3") (MsgError "Cannot join game in progress") midGameWorld ∧
  db (onJoinRoom "s3" (mkJoinData "ROOM01" (Some "cid") None) midGameWorld) =
    db midGameWorld.
Proof.
  apply (C10_join_by_newcomer "s3" (mkJoinData "ROOM01" (Some "cid") None)
           midGameWorld midGameRoom).
  - apply midGameWorld_wf.
  - vm_compute. reflexivity.
  - vm_compute. reflexivity.
  - reflexivity.
Defined.

(** The guest leaves the lobby by [leave-room]. *)
Lemma leave_room_removes_player_witness :
  ("s2", "ROOM01") ∉ subs (onLeaveRoom "s2" "ROOM01" lobbyWorld).
Proof.
  apply (leave_room_removes_player "s2" "ROOM01" lobbyWorld demoLobbyRoom
           (mkPlayer "s2" "bob" [])).
  - apply lobbyWorld_wf.
  - discriminate.
  - vm_compute. reflexivity.
  - vm_compute. reflexivity.
Defined.

(** C7, at the failing input. The host of a lobby with two guests loses its
    connection. C7 asks that the player is removed, the room destroyed and
    [room-deleted] sent to the guests; [disconnect] changes nothing: the
    host keeps its seat, the room stays and nothing is sent. *)
Lemma C7_disconnect_keeps_seat :
  serveAll (demoSetup 3 ++
            [JoinRoom "s3" (mkJoinData "ROOM01" (Some "cid") None)])
    emptyWorld = Some demoFullLobby ∧
  (λ room, (state room, hostId room, p_id <$> players room)) <$>
    getRoom "ROOM01" (db demoFullLobby) =
    Some (Lobby, "s1", ["s1"; "s2"; "s3"]) ∧
  serve (Disconnect "s1") demoFullLobby = Some demoFullLobby.
Proof. repeat split; vm_compute; reflexivity. Qed.

End Instances.

(** * Further properties of the engine *)

Section EngineViews.

Lemma find_head_filter (l : list Z) (tl : list Z) :
  List.find (λ num, negb (includes num tl)) l =
  head (filter (λ n, n ∉ tl) l).
Proof.
  induction l as [|x l IH]; [done|]. simpl. unfold includes at 1.
  rewrite filter_cons. case_bool_decide as Hx; simpl.
  - by rewrite decide_False by (intros Hn; by apply Hn).
  - by rewrite decide_True.
Qed.

Lemma StronglySorted_filter (P : Z → Prop) `{∀ x, Decision (P x)}
    (l : list Z) :
  StronglySorted Z.le l → StronglySorted Z.le (filter P l).
Proof.
  induction 1 as [|x l Hl IH Hx]; [constructor|].
  rewrite filter_cons. destruct (decide (P x)); [|done].
  constructor; [done|].
  apply Forall_forall. intros y Hy%list_elem_of_filter.
  rewrite Forall_forall in Hx. apply Hx, Hy.
Qed.

(** X1. [getGameState] lists the numbers that are still to be played in
    ascending order: they are the held numbers that are not on the
    timeline, and the first of them is the number [getNextExpectedNumber]
    returns; when none is left, that call returns -1. *)
Theorem getGameState_remaining (room : GameRoom) :
  let view := getGameState room in
  StronglySorted Z.le (gs_remainingNumbers view) ∧
  (∀ n, n ∈ gs_remainingNumbers view ↔
        n ∈ allHands (players room) ∧ n ∉ timeline room) ∧
  getNextExpectedNumber room =
    (Returns (default (-1) (head (gs_remainingNumbers view))), room).
Proof.
  simpl. split; [|split].
  - apply StronglySorted_filter, sortAsc_sorted.
  - intros n. rewrite list_elem_of_filter, sortAsc_elem. tauto.
  - unfold getNextExpectedNumber, bind, getRoomObj, ret.
    rewrite find_head_filter.
    by destruct (head _).
Qed.



(** At a half, the rounding of the quotient and of its product with 100
    decides: 23 of 40 are 57.5 percent and shown as 57 (the product is the
    double just below 57.5), 1 of 8 is 12.5 percent and shown as 13. *)
Lemma roundPercent_at_a_half :
  roundPercent 23 40 = 57 ∧ roundPercent 46 80 = 57 ∧ roundPercent 1 8 = 13.
Proof. repeat split; vm_compute; reflexivity. Qed.


End EngineViews.

Section EngineEvents.

(** X3. [addGameEvent] always returns, puts the new event last and keeps
    the 50 newest events: the list grows by one up to 50 entries and stays
    at 50 from then on, the oldest being dropped. Nothing else in the room
    changes. *)
Theorem addGameEvent_keeps_newest (id : string) (type : EventType)
    (data : EventData) (timestamp : Z) (room : GameRoom) :
  let ev := mkGameEvent id type data timestamp in
  let room' := exec (addGameEvent id type data timestamp) room in
  addGameEvent id type data timestamp room = (Returns tt, room') ∧
  room' = set_gameEvents (gameEvents room') room ∧
  last (gameEvents room') = Some ev ∧
  gameEvents room' `suffix_of` gameEvents room ++ [ev] ∧
  length (gameEvents room') = (S (length (gameEvents room)) `min` 50)%nat.
Proof.
  intros ev room'. unfold room', exec, addGameEvent, bind, modify, getRoomObj.
  cbn [fst snd gameEvents set_gameEvents]. fold ev.
  case_bool_decide as Hlen; cbn [fst snd gameEvents set_gameEvents ret].
  - split; [done|]. split; [done|].
    set (l := gameEvents room ++ [ev]) in *.
    split; [|split].
    + unfold l. rewrite length_app in *. simpl in *.
      rewrite drop_app_le by lia. apply last_snoc.
    + apply suffix_drop.
    + rewrite length_drop. unfold l in *. rewrite length_app in *. simpl in *.
      lia.
  - split; [done|]. split; [done|]. split; [apply last_snoc|].
    split; [done|]. rewrite length_app in *. simpl in *. lia.
Qed.

End EngineEvents.

Section EngineReset.

Lemma reset_after_assign (hands : list (list Z)) (ps : list Player) :
  set_numbers [] <$> assignNumbers hands ps = set_numbers [] <$> ps.
Proof.
  unfold assignNumbers. rewrite fmap_imap.
  rewrite <- (imap_const (set_numbers []) ps). by apply imap_ext.
Qed.

Lemma reset_after_play (playerId : string) (n : Z) (ps : list Player) :
  set_numbers [] <$> playFrom playerId n ps = set_numbers [] <$> ps.
Proof.
  unfold playFrom. induction ps as [|p ps IH]; [done|]. cbn [update_first].
  case_bool_decide; rewrite !fmap_cons; [done|]. by rewrite IH.
Qed.

Lemma reset_fresh (ps : list Player) :
  allHandsEmpty ps → set_numbers [] <$> ps = ps.
Proof.
  intros He. rewrite <- (list_fmap_id ps) at 2. apply list_fmap_ext.
  intros i p Hp. apply list_elem_of_lookup_2 in Hp.
  destruct p as [i0 u ns]. unfold set_numbers. simpl.
  by rewrite <- (He _ Hp).
Qed.

Lemma resetGame_absorbs (r r' : GameRoom) :
  engineStep r r' → exec resetGame r' = exec resetGame r.
Proof.
  unfold exec. intros Hstep. rewrite !resetGame_run. simpl.
  destruct Hstep as [fuel raw r|playerId number r|id type data ts r|r].
  - unfold exec. pose proof (initializeGame_run fuel raw r) as Hrun.
    destruct (generateAllPlayerNumbers _ _ _ _) as [hands|e|];
      rewrite Hrun; simpl; [|done..].
    by rewrite reset_after_assign.
  - unfold exec.
    destruct (validateMove_verdict r playerId number) as (v & Hv & _).
    destruct (valid v) eqn:Hvalid.
    + rewrite (makeMove_accepted _ _ _ _ Hv Hvalid). cbv zeta.
      destruct (forallb _ _); simpl; by rewrite reset_after_play.
    + rewrite (makeMove_rejected _ _ _ _ Hv Hvalid).
      by destruct (bool_decide _).
  - unfold exec.
    destruct (addGameEvent_run id type data ts r) as (events & ->). done.
  - unfold exec. rewrite resetGame_run. simpl.
    by rewrite <- list_fmap_compose.
Qed.

(** X4. [resetGame] undoes whatever the engine did since the players sat
    down: from a room as it is in the lobby (all lives, nothing played or
    held, no events), after any sequence of deals, moves, events and
    resets, one [resetGame] gives back exactly that room, with the same
    seats in the same order, the same host and the same configuration. *)
Theorem resetGame_restores_lobby (room0 room : GameRoom) :
  lobbyFresh room0 →
  rtc engineStep room0 room →
  resetGame room = (Returns tt, room0).
Proof.
  intros (Hst & Hl & Htl & Hev & Hh) Hrun.
  assert (Habs : exec resetGame room = exec resetGame room0).
  { clear -Hrun. induction Hrun as [|r1 r2 r3 Hstep _ IH]; [done|].
    by rewrite IH, (resetGame_absorbs _ _ Hstep). }
  rewrite resetGame_run. f_equal.
  unfold exec in Habs. rewrite !resetGame_run in Habs. simpl in Habs.
  rewrite Habs. rewrite reset_fresh by done.
  destruct room0; simpl in *. by subst.
Qed.

Lemma resetGame_restores_lobby_witness :
  resetGame
    (exec (makeMove "s2" 1)
       (exec (initializeGame 8 countingSource) demoLobbyRoom)) =
  (Returns tt, demoLobbyRoom).
Proof.
  apply resetGame_restores_lobby.
  - repeat split. intros p Hp.
    repeat (apply elem_of_cons in Hp as [->|Hp]; [done|]).
    by apply elem_of_nil in Hp.
  - eapply rtc_l; [apply (step_initialize 8 countingSource)|].
    eapply rtc_l; [apply (step_move "s2" 1)|]. apply rtc_refl.
Defined.

End EngineReset.

Section ValidMoves.

Lemma accepted_iff (playerId : string) (number : Z) (room : GameRoom) :
  accepted playerId number room = true ↔
  state room = Playing ∧
  ∃ player, findPlayer playerId (players room) = Some player ∧
            number ∈ numbers player ∧ (number ∉ timeline room) ∧
            leastUnplayed room number.
Proof.
  unfold accepted.
  destruct (validateMove_verdict room playerId number) as (v & -> & Hv).
  done.
Qed.

Lemma hand_owner (ps : list Player) (P Q : Player) (n : Z) :
  NoDup (allHands ps) → P ∈ ps → Q ∈ ps →
  n ∈ numbers P → n ∈ numbers Q → P = Q.
Proof.
  unfold allHands. induction ps as [|a ps IH]; [by intros _ ?%elem_of_nil|].
  rewrite bind_cons. intros (Ha & Hapart & Hps)%NoDup_app.
  intros [->|HP]%elem_of_cons [->|HQ]%elem_of_cons HnP HnQ.
  - done.
  - destruct (Hapart n HnP). apply elem_of_allHands. by exists Q.
  - destruct (Hapart n HnQ). apply elem_of_allHands. by exists P.
  - by apply IH.
Qed.

Lemma findPlayer_own (ps : list Player) (P : Player) :
  NoDup (p_id <$> ps) → P ∈ ps → findPlayer (p_id P) ps = Some P.
Proof.
  unfold findPlayer. induction ps as [|a ps IH]; [by intros _ ?%elem_of_nil|].
  rewrite fmap_cons. intros [Ha Hps]%NoDup_cons [->|HP]%elem_of_cons; simpl.
  - by rewrite bool_decide_eq_true_2.
  - rewrite bool_decide_eq_false_2; [by apply IH|].
    intros Heq. apply Ha. rewrite Heq. by apply list_elem_of_fmap_2.
Qed.

(** X5. At most one move is valid at a time, and while a held number is
    still to be played there is one. In a room where no number is held
    twice, two moves that [validateMove] accepts are the same move, by the
    same player; in a room in play (seats with different ids) that has an
    unplayed number, some move is accepted. *)
Theorem valid_move_unique (room : GameRoom) :
  NoDup (allHands (players room)) →
  (∀ p n q m, accepted p n room = true → accepted q m room = true →
              p = q ∧ n = m) ∧
  (inPlay room → allHands (players room) ≠ [] →
   ∃ p n, accepted p n room = true).
Proof.
  intros Hnd. split.
  - intros p n q m (_ & P & HP & HnP & _ & Hn)%accepted_iff
                   (_ & Q & HQ & HmQ & _ & Hm)%accepted_iff.
    pose proof (leastUnplayed_unique _ _ _ Hn Hm) as <-.
    split; [|done].
    apply findPlayer_Some in HP as [HP <-], HQ as [HQ <-].
    by rewrite (hand_owner (players room) P Q n).
  - intros (Hst & Hids & _ & Hfree) Hne.
    destruct (getNextExpectedNumber_spec room) as (e & _ & [He|[_ Hall]]).
    + pose proof He as (Hin & Hout & _).
      apply elem_of_allHands in Hin as (P & HP & HeP).
      exists (p_id P), e. apply accepted_iff. split; [done|].
      exists P. by rewrite findPlayer_own.
    + destruct (allHands (players room)) as [|h hs] eqn:Hh; [done|].
      assert (Hin : h ∈ h :: hs) by left.
      destruct (Hfree h Hin (Hall h Hin)).
Qed.

Lemma valid_move_unique_witness :
  ∃ p n, accepted p n midGameRoom = true.
Proof.
  apply (valid_move_unique midGameRoom).
  - apply (bool_decide_unpack _). vm_compute. exact I.
  - split; [reflexivity|]. split; [|split].
    + apply (bool_decide_unpack _). vm_compute. exact I.
    + apply (bool_decide_unpack _). vm_compute. exact I.
    + apply Forall_forall. apply (bool_decide_unpack _). vm_compute. exact I.
  - discriminate.
Defined.

End ValidMoves.

Section PlayingInOrder.

Lemma allHands_nil (ps : list Player) :
  allHands ps = [] ↔ allHandsEmpty ps.
Proof.
  unfold allHands, allHandsEmpty. induction ps as [|a ps IH].
  - split; [by intros _ p ?%elem_of_nil|done].
  - rewrite bind_cons. split.
    + intros [Ha Hps]%app_eq_nil p [->|Hp]%elem_of_cons; [done|].
      by apply IH.
    + intros Hall. rewrite (Hall a) by left. simpl. apply IH.
      intros p Hp. apply Hall. by right.
Qed.

Lemma holderOf_elem (e : Z) (ps : list Player) :
  e ∈ allHands ps →
  ∃ P, holderOf e ps = Some P ∧ P ∈ ps ∧ e ∈ numbers P.
Proof.
  unfold holderOf, allHands. induction ps as [|a ps IH];
    [by intros ?%elem_of_nil|].
  rewrite bind_cons. intros Hin. simpl. unfold includes at 1.
  case_bool_decide as Ha.
  - exists a. split; [done|]. split; [left|done].
  - apply elem_of_app in Hin as [Hin|Hin]; [done|].
    destruct (IH Hin) as (P & HP & HPin & He).
    exists P. split; [done|]. split; [by right|done].
Qed.

Lemma sortAsc_least (e : Z) (l l' : list Z) :
  l ≡ₚ e :: l' → (∀ x, x ∈ l' → e ≤ x) → sortAsc l = e :: sortAsc l'.
Proof.
  intros Hperm Hle. apply (StronglySorted_unique Z.le).
  - apply sortAsc_sorted.
  - constructor; [apply sortAsc_sorted|].
    apply Forall_forall. intros x Hx. apply Hle.
    by apply (proj1 (sortAsc_elem x l')).
  - by rewrite !sortAsc_perm.
Qed.

Lemma nextMove_inPlay (room : GameRoom) :
  inPlay room → allHands (players room) ≠ [] →
  ∃ P e, nextMove room = Some (p_id P, e) ∧ leastUnplayed room e ∧
         findPlayer (p_id P) (players room) = Some P ∧ e ∈ numbers P.
Proof.
  intros (Hst & Hids & Hnd & Hfree) Hne. unfold nextMove.
  destruct (getNextExpectedNumber_spec room) as (e & -> & [He|[_ Hall]]).
  - pose proof He as (Hin & _).
    destruct (holderOf_elem _ _ Hin) as (P & -> & HP & HeP).
    exists P, e. by rewrite findPlayer_own.
  - destruct (allHands (players room)) as [|h hs] eqn:Hh; [done|].
    assert (Hin : h ∈ h :: hs) by left.
    destruct (Hfree h Hin (Hall h Hin)).
Qed.

Lemma move_inPlay (room : GameRoom) (P : Player) (e : Z) :
  inPlay room → leastUnplayed room e →
  findPlayer (p_id P) (players room) = Some P → e ∈ numbers P →
  let ps1 := playFrom (p_id P) e (players room) in
  let room1 := exec (makeMove (p_id P) e) room in
  allHands (players room) ≡ₚ e :: allHands ps1 ∧
  players room1 = ps1 ∧
  timeline room1 = timeline room ++ [e] ∧
  lives room1 = lives room ∧
  state room1 = (if decide (allHands ps1 = []) then Victory else Playing) ∧
  (allHands ps1 ≠ [] → inPlay room1).
Proof.
  intros (Hst & Hids & Hnd & Hfree) He HP HeP ps1 room1.
  pose proof (playFrom_perm _ _ _ _ Hnd HP HeP) as Hperm. fold ps1 in Hperm.
  assert (Hacc : accepted (p_id P) e room = true).
  { apply accepted_iff. split; [done|]. exists P.
    repeat split; try done; apply He. }
  unfold accepted in Hacc.
  destruct (validateMove_verdict room (p_id P) e) as (v & Hv & _).
  rewrite Hv in Hacc.
  pose proof (makeMove_accepted _ _ _ _ Hv Hacc) as Hmove.
  cbv zeta in Hmove. cbn [players set_players] in Hmove. fold ps1 in Hmove.
  unfold room1, exec. rewrite Hmove. clear Hmove.
  destruct (forallb _ ps1) eqn:Hall.
  - apply forallb_hands_empty, allHands_nil in Hall.
    rewrite decide_True by done. by repeat split.
  - assert (Hne : allHands ps1 ≠ []).
    { intros Hnil%allHands_nil%forallb_hands_empty. congruence. }
    rewrite decide_False by done.
    do 5 (split; [done|]). intros _.
    split; [done|].
    change (NoDup (p_id <$> ps1) ∧ NoDup (allHands ps1) ∧
            ∀ h, h ∈ allHands ps1 → h ∉ timeline room ++ [e]).
    split; [|split].
    + unfold ps1. by rewrite (proj1 (playFrom_seats _ _ _)).
    + rewrite Hperm in Hnd. by apply NoDup_cons in Hnd as [_ Hnd].
    + intros h Hh [Hin|Hin%list_elem_of_singleton]%elem_of_app.
      * apply (Hfree h); [|done]. rewrite Hperm. by right.
      * subst h. rewrite Hperm in Hnd. by apply NoDup_cons in Hnd as [Hnd _].
Qed.

Lemma playInOrder_run (k : nat) (room : GameRoom) :
  inPlay room → (k ≤ length (allHands (players room)))%nat →
  let room' := playInOrder k room in
  let sorted := sortAsc (allHands (players room)) in
  timeline room' = timeline room ++ take k sorted ∧
  lives room' = lives room ∧
  allHands (players room') ≡ₚ drop k sorted ∧
  state room' =
    if bool_decide (0 < k ∧ k = length (allHands (players room)))%nat
    then Victory else Playing.
Proof.
  revert room. induction k as [|k IH]; intros room Hin Hk; cbv zeta.
  - cbn [playInOrder]. rewrite take_0, app_nil_r, drop_0, sortAsc_perm.
    do 3 (split; [done|]).
    rewrite bool_decide_eq_false_2 by lia. apply Hin.
  - assert (Hne : allHands (players room) ≠ []).
    { intros Hnil. rewrite Hnil in Hk. simpl in Hk. lia. }
    destruct (nextMove_inPlay room Hin Hne) as (P & e & Hnext & He & HP & HeP).
    cbn [playInOrder]. rewrite Hnext.
    destruct (move_inPlay room P e Hin He HP HeP)
      as (Hperm & Hps & Htl & Hlives & Hstate & Hin1).
    set (room1 := exec (makeMove (p_id P) e) room) in *.
    rewrite <- Hps in Hperm, Hstate, Hin1.
    assert (Hsorted : sortAsc (allHands (players room)) =
                      e :: sortAsc (allHands (players room1))).
    { apply sortAsc_least; [done|]. intros x Hx.
      destruct He as (_ & _ & Hleast). apply Hleast.
      - rewrite Hperm. by right.
      - apply Hin. rewrite Hperm. by right. }
    assert (Hlen : length (allHands (players room)) =
                   S (length (allHands (players room1)))) by by rewrite Hperm.
    rewrite Hsorted, Hlen. cbn [firstn skipn].
    destruct (decide (allHands (players room1) = [])) as [Hnil|Hnn].
    + rewrite Hlen, Hnil in Hk. simpl in Hk.
      assert (k = 0)%nat as -> by lia. cbn [playInOrder firstn skipn].
      rewrite Htl, Hlives, Hstate, Hnil.
      rewrite bool_decide_eq_true_2 by (simpl; lia). done.
    + destruct (IH room1 (Hin1 Hnn) ltac:(lia)) as (Htl' & Hl' & Hh' & Hst').
      split; [by rewrite Htl', Htl, <- app_assoc|].
      split; [by rewrite Hl'|]. split; [done|].
      rewrite Hst'.
      apply (f_equal (λ b : bool, if b then Victory else Playing)).
      apply bool_decide_ext.
      destruct (allHands (players room1)); [done|]. simpl. lia.
Qed.

(** X6. A game played in order is won without losing a life. In a room in
    play that holds [N] numbers, after [N] moves, each the expected number
    played by its holder, the state is [victory], the lives are what they
    were, every hand is empty and the timeline is the old one followed by
    the held numbers in ascending order; after fewer moves the state is
    still [playing]. *)
Theorem in_order_play_wins (room : GameRoom) :
  inPlay room → allHands (players room) ≠ [] →
  let N := length (allHands (players room)) in
  let room' := playInOrder N room in
  state room' = Victory ∧
  lives room' = lives room ∧
  timeline room' = timeline room ++ sortAsc (allHands (players room)) ∧
  allHandsEmpty (players room') ∧
  ∀ k, (k < N)%nat → state (playInOrder k room) = Playing.
Proof.
  intros Hin Hne N room'.
  assert (HN : (0 < N)%nat).
  { unfold N. destruct (allHands (players room)); [done|simpl; lia]. }
  destruct (playInOrder_run N room Hin ltac:(done)) as (Htl & Hl & Hh & Hst).
  fold room' in Htl, Hl, Hh, Hst.
  rewrite bool_decide_eq_true_2 in Hst by done.
  assert (HlenS : length (sortAsc (allHands (players room))) = N)
    by by rewrite sortAsc_perm.
  rewrite take_ge in Htl by lia. rewrite drop_ge in Hh by lia.
  repeat split; try done.
  - apply allHands_nil. by apply Permutation_nil_r.
  - intros k Hk.
    destruct (playInOrder_run k room Hin ltac:(unfold N in Hk; lia))
      as (_ & _ & _ & Hstk).
    rewrite Hstk, bool_decide_eq_false_2; [done|]. unfold N in Hk. lia.
Qed.

Lemma in_order_play_wins_witness :
  state (playInOrder 3 midGameRoom) = Victory.
Proof.
  apply (in_order_play_wins midGameRoom).
  - split; [reflexivity|]. split; [|split].
    + apply (bool_decide_unpack _). vm_compute. exact I.
    + apply (bool_decide_unpack _). vm_compute. exact I.
    + apply Forall_forall. apply (bool_decide_unpack _). vm_compute. exact I.
  - discriminate.
Defined.

End PlayingInOrder.

Section WrongMoves.

Lemma makeMove_refused (playerId : string) (number : Z) (room : GameRoom) :
  accepted playerId number room = false →
  exec (makeMove playerId number) room =
  if bool_decide (decrement (lives room) ≤ 0)
  then set_state GameOver (set_lives (decrement (lives room)) room)
  else set_lives (decrement (lives room)) room.
Proof.
  unfold accepted, exec.
  destruct (validateMove_verdict room playerId number) as (v & Hv & _).
  rewrite Hv. intros Hvalid.
  rewrite (makeMove_rejected _ _ _ _ Hv Hvalid). by destruct (bool_decide _).
Qed.

Lemma accepted_lives (playerId : string) (number l : Z) (room : GameRoom) :
  accepted playerId number (set_lives l room) = accepted playerId number room.
Proof.
  destruct (accepted playerId number room) eqn:Hacc.
  - apply accepted_iff in Hacc. by apply accepted_iff.
  - apply not_true_is_false. intros Hacc'%accepted_iff.
    apply not_true_iff_false in Hacc. apply Hacc. by apply accepted_iff.
Qed.

Lemma accepted_not_playing (playerId : string) (number : Z) (room : GameRoom) :
  state room ≠ Playing → accepted playerId number room = false.
Proof.
  intros Hst. apply not_true_is_false. by intros [? _]%accepted_iff.
Qed.

Lemma decrements_le (n : nat) (x : Z) : decrements n x ≤ x.
Proof.
  revert x. induction n as [|n IH]; intros x; cbn [decrements]; [lia|].
  specialize (IH (decrement x)). pose proof (decrement_le x). lia.
Qed.

(** In the exact range, [n] decrements take [n]. *)
Lemma decrements_exact (n : nat) (x : Z) :
  x ≤ maxExact → - maxExact ≤ x - Z.of_nat n →
  decrements n x = x - Z.of_nat n.
Proof.
  revert x. induction n as [|n IH]; intros x Hhi Hlo; cbn [decrements]; [lia|].
  rewrite decrement_exact by (unfold exactRange; lia).
  rewrite IH by lia. lia.
Qed.

(** X7. Wrong moves only cost lives. When [validateMove] rejects each move
    of a sequence in a room, making them one after the other does one
    [lives--] per move and changes neither the timeline nor any hand: the
    lives never go up, and they go down by the number of the moves as long
    as they stay in the range in which the doubles count exactly. The state
    becomes [game-over] as soon as the lives are at 0 or below, and is
    untouched before that. *)
Theorem rejected_moves_cost_lives (moves : list (string * Z))
    (room : GameRoom) :
  Forall (λ m, accepted m.1 m.2 room = false) moves →
  let room' := makeMoves moves room in
  lives room' = decrements (length moves) (lives room) ∧
  lives room' ≤ lives room ∧
  (lives room ≤ maxExact →
   - maxExact ≤ lives room - Z.of_nat (length moves) →
   lives room' = lives room - Z.of_nat (length moves)) ∧
  timeline room' = timeline room ∧
  players room' = players room ∧
  state room' =
    (if bool_decide (moves ≠ [] ∧ lives room' ≤ 0) then GameOver
     else state room) ∧
  room' = set_state (state room') (set_lives (lives room') room).
Proof.
  intros Hrej room'.
  assert (Hmain :
    lives room' = decrements (length moves) (lives room) ∧
    timeline room' = timeline room ∧
    players room' = players room ∧
    state room' =
      (if bool_decide (moves ≠ [] ∧ lives room' ≤ 0) then GameOver
       else state room) ∧
    room' = set_state (state room') (set_lives (lives room') room)).
  { subst room'. revert room Hrej.
    induction moves as [|[p n] moves IH]; intros room Hrej.
    - cbn [makeMoves length decrements].
      rewrite bool_decide_eq_false_2 by (by intros [? _]).
      repeat split; try done. by destruct room.
    - apply Forall_cons in Hrej as [Hrej1 Hrej]. simpl in Hrej1.
      cbn [makeMoves]. rewrite (makeMove_refused _ _ _ Hrej1).
      set (l1 := decrement (lives room)).
      set (room1 := if bool_decide (l1 ≤ 0)
                    then set_state GameOver (set_lives l1 room)
                    else set_lives l1 room).
      assert (Hl1 : lives room1 = l1)
        by (unfold room1; by destruct (bool_decide (l1 ≤ 0))).
      assert (Htl1 : timeline room1 = timeline room)
        by (unfold room1; by destruct (bool_decide (l1 ≤ 0))).
      assert (Hps1 : players room1 = players room)
        by (unfold room1; by destruct (bool_decide (l1 ≤ 0))).
      assert (Hst1 : state room1 =
                if bool_decide (l1 ≤ 0) then GameOver else state room)
        by (unfold room1; by destruct (bool_decide (l1 ≤ 0))).
      assert (Hrej' : Forall (λ m, accepted m.1 m.2 room1 = false) moves).
      { unfold room1. destruct (bool_decide (l1 ≤ 0)).
        - apply Forall_forall. intros m _. by apply accepted_not_playing.
        - eapply Forall_impl; [exact Hrej|]. intros m Hm.
          by rewrite accepted_lives. }
      destruct (IH room1 Hrej') as (Hl & Htl & Hps & Hst & Hroom).
      set (room' := makeMoves moves room1) in *.
      assert (Hlives :
        lives room' = decrements (length ((p, n) :: moves)) (lives room))
        by (by rewrite Hl, Hl1).
      assert (Hbelow : lives room' ≤ l1)
        by (rewrite Hl, Hl1; apply decrements_le).
      assert (Hstate : state room' =
        if bool_decide ((p, n) :: moves ≠ [] ∧ lives room' ≤ 0)
        then GameOver else state room).
      { rewrite Hst, Hst1. clear Hroom Hst Hst1 Hrej' IH Hlives.
        destruct (decide (lives room' ≤ 0)) as [Hle|Hgt].
        - rewrite (bool_decide_eq_true_2
                     ((p, n) :: moves ≠ [] ∧ lives room' ≤ 0)) by done.
          destruct moves as [|m moves'].
          + rewrite (bool_decide_eq_false_2 ([] ≠ [] ∧ lives room' ≤ 0))
              by (by intros [? _]).
            rewrite bool_decide_eq_true_2; [done|].
            cbn [length decrements] in Hl. lia.
          + by rewrite bool_decide_eq_true_2.
        - rewrite (bool_decide_eq_false_2
                     ((p, n) :: moves ≠ [] ∧ lives room' ≤ 0))
            by (by intros [_ ?]).
          rewrite (bool_decide_eq_false_2 (moves ≠ [] ∧ lives room' ≤ 0))
            by (by intros [_ ?]).
          rewrite bool_decide_eq_false_2; [done|]. lia. }
      split; [done|]. split; [congruence|]. split; [congruence|].
      split; [done|].
      assert (Hsl : ∀ s l, set_state s (set_lives l room1) =
                           set_state s (set_lives l room))
        by (intros; unfold room1; by destruct (bool_decide (l1 ≤ 0))).
      rewrite <- Hsl. exact Hroom. }
  destruct Hmain as (Hl & Htl & Hps & Hst & Hroom).
  split; [done|]. split; [rewrite Hl; apply decrements_le|].
  split; [|done]. intros Hhi Hlo. rewrite Hl. by apply decrements_exact.
Qed.

Lemma rejected_moves_cost_lives_witness :
  lives (makeMoves [("s1", 7); ("s3", 9)] midGameRoom) = 0 ∧
  state (makeMoves [("s1", 7); ("s3", 9)] midGameRoom) = GameOver.
Proof.
  destruct (rejected_moves_cost_lives [("s1", 7); ("s3", 9)] midGameRoom)
    as (_ & _ & Hexact & _ & _ & Hstate & _).
  - repeat constructor.
  - split.
    + rewrite Hexact; [reflexivity|vm_compute; discriminate
                      |vm_compute; discriminate].
    + rewrite Hstate. reflexivity.
Defined.

(** X8. A room in which nobody holds a number cannot be won: no move is
    accepted, whoever makes it, so every [makeMove] does one [lives--]
    (which takes exactly one life in the range in which the doubles count
    exactly) and the state is never [victory]. This is the room after a
    deal of nothing, and the room whose last holders have left. *)
Theorem no_cards_no_victory (moves : list (string * Z)) (room : GameRoom) :
  allHandsEmpty (players room) →
  (∀ p n, accepted p n room = false) ∧
  (state room ≠ Victory →
   let room' := makeMoves moves room in
   state room' ≠ Victory ∧ allHandsEmpty (players room') ∧
   lives room' = decrements (length moves) (lives room) ∧
   (lives room ≤ maxExact →
    - maxExact ≤ lives room - Z.of_nat (length moves) →
    lives room' = lives room - Z.of_nat (length moves))).
Proof.
  intros Hempty.
  assert (Hnone : ∀ r, allHandsEmpty (players r) →
                       ∀ p n, accepted p n r = false).
  { intros r Hr p n. apply not_true_is_false.
    intros (_ & P & HP & Hn & _)%accepted_iff.
    apply findPlayer_Some in HP as [HP _].
    rewrite (Hr P HP) in Hn. by apply elem_of_nil in Hn. }
  split; [by apply Hnone|].
  intros Hst room'.
  assert (Hmain : state room' ≠ Victory ∧ allHandsEmpty (players room') ∧
                  lives room' = decrements (length moves) (lives room)).
  { subst room'. revert room Hempty Hst.
    induction moves as [|[p n] moves IH];
      intros room Hempty Hst; cbn [makeMoves length decrements]; [done|].
    rewrite (makeMove_refused _ _ _ (Hnone room Hempty p n)).
    set (l1 := decrement (lives room)).
    set (room1 := if bool_decide (l1 ≤ 0)
                  then set_state GameOver (set_lives l1 room)
                  else set_lives l1 room).
    assert (H1 : allHandsEmpty (players room1) ∧ state room1 ≠ Victory ∧
                 lives room1 = l1)
      by (unfold room1; by destruct (bool_decide (l1 ≤ 0))).
    destruct H1 as (He1 & Hst1 & Hl1).
    destruct (IH room1 He1 Hst1) as (Hst' & He' & Hl').
    split; [done|]. split; [done|].
    by rewrite Hl', Hl1. }
  destruct Hmain as (Hst' & He' & Hl').
  split; [done|]. split; [done|]. split; [done|].
  intros Hhi Hlo. rewrite Hl'. by apply decrements_exact.
Qed.

(** X8, witness: the two players of [dealtNothingRoom] hold nothing; three
    moves take its three lives and the game is lost. *)
Lemma no_cards_no_victory_witness :
  accepted "s1" 1 dealtNothingRoom = false ∧
  state (makeMoves [("s1", 1); ("s2", 5); ("s1", 1)] dealtNothingRoom)
    ≠ Victory ∧
  lives (makeMoves [("s1", 1); ("s2", 5); ("s1", 1)] dealtNothingRoom) = 0.
Proof.
  destruct (no_cards_no_victory [("s1", 1); ("s2", 5); ("s1", 1)]
              dealtNothingRoom) as [Hnone Hrun].
  - intros p Hp. vm_compute in Hp.
    repeat (apply elem_of_cons in Hp as [->|Hp]; [done|]).
    by apply elem_of_nil in Hp.
  - split; [apply Hnone|].
    destruct Hrun as (Hst & _ & _ & Hexact); [vm_compute; discriminate|].
    split; [exact Hst|].
    rewrite Hexact; [reflexivity|vm_compute; discriminate
                    |vm_compute; discriminate].
Defined.

End WrongMoves.

Section Deals.

Lemma sampleLoop_nothing (fuel : nat) (raw : nat → Z) (range minNum total : Z) :
  total ≤ 0 → sampleLoop fuel raw 0 range minNum total [] = Some ([], 0%nat).
Proof.
  intros Hle. destruct fuel; simpl; by rewrite bool_decide_eq_false_2 by lia.
Qed.

Lemma distribute_nil (npp : Z) (playerCount : nat) :
  distribute npp playerCount [] = replicate playerCount [].
Proof.
  unfold distribute. generalize 0%nat.
  induction playerCount as [|k IH]; intros start; [done|].
  cbn [seq replicate]. rewrite fmap_cons. f_equal; [|apply IH].
  cbv zeta. by rewrite jsSlice_nil.
Qed.

Lemma assign_nothing (ps : list Player) :
  assignNumbers (replicate (length ps) []) ps = set_numbers [] <$> ps.
Proof.
  unfold assignNumbers. rewrite <- imap_const. apply imap_ext.
  intros i p Hp. simpl.
  by rewrite lookup_replicate_2 by (by eapply lookup_lt_Some).
Qed.

(** X9. A deal of nothing. When [players] x [numbersPerPlayer] is 0 or less
    (no seat, or a room configured with 0 or a negative number of numbers
    per player), [generateAllPlayerNumbers] draws nothing and returns one
    empty hand per player, and [initializeGame] puts the room in [playing]
    with all its lives, an empty timeline and every hand empty. *)
Theorem deal_of_nothing (fuel : nat) (raw : nat → Z) (room : GameRoom) :
  Z.of_nat (length (players room)) * numbersPerPlayer room ≤ 0 →
  generateAllPlayerNumbers fuel raw
    (mkGameConfig (maxLives room) (numbersPerPlayer room) 1 100)
    (length (players room)) = Returns (replicate (length (players room)) []) ∧
  initializeGame fuel raw room =
    (Returns tt,
     set_state Playing
       (set_lives (maxLives room)
          (set_timeline []
             (set_players (set_numbers [] <$> players room) room)))).
Proof.
  intros Hle.
  assert (Hgen : generateAllPlayerNumbers fuel raw
    (mkGameConfig (maxLives room) (numbersPerPlayer room) 1 100)
    (length (players room)) = Returns (replicate (length (players room)) [])).
  { unfold generateAllPlayerNumbers.
    cbn [cfg_numbersPerPlayer minNumber maxNumber]. cbv zeta.
    rewrite bool_decide_eq_false_2 by lia.
    rewrite sampleLoop_nothing by done. simpl. by rewrite distribute_nil. }
  split; [done|].
  pose proof (initializeGame_run fuel raw room) as Hrun.
  rewrite Hgen in Hrun. rewrite Hrun. unfold dealt.
  by rewrite assign_nothing.
Qed.

Lemma deal_of_nothing_witness :
  generateAllPlayerNumbers 0 countingSource (mkGameConfig 3 0 1 100) 2 =
  Returns [[]; []].
Proof.
  apply (deal_of_nothing 0 countingSource
           (mkGameRoom "R" [mkPlayer "s1" "ann" []; mkPlayer "s2" "bob" []]
              [] 3 3 0 Lobby "s1" [])).
  simpl. lia.
Defined.

(** X10. [initializeGame] deals or leaves the room alone. When there are
    more than 100 numbers to deal it throws the capacity error and the room
    object is unchanged. When it returns, the room is in [playing] with all
    its lives and an empty timeline, the seats are the same in the same
    order, no number is held twice, every held number is between 1 and
    100, every hand is in ascending order, and, for a non-negative
    [numbersPerPlayer], every hand has that many numbers. *)
Theorem initializeGame_all_or_nothing (fuel : nat) (raw : nat → Z)
    (room : GameRoom) :
  let total := Z.of_nat (length (players room)) * numbersPerPlayer room in
  (total > 100 →
   initializeGame fuel raw room = (Throws (capacityMessage total 100), room)) ∧
  (∀ room', initializeGame fuel raw room = (Returns tt, room') →
     state room' = Playing ∧ lives room' = maxLives room ∧
     timeline room' = [] ∧
     p_id <$> players room' = p_id <$> players room ∧
     username <$> players room' = username <$> players room ∧
     NoDup (allHands (players room')) ∧
     Forall (λ x, 1 ≤ x ≤ 100) (allHands (players room')) ∧
     Forall (λ p, StronglySorted Z.le (numbers p) ∧
                  (0 ≤ numbersPerPlayer room →
                   Z.of_nat (length (numbers p)) = numbersPerPlayer room))
       (players room')).
Proof.
  intros total.
  pose proof (initializeGame_run fuel raw room) as Hrun. split.
  - intros Hgt. unfold generateAllPlayerNumbers in Hrun.
    cbn [cfg_numbersPerPlayer minNumber maxNumber] in Hrun. cbv zeta in Hrun.
    fold total in Hrun. by rewrite bool_decide_eq_true_2 in Hrun by lia.
  - intros room' Hret.
    destruct (generateAllPlayerNumbers _ _ _ _) as [hands|e|] eqn:Hgen;
      rewrite Hret in Hrun; [|done..].
    injection Hrun as ->.
    destruct (generate_hands_distinct _ _ _ _ _ Hgen) as (Hlen & Hnd & Hrange).
    destruct (assignNumbers_seats hands (players room)) as [Hids Hnames].
    do 3 (split; [done|]). split; [done|]. split; [done|].
    cbn [dealt players set_players set_state set_lives set_timeline].
    rewrite allHands_assign by done. split; [done|]. split; [done|].
    apply Forall_forall. intros p Hp.
    assert (Hh : numbers p ∈ hands).
    { rewrite <- (assignNumbers_hands hands (players room)) by done.
      by apply list_elem_of_fmap_2. }
    destruct (generate_returns_inv _ _ _ _ _ Hgen)
      as (Htotal & allNumbers & cursor & shuffled & Hloop & Hperm & ->).
    cbn [cfg_numbersPerPlayer minNumber maxNumber] in *.
    split.
    + unfold distribute in Hh.
      apply list_elem_of_fmap in Hh as (i & -> & _). apply sortAsc_sorted.
    + intros Hnpp.
      assert (Hrange100 : 0 < 100 - 1 + 1) by lia.
      assert (Hnil : sampled (100 - 1 + 1) 1 []) by (split; constructor).
      destruct (sampleLoop_sound _ _ _ _ _ _ _ _ _ Hrange100 Hnil Hloop)
        as (_ & Hfull & _).
      assert (Hlen' : Z.of_nat (length shuffled) =
                      Z.of_nat (length (players room)) * numbersPerPlayer room).
      { rewrite Hperm. apply Hfull. simpl. nia. }
      rewrite <- (Z2Nat.id (numbersPerPlayer room)) in Hh, Hlen' |- * by done.
      apply distribute_hands in Hh as [Hl _]; [by rewrite Hl|].
      apply Nat2Z.inj. by rewrite Nat2Z.inj_mul.
Qed.

End Deals.

(** * Further properties of the store *)

Section StoreRoundTrips.

Lemma filter_drops_all {A : Type} (P : A → Prop) `{∀ x, Decision (P x)}
    (l : list A) :
  (∀ x, x ∈ l → ¬ P x) → filter P l = [].
Proof.
  intros Hall. destruct (filter P l) as [|x l'] eqn:Hf; [done|].
  assert (Hx : x ∈ filter P l) by (rewrite Hf; left).
  apply list_elem_of_filter in Hx as [HP Hx]. destruct (Hall x Hx HP).
Qed.

Lemma getPlayers_orphan (roomId : string) (d : Database) :
  fkOk d → roomsTbl d !! roomId = None → getPlayers roomId d = [].
Proof.
  intros Hfk Hnone. unfold getPlayers.
  apply filter_drops_all. intros row Hrow Heq.
  destruct (Hfk row Hrow) as [x Hx]. rewrite Heq in Hx. congruence.
Qed.

(** X11. [createRoom] and [getRoom] round trip. Under a code that is not
    stored (in a store whose seats all name stored rooms), [createRoom]
    returns a lobby room with [maxLives] lives, no seat, no host, nothing
    played, and [getRoom] reads back exactly that room; the other rooms
    read as before. Under a code that is stored it throws
    "Failed to create room" and the store is unchanged. *)
Theorem createRoom_getRoom (roomId : string) (maxL npp : Z) (d : Database) :
  fkOk d →
  (roomsTbl d !! roomId = None →
   ∃ d',
         createRoom roomId maxL npp d =
           (Returns (newRoom roomId maxL npp), d') ∧
         getRoom roomId d' = Some (newRoom roomId maxL npp) ∧
         (∀ roomId', roomId' ≠ roomId →
            getRoom roomId' d' = getRoom roomId' d) ∧
         playersTbl d' = playersTbl d ∧ fkOk d') ∧
  (is_Some (roomsTbl d !! roomId) →
   createRoom roomId maxL npp d = (Throws "Failed to create room", d)).
Proof.
  intros Hfk. unfold createRoom. split.
  - intros Hnone. rewrite Hnone. eexists. split; [done|].
    split; [|split; [|split]].
    + unfold getRoom. cbn [roomsTbl]. rewrite lookup_insert_eq. simpl.
      unfold newRoom. f_equal. f_equal.
      change (playerOfRow <$> getPlayers roomId d = []).
      by rewrite getPlayers_orphan.
    + intros roomId' Hne. unfold getRoom. cbn [roomsTbl].
      by rewrite lookup_insert_ne.
    + done.
    + intros row Hrow. cbn [roomsTbl].
      destruct (decide (pr_room_id row = roomId)) as [->|Hne].
      * by rewrite lookup_insert_eq.
      * rewrite lookup_insert_ne by done. by apply Hfk.
  - by intros [row ->].
Qed.

Lemma createRoom_getRoom_witness :
  createRoom "ROOM01" 3 2 (db lobbyWorld) =
  (Throws "Failed to create room", db lobbyWorld).
Proof.
  apply (createRoom_getRoom "ROOM01" 3 2 (db lobbyWorld)).
  - intros row Hrow. vm_compute in Hrow.
    repeat (apply elem_of_cons in Hrow as [->|Hrow]; [by eexists|]).
    by apply elem_of_nil in Hrow.
  - by eexists.
Defined.

End StoreRoundTrips.

Section StoreDeletes.

(** X12. [deleteRoom] takes the seats with it. After it, [getRoom] finds
    no room under the code and no row of [players] names it, the other
    rooms read as before, and a second delete changes nothing. A room
    created afterwards under the same code starts without players. *)
Theorem deleteRoom_cascades (roomId : string) (d : Database) :
  let d' := deleteRoom roomId d in
  getRoom roomId d' = None ∧
  getPlayers roomId d' = [] ∧
  (∀ roomId', roomId' ≠ roomId → getRoom roomId' d' = getRoom roomId' d) ∧
  deleteRoom roomId d' = d' ∧
  (∀ maxL npp,
     (createRoom roomId maxL npp d').1 = Returns (newRoom roomId maxL npp) ∧
     getRoom roomId (createRoom roomId maxL npp d').2 =
       Some (newRoom roomId maxL npp)) ∧
  (fkOk d → fkOk d').
Proof.
  intros d'.
  assert (Hnone : roomsTbl d' !! roomId = None) by apply lookup_delete_eq.
  assert (Hrows : getPlayers roomId d' = []).
  { unfold getPlayers, d', deleteRoom. cbn [playersTbl].
    apply filter_drops_all. by intros row [Hne _]%list_elem_of_filter. }
  split; [apply getRoom_deleteRoom_same|]. split; [done|].
  split; [intros roomId' Hne; by apply getRoom_deleteRoom_other|].
  split; [|split].
  - unfold d', deleteRoom. cbn [roomsTbl playersTbl]. f_equal.
    + apply delete_id, lookup_delete_eq.
    + apply filter_keeps_all, Forall_forall.
      by intros row [Hne _]%list_elem_of_filter.
  - intros maxL npp. unfold createRoom. rewrite Hnone. split; [done|].
    unfold getRoom. cbn [snd roomsTbl]. rewrite lookup_insert_eq.
    unfold newRoom. simpl. f_equal. f_equal.
    change (playerOfRow <$> getPlayers roomId d' = []). by rewrite Hrows.
  - intros Hfk row [Hne Hrow]%list_elem_of_filter.
    unfold d', deleteRoom. cbn [roomsTbl].
    rewrite lookup_delete_ne by done. by apply Hfk.
Qed.

(** X13. [removePlayer] unseats a player id wherever it sits: afterwards
    every room reads as before without that player, the other seats in
    their order. Removing an id that has no row changes nothing, so the
    call is idempotent; the rooms themselves are never touched, not even a
    room left without players or without its host. *)
Theorem removePlayer_unseats (playerId : string) (d : Database) :
  let d' := removePlayer playerId d in
  (∀ roomId,
     getRoom roomId d' =
     (λ room, set_players
                (filter (λ p, p_id p ≠ playerId) (players room)) room)
       <$> getRoom roomId d) ∧
  (∀ roomId room', getRoom roomId d' = Some room' →
                   playerId ∉ p_id <$> players room') ∧
  roomsTbl d' = roomsTbl d ∧
  (playerId ∉ pr_id <$> playersTbl d → d' = d) ∧
  removePlayer playerId d' = d'.
Proof.
  intros d'.
  assert (Hread : ∀ roomId, getRoom roomId d' =
     (λ room, set_players
                (filter (λ p, p_id p ≠ playerId) (players room)) room)
       <$> getRoom roomId d) by (intros; apply getRoom_removePlayer).
  assert (Hid : ∀ e, playerId ∉ pr_id <$> playersTbl e →
                     removePlayer playerId e = e).
  { intros e Hout. unfold removePlayer. destruct e as [rooms rows].
    f_equal. apply filter_keeps_all, Forall_forall.
    intros row Hrow Heq. apply Hout.
    rewrite <- Heq. by apply list_elem_of_fmap_2. }
  split; [done|]. split; [|split; [done|split; [apply Hid|]]].
  - intros roomId room'. rewrite Hread.
    destruct (getRoom roomId d) as [room|]; [|done].
    intros [= <-]. cbn [players set_players].
    intros (p & Hp & [Hne _]%list_elem_of_filter)%list_elem_of_fmap.
    by apply Hne.
  - apply Hid. unfold d', removePlayer. cbn [playersTbl].
    intros (row & Hrow & [Hne _]%list_elem_of_filter)%list_elem_of_fmap.
    by apply Hne.
Qed.

End StoreDeletes.

Section StoreSeats.

(** X14. [addPlayer] seats a player id in one room only. It throws exactly
    when the room is not stored. Otherwise the player is the last seat of
    the room, any seat the id had before, in this room or in another, is
    gone, and every other seat of every room is where it was; the key of
    [players] stays unique. *)
Theorem addPlayer_moves_seat (roomId : string) (player : Player)
    (d : Database) :
  (is_Some (addPlayer roomId player d) ↔ is_Some (getRoom roomId d)) ∧
  ∀ d', addPlayer roomId player d = Some d' →
    (∀ roomId',
       getRoom roomId' d' =
       (λ room,
          set_players
            (filter (λ p, p_id p ≠ p_id player) (players room) ++
             (if decide (roomId' = roomId) then [player] else []))
            room) <$> getRoom roomId' d) ∧
    (wf d → wf d') ∧ (fkOk d → fkOk d').
Proof.
  split.
  - rewrite getRoom_is_Some. unfold addPlayer.
    destruct (roomsTbl d !! roomId); split; intros [x Hx]; by eauto.
  - intros d' Hadd. split; [|split].
    + intros roomId'. destruct (decide (roomId' = roomId)) as [->|Hne].
      * destruct (getRoom roomId d) as [room|] eqn:Hget.
        -- by rewrite (getRoom_addPlayer_same _ _ _ _ _ Hget Hadd).
        -- assert (Hsome : is_Some (roomsTbl d !! roomId)).
           { unfold addPlayer in Hadd. by destruct (roomsTbl d !! roomId). }
           apply getRoom_is_Some in Hsome as [room Hroom]. congruence.
      * rewrite (getRoom_addPlayer_other _ _ _ _ _ Hne Hadd).
        destruct (getRoom roomId' d) as [room|]; [|done]. simpl.
        by rewrite app_nil_r.
    + intros Hwf. by eapply wf_addPlayer.
    + intros Hfk row Hrow. unfold addPlayer in Hadd.
      destruct (roomsTbl d !! roomId) as [r|] eqn:Hroom; [|done].
      injection Hadd as <-. cbn [roomsTbl playersTbl] in *.
      apply elem_of_app in Hrow
        as [[_ Hrow]%list_elem_of_filter | ->%list_elem_of_singleton].
      * by apply Hfk.
      * cbn [pr_room_id]. by rewrite Hroom.
Qed.

Lemma alter_same_row (f : RoomRow → RoomRow) (roomId : string)
    (rooms : gmap string RoomRow) :
  (∀ row, rooms !! roomId = Some row → f row = row) →
  alter f roomId rooms = rooms.
Proof.
  intros Hf. apply map_eq. intros k.
  destruct (decide (k = roomId)) as [->|Hne].
  - rewrite lookup_alter_eq. destruct (rooms !! roomId) as [row|] eqn:Hrow;
      [|done]. simpl. by rewrite Hf.
  - by rewrite lookup_alter_ne.
Qed.

(** X15. [updateRoom] never seats, unseats or renames a player and never
    changes a room's [maxLives] or [numbersPerPlayer], whatever the room
    object says: after it the same rooms are stored, each with the seats
    (ids, names, order) and the configuration it had. A room other than the
    one updated also keeps its lives, state, timeline, events and host. *)
Theorem updateRoom_keeps_seats (room : GameRoom) (d : Database)
    (roomId : string) :
  match getRoom roomId d, getRoom roomId (updateRoom room d) with
  | Some r, Some r' =>
      p_id <$> players r' = p_id <$> players r ∧
      username <$> players r' = username <$> players r ∧
      maxLives r' = maxLives r ∧
      numbersPerPlayer r' = numbersPerPlayer r ∧
      (roomId ≠ r_id room →
       lives r' = lives r ∧ state r' = state r ∧ timeline r' = timeline r ∧
       gameEvents r' = gameEvents r ∧ hostId r' = hostId r)
  | None, None => True
  | _, _ => False
  end.
Proof.
  unfold getRoom. rewrite getPlayers_updateRoom.
  assert (Hseats :
    p_id <$> (playerOfRow <$> (updRow (players room) <$> getPlayers roomId d))
      = p_id <$> (playerOfRow <$> getPlayers roomId d) ∧
    username <$>
      (playerOfRow <$> (updRow (players room) <$> getPlayers roomId d))
      = username <$> (playerOfRow <$> getPlayers roomId d)).
  { rewrite <- !list_fmap_compose.
    split; apply list_fmap_ext; intros i row' _; simpl; apply updRow_keys. }
  destruct Hseats as [Hids Hnames].
  destruct (roomsTbl d !! roomId) as [row|] eqn:Hrow.
  - destruct (decide (roomId = r_id room)) as [->|Hne].
    + unfold updateRoom at 1. cbn [roomsTbl].
      rewrite lookup_alter_eq, Hrow. simpl. by repeat split.
    + unfold updateRoom at 1. cbn [roomsTbl].
      rewrite lookup_alter_ne, Hrow by done. simpl. by repeat split.
  - unfold updateRoom at 1. cbn [roomsTbl].
    destruct (decide (roomId = r_id room)) as [->|Hne].
    + by rewrite lookup_alter_eq, Hrow.
    + by rewrite lookup_alter_ne, Hrow.
Qed.

(** On the columns that are represented (all but the timestamps),
    [updateRoom] of the object [getRoom] returned writes what is there.
    The [UPDATE] does fire the trigger that refreshes [updated_at]. *)
Lemma updateRoom_same_columns (roomId : string) (room : GameRoom)
    (d : Database) :
  wf d → getRoom roomId d = Some room → updateRoom room d = d.
Proof.
  intros Hwf Hget.
  destruct (getRoom_Some_inv _ _ _ Hget) as (row & Hrow & ->).
  destruct d as [rooms rows]. unfold updateRoom.
  cbn [r_id lives state hostId timeline gameEvents players roomsTbl
       playersTbl] in *.
  f_equal.
  - apply alter_same_row. intros row' Hrow'.
    assert (row' = row) as -> by congruence. by destruct row.
  - change (foldl (λ tbl player, updatePlayerNumbers player tbl) rows
              (playerOfRow <$> getPlayers roomId (mkDatabase rooms rows)))
      with (playersTbl (updateRoom
              (mkGameRoom roomId
                 (playerOfRow <$> getPlayers roomId (mkDatabase rooms rows))
                 [] 0 0 0 Lobby EmptyString [])
              (mkDatabase rooms rows))).
    rewrite updateRoom_players. cbn [players playersTbl].
    transitivity (id <$> rows); [|apply list_fmap_id]. apply list_fmap_ext.
    intros i r Hr. simpl. apply list_elem_of_lookup_2 in Hr.
    destruct (decide (pr_room_id r = roomId)) as [Heq|Hne].
    + assert (Hin : playerOfRow r ∈
                playerOfRow <$> getPlayers roomId (mkDatabase rooms rows)).
      { apply list_elem_of_fmap_2. by apply list_elem_of_filter. }
      pose proof (updRow_keys
        (playerOfRow <$> getPlayers roomId (mkDatabase rooms rows)) r)
        as (Hk1 & Hk2 & Hk3).
      pose proof (updRow_present _ r (playerOfRow r)
        ltac:(rewrite players_ids_of_rows; by apply getPlayers_ids_nodup)
        Hin eq_refl) as Hnum.
      destruct (updRow _ r) as [a b c e], r as [a' b' c' e'].
      simpl in *. congruence.
    + apply updRow_absent. rewrite players_ids_of_rows.
      by apply (getPlayers_ids_apart roomId (pr_room_id r)
                  (mkDatabase rooms rows)); [| |apply list_elem_of_filter].
Qed.

(** X16. Writing back what was read changes nothing that is read back:
    in a store whose player ids are unique, after [updateRoom] of the
    object [getRoom] returned, [getRoom] returns for every id what it
    returned before, and the rows of [players] are as they were. (The
    write refreshes the [updated_at] of the room, which [getRoom] does not
    return.) *)
Theorem updateRoom_of_getRoom (roomId : string) (room : GameRoom)
    (d : Database) :
  wf d → getRoom roomId d = Some room →
  (∀ roomId', getRoom roomId' (updateRoom room d) = getRoom roomId' d) ∧
  playersTbl (updateRoom room d) = playersTbl d.
Proof.
  intros Hwf Hget.
  by rewrite (updateRoom_same_columns roomId room d Hwf Hget).
Qed.

(** X16, witness: the room in the middle of a game, written back. *)
Lemma updateRoom_of_getRoom_witness :
  getRoom "ROOM01" (updateRoom midGameRoom (db midGameWorld)) =
  Some midGameRoom.
Proof.
  apply (proj1 (updateRoom_of_getRoom "ROOM01" midGameRoom (db midGameWorld)
                  midGameWorld_wf eq_refl) "ROOM01").
Defined.

End StoreSeats.

(** * Further properties of the routes *)

Section ReadAndDeleteRoutes.

Import RoomRoutes.

(** X17. [GET /:roomId] answers 200 with the stored room when there is
    one. When there is none the client gets 404 "Room not found": the
    handler does not return after sending it, the second [json] and the
    500 of the [catch] block both throw on the response that is already
    out, and the handler ends with that exception. *)
Theorem getRoomRoute_answers (roomId : string) (d : Database) :
  getRoomRoute roomId d =
  match getRoom roomId d with
  | Some room => (Returns tt, Some (200, RoomBody (Some room)))
  | None =>
      (Throws "Cannot set headers after they are sent to the client",
       Some (404, ErrorBody "Room not found"))
  end.
Proof.
  unfold getRoomRoute, getRoomTry. by destruct (getRoom roomId d).
Qed.

(** X18. [DELETE /:roomId] of a stored room answers 200
    "Room deleted successfully"; afterwards the room and its seats are gone
    and the other rooms read as before. For a room that is not stored the
    client gets 404 "Room not found" and every room reads as before; the
    handler goes on to the delete statement all the same and ends with the
    exception of the second response. *)
Theorem deleteRoomRoute_answers (roomId : string) (d : Database) :
  let '(o, d', res) := deleteRoomRoute roomId d in
  d' = deleteRoom roomId d ∧
  getRoom roomId d' = None ∧
  (∀ roomId', roomId' ≠ roomId → getRoom roomId' d' = getRoom roomId' d) ∧
  match getRoom roomId d with
  | Some room =>
      o = Returns tt ∧
      res = Some (200, MessageBody "Room deleted successfully")
  | None =>
      o = Throws "Cannot set headers after they are sent to the client" ∧
      res = Some (404, ErrorBody "Room not found") ∧
      (fkOk d → d' = d)
  end.
Proof.
  unfold deleteRoomRoute, deleteRoomTry.
  destruct (getRoom roomId d) as [room|] eqn:Hget; simpl.
  - split; [done|]. split; [apply getRoom_deleteRoom_same|].
    split; [|done]. intros roomId' Hne. by apply getRoom_deleteRoom_other.
  - split; [done|]. split; [apply getRoom_deleteRoom_same|].
    split; [intros roomId' Hne; by apply getRoom_deleteRoom_other|].
    do 2 (split; [done|]). intros Hfk.
    assert (Hnone : roomsTbl d !! roomId = None).
    { destruct (roomsTbl d !! roomId) eqn:Hrow; [|done].
      unfold getRoom in Hget. by rewrite Hrow in Hget. }
    unfold deleteRoom. destruct d as [rooms rows].
    cbn [roomsTbl playersTbl] in *.
    f_equal; [by apply delete_id|].
    apply filter_keeps_all, Forall_forall. intros row Hrow Heq.
    destruct (Hfk row Hrow) as [x Hx]. simpl in Hx. congruence.
Qed.

End ReadAndDeleteRoutes.

Section CreateRoute.

Import Routes.

(** X19. [POST /] with both values within their bounds ([maxLives] in
    1..10, default 3; [numbersPerPlayer] in 1..20, default 6). Under a code
    that is not stored it stores the new lobby room and answers 200 with
    the code and the room. Under a code that is stored it answers 500
    "Failed to create room" and leaves the store as it is. *)
Theorem postRoom_within_bounds (code : string) (b : CreateBody)
    (d : Database) :
  let maxL := default 3 (body_maxLives b) in
  let npp := default 6 (body_numbersPerPlayer b) in
  1 ≤ maxL ≤ 10 → 1 ≤ npp ≤ 20 →
  (roomsTbl d !! code = None →
   postRoom code b d =
     ((createRoom code maxL npp d).2,
      Some (mkHttpResponse 200 (BodyCreated code (newRoom code maxL npp))))) ∧
  (is_Some (roomsTbl d !! code) →
   postRoom code b d =
     (d, Some (mkHttpResponse 500 (BodyError "Failed to create room")))).
Proof.
  intros maxL npp HmaxL Hnpp. unfold postRoom, postRoomTry.
  fold maxL npp.
  rewrite !(bool_decide_eq_false_2 (maxL < 1)),
          !(bool_decide_eq_false_2 (maxL > 10)),
          !(bool_decide_eq_false_2 (npp < 1)),
          !(bool_decide_eq_false_2 (npp > 20)) by lia.
  simpl. unfold createRoom. split.
  - by intros ->.
  - by intros [row ->].
Qed.

Lemma postRoom_within_bounds_witness :
  postRoom "ROOM01" (mkCreateBody None None) (db lobbyWorld) =
  (db lobbyWorld,
   Some (mkHttpResponse 500 (BodyError "Failed to create room"))).
Proof.
  apply (postRoom_within_bounds "ROOM01" (mkCreateBody None None)
           (db lobbyWorld)); [simpl; lia..|].
  by eexists.
Defined.

(** X20. [POST /] with a value out of bounds answers 400, with the message
    of the first bound that fails. When both values are out of bounds
    nothing is stored: the second 400 throws on the response that is
    already out, before [createRoom] is reached. *)
Theorem postRoom_both_out_of_bounds (code : string) (b : CreateBody)
    (d : Database) :
  let maxL := default 3 (body_maxLives b) in
  let npp := default 6 (body_numbersPerPlayer b) in
  maxL < 1 ∨ 10 < maxL → npp < 1 ∨ 20 < npp →
  postRoom code b d =
    (d, Some (mkHttpResponse 400
                (BodyError "Max lives must be between 1 and 10"))).
Proof.
  intros maxL npp HmaxL Hnpp. unfold postRoom, postRoomTry. fold maxL npp.
  assert (H1 : bool_decide (maxL < 1) || bool_decide (maxL > 10) = true).
  { destruct HmaxL; [rewrite bool_decide_eq_true_2 by lia; done|].
    rewrite (bool_decide_eq_true_2 (maxL > 10)) by lia. apply orb_true_r. }
  assert (H2 : bool_decide (npp < 1) || bool_decide (npp > 20) = true).
  { destruct Hnpp; [rewrite bool_decide_eq_true_2 by lia; done|].
    rewrite (bool_decide_eq_true_2 (npp > 20)) by lia. apply orb_true_r. }
  by rewrite H1, H2.
Qed.

Lemma postRoom_both_out_of_bounds_witness :
  postRoom "ROOM02" (mkCreateBody (Some 0) (Some 21)) (db lobbyWorld) =
  (db lobbyWorld,
   Some (mkHttpResponse 400
           (BodyError "Max lives must be between 1 and 10"))).
Proof.
  apply (postRoom_both_out_of_bounds "ROOM02"
           (mkCreateBody (Some 0) (Some 21)) (db lobbyWorld)); simpl; lia.
Defined.

End CreateRoute.

(** * Further properties of the server *)

Section StoreThroughRequests.

Lemma storeKept_refl (d : Database) : storeKept d d.
Proof. by split. Qed.

Lemma storeKept_trans (d1 d2 d3 : Database) :
  storeKept d1 d2 → storeKept d2 d3 → storeKept d1 d3.
Proof. intros [H1 H2] [H3 H4]. split; [tauto|]. intros k Hk. eauto. Qed.

Lemma alter_is_Some (f : RoomRow → RoomRow) (i k : string)
    (rooms : gmap string RoomRow) :
  is_Some (alter f i rooms !! k) ↔ is_Some (rooms !! k).
Proof.
  destruct (decide (k = i)) as [->|Hne].
  - by rewrite lookup_alter_eq, fmap_is_Some.
  - by rewrite lookup_alter_ne.
Qed.

Lemma storeKept_updateRoom (room : GameRoom) (d : Database) :
  storeKept d (updateRoom room d).
Proof.
  split.
  - intros Hfk row. rewrite updateRoom_players.
    intros (row0 & -> & Hrow0)%list_elem_of_fmap.
    rewrite (proj1 (proj2 (updRow_keys _ _))).
    by apply updateRoom_keeps_rooms, Hfk.
  - intros k. unfold updateRoom. cbn [roomsTbl]. by rewrite alter_is_Some.
Qed.

Lemma storeKept_setHost (roomId host : string) (d : Database) :
  storeKept d (setHost roomId host d).
Proof.
  split.
  - intros Hfk row Hrow. unfold setHost. cbn [roomsTbl].
    rewrite alter_is_Some. by apply Hfk.
  - intros k. unfold setHost. cbn [roomsTbl]. by rewrite alter_is_Some.
Qed.

Lemma storeKept_removePlayer (playerId : string) (d : Database) :
  storeKept d (removePlayer playerId d).
Proof.
  split; [|done].
  intros Hfk row [_ Hrow]%list_elem_of_filter. by apply Hfk.
Qed.

Lemma storeKept_deleteRoom (roomId : string) (d : Database) :
  storeKept d (deleteRoom roomId d).
Proof.
  split.
  - intros Hfk row [Hne Hrow]%list_elem_of_filter.
    unfold deleteRoom. cbn [roomsTbl].
    rewrite lookup_delete_ne by done. by apply Hfk.
  - intros k. unfold deleteRoom. cbn [roomsTbl].
    destruct (decide (k = roomId)) as [->|Hne].
    + rewrite lookup_delete_eq. by intros [x Hx].
    + by rewrite lookup_delete_ne.
Qed.

Lemma storeKept_join (socketId : string) (data : JoinData) (room : GameRoom)
    (d : Database) :
  getRoom (jd_roomId data) d = Some room →
  storeKept d (storeAfterJoin socketId data room d).
Proof.
  intros Hget. unfold storeAfterJoin. cbv zeta.
  eapply storeKept_trans; [|apply storeKept_updateRoom].
  eapply storeKept_trans;
    [|destruct (_ || _); [apply storeKept_setHost|apply storeKept_refl]].
  split; [|done]. cbn [roomsTbl playersTbl].
  intros Hfk row
    [[_ Hrow]%list_elem_of_filter | ->%list_elem_of_singleton]%elem_of_app.
  - by apply Hfk.
  - cbn [pr_room_id].
    apply (proj1 (getRoom_is_Some (jd_roomId data) d)). by rewrite Hget.
Qed.

Lemma storeKept_leave (socketId roomId : string) (room : GameRoom)
    (d : Database) :
  storeKept d (storeAfterLeave socketId roomId room d).
Proof.
  unfold storeAfterLeave. cbv zeta.
  eapply storeKept_trans; [|apply storeKept_updateRoom].
  eapply storeKept_trans; [apply (storeKept_removePlayer socketId)|].
  destruct (bool_decide _); [apply storeKept_setHost|apply storeKept_refl].
Qed.

Lemma storeKept_handlePlayerLeave (socketId : string)
    (roomId : option string) (w : World) :
  storeKept (db w) (db (handlePlayerLeave socketId roomId w)).
Proof.
  destruct roomId as [[|c s]|]; [apply storeKept_refl| |apply storeKept_refl].
  set (roomId := String c s).
  assert (Hne : roomId ≠ EmptyString) by done.
  destruct (getRoom roomId (db w)) as [room|] eqn:Hget.
  - destruct (decide (hostLeavesLobby socketId room)) as [Hhl|Hhl].
    + rewrite (handlePlayerLeave_host_lobby _ _ _ _ Hne Hget Hhl).
      cbn [db emit withDb].
      eapply storeKept_trans;
        [apply (storeKept_removePlayer socketId)|apply storeKept_deleteRoom].
    + destruct (remaining socketId room) as [|q qs] eqn:Hrem.
      * rewrite (handlePlayerLeave_emptied _ _ _ _ Hne Hget Hhl Hrem).
        cbn [db emit withDb].
        eapply storeKept_trans;
          [apply (storeKept_removePlayer socketId)|apply storeKept_deleteRoom].
      * rewrite (handlePlayerLeave_survives _ _ _ _ Hne Hget Hhl)
          by (by rewrite Hrem).
        rewrite (proj1 (emitGameStateIfStarted_db _ _ _)).
        cbn [db emit withDb]. apply storeKept_leave.
  - rewrite (handlePlayerLeave_missing _ _ _ Hget). apply storeKept_refl.
Qed.

(** Serving a request keeps the foreign key of [players], and only the
    creation of a room stores a room that was not there. *)
Lemma serve_store (req : Request) (w w' : World) :
  serve req w = Some w' →
  (fkOk (db w) → fkOk (db w')) ∧
  ∀ k, is_Some (roomsTbl (db w') !! k) →
       is_Some (roomsTbl (db w) !! k) ∨
       ∃ b, req = CreateRoom k b ∧ playersTbl (db w') = playersTbl (db w).
Proof.
  intros Hserve.
  assert (Hkept : ∀ d', storeKept (db w) d' →
    (fkOk (db w) → fkOk d') ∧
    ∀ k, is_Some (roomsTbl d' !! k) →
         is_Some (roomsTbl (db w) !! k) ∨
         ∃ b, req = CreateRoom k b ∧ playersTbl d' = playersTbl (db w)).
  { intros d' [Hfk Hdom]. split; [done|]. intros k Hk. left. by apply Hdom. }
  destruct req as
    [code b|sid data|env sid rid|env sid rid n|env sid rid|sid rid|sid];
    simpl in Hserve.
  - (* create *)
    injection Hserve as <-. cbn [db withDb].
    destruct (postRoom_db code b (db w)) as [->|(maxL & npp & Hnone & ->)];
      [apply Hkept, storeKept_refl|].
    cbn [roomsTbl playersTbl]. split.
    + intros Hfk row Hrow. cbn [roomsTbl].
      destruct (decide (pr_room_id row = code)) as [->|Hne].
      * by rewrite lookup_insert_eq.
      * rewrite lookup_insert_ne by done. by apply Hfk.
    + intros k Hk. destruct (decide (k = code)) as [->|Hne].
      * right. by exists b.
      * left. by rewrite lookup_insert_ne in Hk.
  - (* join *)
    injection Hserve as <-. apply Hkept.
    destruct (getRoom (jd_roomId data) (db w)) as [room|] eqn:Hget.
    + destruct (findPlayer sid (players room)) as [p|] eqn:Hfind.
      * rewrite (onJoinRoom_seated _ _ _ _ _ Hget Hfind).
        rewrite (proj1 (emitGameStateIfStarted_db _ _ _)).
        apply storeKept_refl.
      * destruct (decide (state room = Playing)) as [Hst|Hst].
        -- rewrite (onJoinRoom_refused _ _ _ _ Hget Hfind Hst).
           apply storeKept_refl.
        -- rewrite (onJoinRoom_new _ _ _ _ Hget Hfind Hst).
           rewrite (proj1 (emitGameStateIfStarted_db _ _ _)).
           cbn [db emit]. by apply storeKept_join.
    + rewrite (onJoinRoom_missing _ _ _ Hget). apply storeKept_refl.
  - (* start *)
    apply Hkept.
    destruct (getRoom rid (db w)) as [room|] eqn:Hget.
    + destruct (decide (startAllowed sid room)) as [Hok|Hno].
      * pose proof (onStartGame_allowed env sid rid w room Hget Hok) as Hrun.
        destruct (dealFor env room) as [hands|e|]; [|done|congruence].
        destruct Hrun as (events & Hrun). cbv zeta in Hrun.
        rewrite Hrun in Hserve. injection Hserve as <-.
        cbn [db emit withDb]. apply storeKept_updateRoom.
      * destruct (onStartGame_refused env sid rid w) as (msg & Hrun);
          [right; by exists room|].
        rewrite Hrun in Hserve. injection Hserve as <-. apply storeKept_refl.
    + destruct (onStartGame_refused env sid rid w) as (msg & Hrun);
        [by left|].
      rewrite Hrun in Hserve. injection Hserve as <-. apply storeKept_refl.
  - (* play *)
    injection Hserve as <-. apply Hkept.
    destruct (onPlayNumber_db env sid rid n w)
      as [->|(room & res & room1 & events & _ & _ & ->)];
      [apply storeKept_refl|apply storeKept_updateRoom].
  - (* reset *)
    injection Hserve as <-. apply Hkept.
    destruct (onResetGame_db env sid rid w) as [->|(room & events & _ & ->)];
      [apply storeKept_refl|apply storeKept_updateRoom].
  - (* leave *)
    injection Hserve as <-. apply Hkept. unfold onLeaveRoom. cbv zeta.
    cbn [db emit].
    apply (storeKept_handlePlayerLeave sid (Some rid) (socketLeave sid rid w)).
  - (* disconnect *)
    injection Hserve as <-. apply Hkept, storeKept_handlePlayerLeave.
Qed.

Lemma reachable_fk (w : World) : reachable w → fkOk (db w).
Proof.
  induction 1 as [|req w w' _ IH Hserve].
  - by intros row ?%elem_of_nil.
  - by apply (serve_store req w w' Hserve).
Qed.

(** A room that a request stores anew has no player. *)
Lemma new_room_empty (req : Request) (w w' : World) (k : string)
    (r' : GameRoom) :
  fkOk (db w) → serve req w = Some w' →
  getRoom k (db w) = None → getRoom k (db w') = Some r' → players r' = [].
Proof.
  intros Hfk Hserve Hnone Hget.
  assert (Hno : roomsTbl (db w) !! k = None).
  { destruct (roomsTbl (db w) !! k) eqn:Hrow; [|done].
    unfold getRoom in Hnone. by rewrite Hrow in Hnone. }
  destruct (proj2 (serve_store req w w' Hserve) k) as [Hold|(b & -> & Hrows)].
  - apply getRoom_is_Some. by rewrite Hget.
  - rewrite Hno in Hold. by destruct Hold.
  - destruct (getRoom_Some_inv _ _ _ Hget) as (row & _ & ->).
    cbn [players]. unfold getPlayers. rewrite Hrows.
    change (playerOfRow <$> getPlayers k (db w) = []).
    by rewrite getPlayers_orphan.
Qed.

(** What is true of a newly created room and is kept by every room
    transition is true of every room of every world the server can be
    in. *)
Lemma reachable_rooms (J : GameRoom → Prop) :
  (∀ r, created r → players r = [] → J r) →
  (∀ r r', roomChange r r' → J r → J r') →
  ∀ w, reachable w →
  ∀ roomId room, getRoom roomId (db w) = Some room → J room.
Proof.
  intros Hnew Hstep w Hreach.
  induction Hreach as [|req w w' Hreach IH Hserve]; [done|].
  intros roomId room' Hget.
  pose proof (reachable_good w Hreach) as [Hwf _].
  pose proof (proj2 (serve_refines req w w' Hwf Hserve) roomId room' Hget)
    as Href.
  destruct (getRoom roomId (db w)) as [room|] eqn:Hold.
  - destruct Href as (Hchange & _). eapply Hstep; [exact Hchange|].
    by eapply IH.
  - apply Hnew; [done|].
    by eapply (new_room_empty req w w' roomId room' (reachable_fk w Hreach)).
Qed.

End StoreThroughRequests.

Section ReachableRooms.

(** X21. A connection has at most one seat. In every world the server can
    be in, no room seats the same socket id twice, no socket id is seated
    in two rooms, and every seat belongs to a stored room. *)
Theorem one_seat_per_socket (w : World) :
  reachable w →
  (∀ roomId room, getRoom roomId (db w) = Some room →
     NoDup (p_id <$> players room)) ∧
  (∀ roomA roomB ra rb socketId,
     getRoom roomA (db w) = Some ra → getRoom roomB (db w) = Some rb →
     socketId ∈ p_id <$> players ra → socketId ∈ p_id <$> players rb →
     roomA = roomB) ∧
  (∀ row, row ∈ playersTbl (db w) →
     ∃ room, getRoom (pr_room_id row) (db w) = Some room ∧
             pr_id row ∈ p_id <$> players room).
Proof.
  intros Hreach.
  pose proof (reachable_good w Hreach) as [Hwf _].
  pose proof (reachable_fk w Hreach) as Hfk.
  split; [|split].
  - intros roomId room Hget. rewrite (getRoom_player_ids _ _ _ Hget).
    by apply getPlayers_ids_nodup.
  - intros roomA roomB ra rb sid HA HB.
    rewrite (getRoom_player_ids _ _ _ HA), (getRoom_player_ids _ _ _ HB).
    intros HinA (row & -> & Hrow)%list_elem_of_fmap.
    destruct (decide (roomA = roomB)) as [|Hne]; [done|].
    by destruct (getPlayers_ids_apart roomA roomB (db w) row Hwf).
  - intros row Hrow.
    destruct (proj2 (getRoom_is_Some (pr_room_id row) (db w)) (Hfk row Hrow))
      as [room Hget].
    exists room. split; [done|].
    rewrite (getRoom_player_ids _ _ _ Hget). apply list_elem_of_fmap_2.
    by apply list_elem_of_filter.
Qed.

Lemma one_seat_per_socket_witness :
  NoDup (p_id <$> players demoLobbyRoom).
Proof.
  apply (proj1 (one_seat_per_socket demoLobbyWorld demoLobby_reachable)
           "ROOM01").
  vm_compute. reflexivity.
Defined.

(** X22. The lives of a room never exceed its [maxLives], in any room of
    any world the server can be in. *)
Theorem lives_at_most_maxLives (w : World) (roomId : string)
    (room : GameRoom) :
  reachable w → getRoom roomId (db w) = Some room →
  lives room ≤ maxLives room.
Proof.
  intros Hreach. revert roomId room.
  apply (reachable_rooms (λ r, lives r ≤ maxLives r)); [| |done].
  - intros r (_ & Hl & _) _. lia.
  - intros r r' Hchange Hle.
    destruct Hchange as [r|r sid host|r p host Hp|r r1 sid n res events Hmove
                        |r fuel raw hands events Hgen|r events]; simpl;
      try done; try lia.
    destruct (makeMove_lives _ _ _ _ _ Hmove) as [Hl _].
    destruct (sameSeats_move _ _ _ _ _ Hmove) as (_ & _ & _ & Hm & _). lia.
Qed.

(** X22, witness: the room of the game in which 1 was played and 3 was
    rejected has 2 of its 3 lives. *)
Lemma lives_at_most_maxLives_witness :
  (lives demoPlayedRoom, maxLives demoPlayedRoom) = (2, 3) ∧
  lives demoPlayedRoom ≤ maxLives demoPlayedRoom.
Proof.
  split; [vm_compute; reflexivity|].
  apply (lives_at_most_maxLives demoPlayedWorld "ROOM01").
  - apply demoPlayed_reachable.
  - vm_compute. reflexivity.
Defined.

Lemma playFrom_subset (playerId : string) (n x : Z) (ps : list Player) :
  x ∈ allHands (playFrom playerId n ps) → x ∈ allHands ps.
Proof.
  unfold playFrom. induction ps as [|p ps IH]; [done|].
  cbn [update_first]. case_bool_decide; rewrite !allHands_cons, !elem_of_app.
  - cbn [numbers set_numbers]. intros [[_ Hx]%list_elem_of_filter|Hx]; eauto.
  - intros [Hx|Hx]; eauto.
Qed.

(** X23. Where the numbers are. In every room of every world the server
    can be in, each number on the timeline or in a hand lies between 1 and
    100; a room in the lobby has an empty timeline and empty hands; and a
    room in [victory] has empty hands. *)
Theorem numbers_in_reachable_rooms (w : World) (roomId : string)
    (room : GameRoom) :
  reachable w → getRoom roomId (db w) = Some room →
  Forall (λ x, 1 ≤ x ≤ 100) (pool room) ∧
  (state room = Lobby → pool room = []) ∧
  (state room = Victory → allHands (players room) = []).
Proof.
  intros Hreach. revert roomId room.
  apply (reachable_rooms (λ r,
    Forall (λ x, 1 ≤ x ≤ 100) (pool r) ∧
    (state r = Lobby → pool r = []) ∧
    (state r = Victory → allHands (players r) = []))); [| |done].
  - intros r (_ & _ & Htl) Hps. unfold pool. rewrite Htl, Hps.
    by repeat split.
  - intros r r' Hchange (Hrange & Hlobby & Hwon).
    destruct Hchange as [r|r sid host|r p host Hp|r r1 sid n res events Hmove
                        |r fuel raw hands events Hgen|r events].
    + done.
    + unfold pool in *. cbn [timeline players state set_hostId set_players].
      pose proof (allHands_filter_sublist (λ p, p_id p ≠ sid) (players r))
        as Hsub.
      split; [|split].
      * apply Forall_app in Hrange as [Ht Hh]. apply Forall_app.
        split; [done|]. rewrite Forall_forall in Hh.
        apply Forall_forall. intros x Hx. apply Hh.
        by eapply elem_of_sublist.
      * intros Hst. destruct (app_eq_nil _ _ (Hlobby Hst)) as [-> Hnil].
        rewrite Hnil in Hsub. by apply sublist_nil_r in Hsub as ->.
      * intros Hst. rewrite (Hwon Hst) in Hsub.
        by apply sublist_nil_r in Hsub.
    + unfold pool in *. cbn [timeline players state set_hostId set_players].
      by rewrite allHands_app, allHands_cons, Hp, !app_nil_r.
    + destruct (validateMove_verdict r sid n) as (v & Hv & Hvalid).
      destruct (valid v) eqn:Hacc.
      * pose proof (makeMove_accepted _ _ _ _ Hv Hacc) as Hrun.
        cbv zeta in Hrun. rewrite Hmove in Hrun.
        destruct (proj1 Hvalid eq_refl) as (Hst & P & HP & HnP & _).
        assert (Hn : n ∈ allHands (players r)).
        { apply elem_of_allHands. exists P. split; [|done].
          by apply findPlayer_Some in HP as [HP _]. }
        assert (Hpool : Forall (λ x, 1 ≤ x ≤ 100)
          ((timeline r ++ [n]) ++ allHands (playFrom sid n (players r)))).
        { unfold pool in Hrange. rewrite Forall_forall in Hrange.
          apply Forall_forall. intros x.
          rewrite !elem_of_app, list_elem_of_singleton.
          intros [[Hx| ->]|Hx%playFrom_subset]; apply Hrange;
            rewrite elem_of_app; eauto. }
        destruct (forallb _ _) eqn:Hall; injection Hrun as _ ->;
          unfold pool;
          cbn [timeline players state set_gameEvents set_state set_players
               set_timeline].
        -- split; [done|]. split; [done|]. intros _.
           by apply allHands_nil, forallb_hands_empty.
        -- split; [done|]. split; congruence.
      * pose proof (makeMove_rejected _ _ _ _ Hv Hacc) as Hrun.
        rewrite Hmove in Hrun.
        destruct (bool_decide _); injection Hrun as _ ->; unfold pool in *;
          cbn [timeline players state set_gameEvents set_state set_lives];
          by repeat split.
    + destruct (generate_hands_distinct _ _ _ _ _ Hgen) as (Hlen & _ & Hr).
      unfold pool, dealt.
      cbn [timeline players state set_gameEvents set_state set_lives
           set_timeline set_players minNumber maxNumber] in *.
      rewrite allHands_assign by done. by repeat split.
    + unfold pool.
      cbn [timeline players state set_gameEvents set_state set_lives
           set_timeline set_players].
      rewrite allHands_reset. by repeat split.
Qed.

(** X23, witness: the same room, with 1 on the timeline and 2, 3 and 4
    in the hands. *)
Lemma numbers_in_reachable_rooms_witness :
  pool demoPlayedRoom = [1; 2; 3; 4] ∧
  Forall (λ x, 1 ≤ x ≤ 100) (pool demoPlayedRoom).
Proof.
  split; [vm_compute; reflexivity|].
  apply (numbers_in_reachable_rooms demoPlayedWorld "ROOM01").
  - apply demoPlayed_reachable.
  - vm_compute. reflexivity.
Defined.

End ReachableRooms.

Section Resetting.

Lemma resetGameBody_exec (env : Env) (room : GameRoom) :
  exec (resetGameBody env) room = roomAfterReset env room.
Proof. reflexivity. Qed.

(** X24. [reset-game]. A request for a room that is not stored, or from a
    connection that is not the room's host, gets an error on the requesting
    connection alone and changes nothing. From the host, in any state of
    the game, the stored room goes back to the lobby with all its lives, an
    empty timeline, every hand empty, the seats and the host kept and the
    event list cut to the record of the reset; the other rooms are
    untouched, and the room and its projection are broadcast to the
    room. *)
Theorem onResetGame_effect (env : Env) (socketId roomId : string) (w : World) :
  wf (db w) →
  let w' := onResetGame env socketId roomId w in
  match getRoom roomId (db w) with
  | None => w' = emit (ToSocket socketId) (MsgError "Room not found") w
  | Some room =>
      if decide (hostId room = socketId) then
        let room' := roomAfterReset env room in
        (∀ roomId', getRoom roomId' (db w') =
           if decide (roomId' = roomId) then Some room'
           else getRoom roomId' (db w)) ∧
        subs w' = subs w ∧
        outbox w' = outbox w ++
          [(ToRoom roomId, RoomUpdated room');
           (ToRoom roomId, GameStateUpdated (getGameState room'))]
      else
        w' = emit (ToSocket socketId)
               (MsgError "Only host can reset the game") w
  end.
Proof.
  intros Hwf w'. unfold w', onResetGame.
  destruct (getRoom roomId (db w)) as [room|] eqn:Hget; [|done].
  destruct (decide (hostId room = socketId)) as [Hhost|Hhost].
  - rewrite bool_decide_eq_false_2 by (by intros ?).
    rewrite resetGameBody_exec. cbv zeta. cbn [db subs outbox emit withDb].
    split; [|split; [done|by rewrite <- app_assoc]].
    intros roomId'.
    pose proof (getRoom_id _ _ _ Hget) as Hid.
    rewrite <- Hid in Hget |- *.
    apply (getRoom_after_update room); [done|done|].
    unfold sameSeats, roomAfterReset.
    cbn [r_id players maxLives numbersPerPlayer].
    rewrite <- !list_fmap_compose. by repeat split.
  - by rewrite bool_decide_eq_true_2.
Qed.

Lemma onResetGame_effect_witness :
  getRoom "ROOM01" (db (onResetGame demoEnv "s1" "ROOM01" midGameWorld)) =
  Some (roomAfterReset demoEnv midGameRoom).
Proof.
  pose proof (onResetGame_effect demoEnv "s1" "ROOM01" midGameWorld
                midGameWorld_wf) as H.
  cbv zeta in H.
  change (getRoom "ROOM01" (db midGameWorld)) with (Some midGameRoom) in H.
  change (decide (hostId midGameRoom = "s1"))
    with (@left ("s1" = "s1") ("s1" ≠ "s1") eq_refl) in H.
  cbv iota in H. destruct H as [H _]. exact (H "ROOM01").
Defined.

End Resetting.

Section PlayingANumber.

(** X25. A [play-number] that is out of place costs the room a life,
    whoever sends it. When the connection has no seat in the room, or the
    game of the room is not being played, or nobody holds the number, the
    stored room has had one [lives--] (never more lives than before, and
    exactly one less in the range in which the doubles count exactly) and
    keeps its timeline, hands, seats and host; its state becomes
    [game-over] when no life is left and is unchanged otherwise. The other
    rooms are untouched and the room and its projection are broadcast to
    the room. *)
Theorem onPlayNumber_out_of_place (env : Env) (socketId roomId : string)
    (number : Z) (w : World) (room : GameRoom) :
  wf (db w) → getRoom roomId (db w) = Some room →
  findPlayer socketId (players room) = None ∨ state room ≠ Playing ∨
    number ∉ allHands (players room) →
  let w' := onPlayNumber env socketId roomId number w in
  ∃ room',
    getRoom roomId (db w') = Some room' ∧
    lives room' = decrement (lives room) ∧
    lives room' ≤ lives room ∧
    (exactRange (lives room) → lives room' = lives room - 1) ∧
    state room' =
      (if bool_decide (lives room' ≤ 0) then GameOver else state room) ∧
    timeline room' = timeline room ∧ players room' = players room ∧
    hostId room' = hostId room ∧
    (∀ roomId', roomId' ≠ roomId →
       getRoom roomId' (db w') = getRoom roomId' (db w)) ∧
    subs w' = subs w ∧
    outbox w' = outbox w ++
      [(ToRoom roomId, RoomUpdated room');
       (ToRoom roomId, GameStateUpdated (getGameState room'))].
Proof.
  intros Hwf Hget Hout w'.
  assert (Hrej : accepted socketId number room = false).
  { apply not_true_is_false.
    intros (Hst & P & HP & Hn & _)%accepted_iff.
    destruct Hout as [Hnone|[Hnp|Hnh]]; [congruence|done|].
    apply Hnh, elem_of_allHands. exists P. split; [|done].
    by apply findPlayer_Some in HP as [HP _]. }
  pose proof (makeMove_refused _ _ _ Hrej) as Hmove.
  destruct (playNumberBody_run env socketId number room)
    as (res & room1 & events & Hrun & Hbody).
  unfold exec in Hmove. rewrite Hrun in Hmove. cbn [snd] in Hmove.
  unfold w', onPlayNumber. rewrite Hget. unfold exec. rewrite Hbody.
  cbv zeta. cbn [snd db subs outbox emit withDb].
  exists (set_gameEvents events room1).
  pose proof (getRoom_id _ _ _ Hget) as Hid.
  assert (Hseats : sameSeats room (set_gameEvents events room1)).
  { apply sameSeats_events. by eapply sameSeats_move. }
  assert (Hread : ∀ roomId',
    getRoom roomId' (updateRoom (set_gameEvents events room1) (db w)) =
    if decide (roomId' = r_id room) then Some (set_gameEvents events room1)
    else getRoom roomId' (db w)).
  { intros roomId'. apply getRoom_after_update; [done| |done].
    by rewrite Hid. }
  assert (Hfields :
    lives room1 = decrement (lives room) ∧
    state room1 =
      (if bool_decide (decrement (lives room) ≤ 0) then GameOver
       else state room) ∧
    timeline room1 = timeline room ∧ players room1 = players room ∧
    hostId room1 = hostId room)
    by (rewrite Hmove; by destruct (bool_decide _)).
  destruct Hfields as (Hf1 & Hf2 & Hf3 & Hf4 & Hf5).
  split; [by rewrite Hread, decide_True|].
  cbn [lives state timeline players hostId set_gameEvents].
  split; [done|].
  split; [rewrite Hf1; apply decrement_le|].
  split; [intros Hexact; by rewrite Hf1, decrement_exact|].
  split; [by rewrite Hf2, Hf1|].
  do 3 (split; [done|]).
  split; [intros roomId' Hne; rewrite Hread, decide_False; congruence|].
  split; [done|]. by rewrite <- app_assoc.
Qed.

Lemma onPlayNumber_out_of_place_witness :
  ∃ room',
    getRoom "ROOM01" (db (onPlayNumber demoEnv "s9" "ROOM01" 7 midGameWorld))
      = Some room' ∧
    lives room' = lives midGameRoom - 1.
Proof.
  destruct (onPlayNumber_out_of_place demoEnv "s9" "ROOM01" 7 midGameWorld
              midGameRoom midGameWorld_wf eq_refl (or_introl eq_refl))
    as (room' & Hget & _ & _ & Hlives & _).
  exists room'. split; [exact Hget|].
  apply Hlives. vm_compute. split; [reflexivity|discriminate].
Defined.

End PlayingANumber.

Section PlayingTheExpectedNumber.

(** X26. A [play-number] that [validateMove] accepts. The stored room gets
    the number at the end of its timeline and out of the hand of the
    player, keeps its lives, seats and host, and goes to [victory] when
    every hand is empty afterwards; otherwise it stays in [playing]. The
    other rooms are untouched and the room and its projection are
    broadcast to the room. *)
Theorem onPlayNumber_in_turn (env : Env) (socketId roomId : string)
    (number : Z) (w : World) (room : GameRoom) :
  wf (db w) → getRoom roomId (db w) = Some room →
  accepted socketId number room = true →
  let w' := onPlayNumber env socketId roomId number w in
  ∃ room',
    getRoom roomId (db w') = Some room' ∧
    timeline room' = timeline room ++ [number] ∧
    players room' = playFrom socketId number (players room) ∧
    lives room' = lives room ∧ hostId room' = hostId room ∧
    state room' =
      (if decide (allHands (players room') = []) then Victory else Playing) ∧
    (∀ roomId', roomId' ≠ roomId →
       getRoom roomId' (db w') = getRoom roomId' (db w)) ∧
    subs w' = subs w ∧
    outbox w' = outbox w ++
      [(ToRoom roomId, RoomUpdated room');
       (ToRoom roomId, GameStateUpdated (getGameState room'))].
Proof.
  intros Hwf Hget Hacc w'.
  pose proof (proj1 (accepted_iff _ _ _) Hacc) as (Hst & _).
  unfold accepted in Hacc.
  destruct (validateMove_verdict room socketId number) as (v & Hv & _).
  rewrite Hv in Hacc.
  pose proof (makeMove_accepted _ _ _ _ Hv Hacc) as Hmove.
  cbv zeta in Hmove. cbn [players set_players] in Hmove.
  destruct (playNumberBody_run env socketId number room)
    as (res & room1 & events & Hrun & Hbody).
  rewrite Hrun in Hmove.
  assert (Hfields :
    timeline room1 = timeline room ++ [number] ∧
    players room1 = playFrom socketId number (players room) ∧
    lives room1 = lives room ∧ hostId room1 = hostId room ∧
    state room1 =
      (if decide (allHands (players room1) = []) then Victory else Playing)).
  { destruct (forallb _ _) eqn:Hall; injection Hmove as _ ->;
      cbn [timeline players lives hostId state set_state set_players
           set_timeline]; do 4 (split; [done|]).
    - apply forallb_hands_empty, allHands_nil in Hall.
      by rewrite decide_True.
    - rewrite decide_False; [done|].
      intros Hnil%allHands_nil%forallb_hands_empty. congruence. }
  destruct Hfields as (Hf1 & Hf2 & Hf3 & Hf4 & Hf5).
  unfold w', onPlayNumber. rewrite Hget. unfold exec. rewrite Hbody.
  cbv zeta. cbn [snd db subs outbox emit withDb].
  exists (set_gameEvents events room1).
  pose proof (getRoom_id _ _ _ Hget) as Hid.
  assert (Hseats : sameSeats room (set_gameEvents events room1)).
  { apply sameSeats_events. by eapply sameSeats_move. }
  assert (Hread : ∀ roomId',
    getRoom roomId' (updateRoom (set_gameEvents events room1) (db w)) =
    if decide (roomId' = r_id room) then Some (set_gameEvents events room1)
    else getRoom roomId' (db w)).
  { intros roomId'. apply getRoom_after_update; [done| |done].
    by rewrite Hid. }
  split; [by rewrite Hread, decide_True|].
  do 5 (split; [done|]).
  split; [intros roomId' Hne; rewrite Hread, decide_False; congruence|].
  split; [done|]. by rewrite <- app_assoc.
Qed.

Lemma onPlayNumber_in_turn_witness :
  ∃ room',
    getRoom "ROOM01" (db (onPlayNumber demoEnv "s2" "ROOM01" 7 midGameWorld))
      = Some room' ∧
    timeline room' = timeline midGameRoom ++ [7].
Proof.
  destruct (onPlayNumber_in_turn demoEnv "s2" "ROOM01" 7 midGameWorld
              midGameRoom midGameWorld_wf eq_refl)
    as (room' & Hget & Htl & _).
  - vm_compute. reflexivity.
  - by exists room'.
Defined.

End PlayingTheExpectedNumber.

Section Messages.

Lemma outbox_handlePlayerLeave (socketId roomId : string) (w : World) :
  ∃ new,
    outbox (handlePlayerLeave socketId (Some roomId) w) = outbox w ++ new ∧
    (length new ≤ 2)%nat ∧
    Forall (λ tm, tm.1 = ToRoom roomId ∧ isError tm.2 = false) new ∧
    subs (handlePlayerLeave socketId (Some roomId) w) = subs w.
Proof.
  assert (Hnothing : ∃ new : list (Target * Message),
    outbox w = outbox w ++ new ∧ (length new ≤ 2)%nat ∧
    Forall (λ tm, tm.1 = ToRoom roomId ∧ isError tm.2 = false) new ∧
    subs w = subs w).
  { exists []. rewrite app_nil_r. simpl. split; [done|]. split; [lia|].
    split; [constructor|done]. }
  destruct (decide (roomId = EmptyString)) as [->|Hne]; [done|].
  destruct (getRoom roomId (db w)) as [room|] eqn:Hget.
  - destruct (decide (hostLeavesLobby socketId room)) as [Hhl|Hhl].
    + rewrite (handlePlayerLeave_host_lobby _ _ _ _ Hne Hget Hhl).
      exists [(ToRoom roomId, RoomDeleted "Host left during lobby")].
      split; [done|]. simpl. split; [lia|]. split; [|done].
      constructor; [done|constructor].
    + destruct (remaining socketId room) as [|q qs] eqn:Hrem.
      * by rewrite (handlePlayerLeave_emptied _ _ _ _ Hne Hget Hhl Hrem).
      * rewrite (handlePlayerLeave_survives _ _ _ _ Hne Hget Hhl)
          by (by rewrite Hrem).
        match goal with |- context [emitGameStateIfStarted ?t ?r ?x] =>
          destruct (emitGameStateIfStarted_db t r x) as (_ & -> & ->) end.
        cbn [outbox subs emit withDb]. rewrite <- app_assoc.
        eexists. split; [reflexivity|].
        destruct (bool_decide _); simpl; (split; [lia|]); (split; [|done]);
          repeat (constructor; [done|]); constructor.
  - by rewrite (handlePlayerLeave_missing _ _ _ Hget).
Qed.

#[local] Ltac sent :=
  eexists; split; [rewrite <- ?app_assoc; reflexivity|];
  simpl; split; [lia|]; split; [|done];
  repeat (constructor; [done|]); constructor.

Lemma sends_nothing (req : Request) (w w' : World) :
  outbox w' = outbox w →
  ∃ new,
    outbox w' = outbox w ++ new ∧ (length new ≤ 3)%nat ∧
    Forall (wellAddressed req) new ∧
    (roomNamed req = None → new = []).
Proof.
  intros ->. exists []. rewrite app_nil_r. simpl.
  split; [done|]. split; [lia|]. split; [constructor|done].
Qed.

(** X27. Who hears what. Serving a request only adds messages to those
    already sent, at most three; each goes to the requesting connection or
    to the channel of the room the request names, and an error goes to the
    requesting connection only. The creation of a room and a [disconnect]
    send nothing. *)
Theorem serve_messages (req : Request) (w w' : World) :
  serve req w = Some w' →
  ∃ new,
    outbox w' = outbox w ++ new ∧ (length new ≤ 3)%nat ∧
    Forall (wellAddressed req) new ∧
    (roomNamed req = None → new = []).
Proof.
  intros Hserve. destruct req as
    [code b|sid data|env sid rid|env sid rid n|env sid rid|sid rid|sid];
    simpl in Hserve.
  - injection Hserve as <-. by apply sends_nothing.
  - injection Hserve as <-.
    destruct (getRoom (jd_roomId data) (db w)) as [room|] eqn:Hget.
    + destruct (findPlayer sid (players room)) as [p|] eqn:Hfind.
      * rewrite (onJoinRoom_seated _ _ _ _ _ Hget Hfind).
        rewrite (proj2 (proj2 (emitGameStateIfStarted_db _ _ _))).
        cbn [outbox emit socketJoin]. destruct (bool_decide _); sent.
      * destruct (decide (state room = Playing)) as [Hst|Hst].
        -- rewrite (onJoinRoom_refused _ _ _ _ Hget Hfind Hst). sent.
        -- rewrite (onJoinRoom_new _ _ _ _ Hget Hfind Hst).
           rewrite (proj2 (proj2 (emitGameStateIfStarted_db _ _ _))).
           cbn [outbox emit]. destruct (bool_decide _); sent.
    + rewrite (onJoinRoom_missing _ _ _ Hget). sent.
  - destruct (getRoom rid (db w)) as [room|] eqn:Hget.
    + destruct (decide (startAllowed sid room)) as [Hok|Hno].
      * pose proof (onStartGame_allowed env sid rid w room Hget Hok) as Hrun.
        destruct (dealFor env room) as [hands|e|]; [|done|congruence].
        destruct Hrun as (events & Hrun). cbv zeta in Hrun.
        rewrite Hrun in Hserve. injection Hserve as <-.
        cbn [outbox emit withDb]. sent.
      * destruct (onStartGame_refused env sid rid w) as (msg & Hrun);
          [right; by exists room|].
        rewrite Hrun in Hserve. injection Hserve as <-. sent.
    + destruct (onStartGame_refused env sid rid w) as (msg & Hrun);
        [by left|].
      rewrite Hrun in Hserve. injection Hserve as <-. sent.
  - injection Hserve as <-. unfold onPlayNumber.
    destruct (getRoom rid (db w)) as [room|];
      cbn [outbox emit withDb]; sent.
  - injection Hserve as <-. unfold onResetGame.
    destruct (getRoom rid (db w)) as [room|]; [case_bool_decide|];
      cbn [outbox emit withDb]; sent.
  - injection Hserve as <-. unfold onLeaveRoom. cbv zeta.
    destruct (outbox_handlePlayerLeave sid rid (socketLeave sid rid w))
      as (new & Hout & Hlen & Hnew & _).
    cbn [outbox emit]. rewrite Hout. cbn [outbox socketLeave].
    rewrite <- app_assoc. eexists. split; [reflexivity|].
    split; [|split; [|done]].
    + rewrite length_app. simpl. lia.
    + apply Forall_app. split; [|by repeat constructor].
      eapply Forall_impl; [exact Hnew|].
      intros [t m] [Ht Hm]. unfold wellAddressed. simpl in *. by subst t.
  - injection Hserve as <-. by apply sends_nothing.
Qed.

Lemma serve_messages_witness :
  ∃ new,
    outbox (onLeaveRoom "s2" "ROOM01" lobbyWorld) =
      outbox lobbyWorld ++ new ∧ (length new ≤ 3)%nat.
Proof.
  destruct (serve_messages (LeaveRoom "s2" "ROOM01") lobbyWorld
              (onLeaveRoom "s2" "ROOM01" lobbyWorld) eq_refl)
    as (new & Hout & Hlen & _).
  by exists new.
Defined.

End Messages.

Section LeavingAnyRoom.

Lemma filtered_unseats (socketId : string) (ps : list Player) :
  socketId ∉ p_id <$> filter (λ p, p_id p ≠ socketId) ps.
Proof.
  intros (p & -> & [Hne _]%list_elem_of_filter)%list_elem_of_fmap.
  by apply Hne.
Qed.

(** X28. [leave-room], whatever room it names. The connection leaves the
    channel of the named room and the last message is the confirmation
    [left-room] to the connection. When the named room is not stored the
    store is unchanged. When it is stored, the connection has no seat left
    in any room afterwards: the seat is deleted by player id, also when it
    was in a room other than the one named. *)
Theorem onLeaveRoom_always (socketId roomId : string) (w : World) :
  wf (db w) →
  let w' := onLeaveRoom socketId roomId w in
  last (outbox w') = Some (ToSocket socketId, LeftRoom) ∧
  subs w' = subs w ∖ {[ (socketId, roomId) ]} ∧
  (getRoom roomId (db w) = None → db w' = db w) ∧
  (roomId ≠ EmptyString → is_Some (getRoom roomId (db w)) →
   ∀ roomId' room', getRoom roomId' (db w') = Some room' →
                    socketId ∉ p_id <$> players room').
Proof.
  intros Hwf w'. unfold w', onLeaveRoom. cbv zeta.
  set (w0 := socketLeave socketId roomId w).
  destruct (outbox_handlePlayerLeave socketId roomId w0)
    as (new & Hout & _ & _ & Hsubs).
  cbn [outbox subs db emit].
  split; [apply last_snoc|]. split; [by rewrite Hsubs|]. split.
  - intros Hnone. destruct roomId as [|c s]; [done|].
    by rewrite (handlePlayerLeave_missing socketId _ w0).
  - intros Hne [room Hget] roomId' room'.
    assert (Hget0 : getRoom roomId (db w0) = Some room) by done.
    assert (Hgone : ∀ d, getRoom roomId' (deleteRoom roomId
                           (removePlayer socketId d)) = Some room' →
                         socketId ∉ p_id <$> players room').
    { intros d. destruct (decide (roomId' = roomId)) as [->|Hother].
      - by rewrite getRoom_deleteRoom_same.
      - rewrite getRoom_deleteRoom_other, getRoom_removePlayer by done.
        destruct (getRoom roomId' d) as [r|]; [|done].
        intros [= <-]. apply filtered_unseats. }
    destruct (decide (hostLeavesLobby socketId room)) as [Hhl|Hhl].
    + rewrite (handlePlayerLeave_host_lobby _ _ _ _ Hne Hget0 Hhl).
      cbn [db emit withDb]. apply Hgone.
    + destruct (remaining socketId room) as [|q qs] eqn:Hrem.
      * rewrite (handlePlayerLeave_emptied _ _ _ _ Hne Hget0 Hhl Hrem).
        cbn [db emit withDb]. apply Hgone.
      * rewrite (handlePlayerLeave_survives _ _ _ _ Hne Hget0 Hhl)
          by (by rewrite Hrem).
        rewrite (proj1 (emitGameStateIfStarted_db _ _ _)).
        cbn [db emit withDb].
        destruct (storeAfterLeave_spec socketId roomId room (db w0) roomId'
                    Hwf Hget0) as [_ ->].
        destruct (decide (roomId' = roomId)) as [->|Hother].
        -- intros [= <-]. apply filtered_unseats.
        -- destruct (getRoom roomId' (db w0)) as [r|]; [|done].
           intros [= <-]. apply filtered_unseats.
Qed.

Lemma onLeaveRoom_always_witness :
  last (outbox (onLeaveRoom "s2" "ROOM01" lobbyWorld)) =
  Some (ToSocket "s2", LeftRoom).
Proof.
  apply (onLeaveRoom_always "s2" "ROOM01" lobbyWorld), lobbyWorld_wf.
Defined.

End LeavingAnyRoom.

(** * The in-memory revision of the handlers *)

Section InMemoryRevision.

Import InMemory.

Lemma get_mutate (roomId roomId' : string) (f : GameRoom → GameRoom)
    (rs : list (string * GameRoom)) :
  get roomId' (mutate roomId f rs) =
  if decide (roomId' = roomId) then f <$> get roomId' rs else get roomId' rs.
Proof.
  unfold get, mutate. induction rs as [|[k v] rs IH].
  - by destruct (decide _).
  - rewrite fmap_cons. cbn [List.find fst snd].
    destruct (decide (k = roomId)) as [->|Hk]; cbn [fst snd].
    + destruct (decide (roomId' = roomId)) as [->|Hne].
      * by rewrite !bool_decide_eq_true_2.
      * rewrite !bool_decide_eq_false_2 by done. exact IH.
    + case_bool_decide as Hk'; [subst k; by rewrite decide_False|].
      exact IH.
Qed.

Lemma get_remove (roomId roomId' : string) (rs : list (string * GameRoom)) :
  get roomId' (remove roomId rs) =
  if decide (roomId' = roomId) then None else get roomId' rs.
Proof.
  unfold get, remove. induction rs as [|[k v] rs IH].
  - by destruct (decide _).
  - rewrite filter_cons. cbn [List.find fst snd].
    destruct (decide (k ≠ roomId)) as [Hk|Hk].
    + cbn [List.find fst snd]. case_bool_decide as Hk'; [|exact IH].
      subst k. by rewrite decide_False.
    + apply dec_stable in Hk as ->. rewrite IH.
      destruct (decide (roomId' = roomId)) as [->|Hne]; [done|].
      by rewrite bool_decide_eq_false_2.
Qed.

Lemma get_entry (k : string) (v : GameRoom) (rs : list (string * GameRoom)) :
  NoDup (fst <$> rs) → (k, v) ∈ rs → get k rs = Some v.
Proof.
  unfold get. induction rs as [|[k' v'] rs IH]; [by intros _ ?%elem_of_nil|].
  rewrite fmap_cons. intros [Hk Hrs]%NoDup_cons [[= -> ->]|Hin]%elem_of_cons;
    cbn [List.find fst snd].
  - by rewrite bool_decide_eq_true_2.
  - rewrite bool_decide_eq_false_2; [by apply IH|].
    intros ->. apply Hk. by apply (list_elem_of_fmap_2 fst _ (k, v)).
Qed.

Lemma findRoomOf_Some (socketId roomId : string)
    (rs : list (string * GameRoom)) :
  NoDup (fst <$> rs) → findRoomOf socketId rs = Some roomId →
  ∃ room, get roomId rs = Some room ∧ socketId ∈ p_id <$> players room.
Proof.
  unfold findRoomOf. intros Hnd Hfind.
  destruct (List.find _ rs) as [[k room]|] eqn:Hf; [|done].
  injection Hfind as ->. apply find_some in Hf as [Hin Hseat].
  exists room. split; [apply get_entry; [done|by apply list_elem_of_In]|].
  apply existsb_exists in Hseat as (p & Hp & Hid%bool_decide_eq_true_1).
  rewrite <- Hid. by apply list_elem_of_fmap_2, list_elem_of_In.
Qed.

Lemma findRoomOf_None (socketId : string) (rs : list (string * GameRoom)) :
  findRoomOf socketId rs = None →
  ∀ roomId room, (roomId, room) ∈ rs → socketId ∉ p_id <$> players room.
Proof.
  unfold findRoomOf. intros Hfind roomId room Hin.
  destruct (List.find _ rs) as [kv|] eqn:Hf; [done|].
  pose proof (find_none _ _ Hf (roomId, room)
                (proj1 (list_elem_of_In _ _) Hin)) as Hno.
  intros (p & Hid & Hp)%list_elem_of_fmap.
  apply not_true_iff_false in Hno. apply Hno, existsb_exists.
  exists p. split; [by apply list_elem_of_In|].
  by apply bool_decide_eq_true_2.
Qed.

(** X29. [disconnect] in the in-memory revision. [handlePlayerLeave] looks
    for the first room, in the order of creation, that seats the
    connection. When there is none nothing changes. Otherwise the
    connection leaves that room as by a [leave-room]: if it was the host
    of a room in the lobby the room is destroyed and [room-deleted] goes to
    the channel; else the room is destroyed when nobody stays; else it
    stays with the other players in their order, the first of them the
    host if the host left, and [room-updated] goes to the channel. The
    other rooms are as before. The codes of the map are distinct, and the
    code of the room found is not the empty string (for which the function
    returns at once). *)
Theorem disconnect_in_memory (socketId : string) (w : MemWorld) :
  NoDup (fst <$> rooms w) →
  let w' := onDisconnect socketId w in
  match findRoomOf socketId (rooms w) with
  | None =>
      w' = w ∧
      ∀ roomId room, (roomId, room) ∈ rooms w →
                     socketId ∉ p_id <$> players room
  | Some roomId =>
      roomId ≠ EmptyString →
      ∃ room,
        get roomId (rooms w) = Some room ∧
        socketId ∈ p_id <$> players room ∧
        (hostLeavesLobby socketId room →
           get roomId (rooms w') = None ∧
           m_outbox w' = m_outbox w ++
             [(ToRoom roomId, RoomDeleted "Host left during lobby")]) ∧
        (¬ hostLeavesLobby socketId room → remaining socketId room = [] →
           get roomId (rooms w') = None ∧ m_outbox w' = m_outbox w) ∧
        (¬ hostLeavesLobby socketId room → remaining socketId room ≠ [] →
           get roomId (rooms w') = Some (roomAfterLeave socketId room) ∧
           m_outbox w' = m_outbox w ++
             [(ToRoom roomId, RoomUpdated (roomAfterLeave socketId room))]) ∧
        (∀ roomId', roomId' ≠ roomId →
           get roomId' (rooms w') = get roomId' (rooms w)) ∧
        m_subs w' = m_subs w
  end.
Proof.
  intros Hnd w'. unfold w', onDisconnect, handlePlayerLeave.
  cbn [noRoomId]. cbv zeta.
  destruct (findRoomOf socketId (rooms w)) as [roomId|] eqn:Hfind.
  - intros Hne.
    destruct (findRoomOf_Some _ _ _ Hnd Hfind) as (room & Hget & Hseat).
    exists room. split; [done|]. split; [done|].
    destruct roomId as [|c s]; [done|]. set (roomId := String c s) in *.
    rewrite Hget. fold (remaining socketId room).
    unfold hostLeavesLobby.
    destruct (decide (hostId room = socketId)) as [Hhost|Hhost];
      destruct (decide (state room = Lobby)) as [Hst|Hst];
      rewrite ?(bool_decide_eq_true_2 (hostId room = socketId)),
              ?(bool_decide_eq_false_2 (hostId room = socketId)),
              ?(bool_decide_eq_true_2 (state room = Lobby)),
              ?(bool_decide_eq_false_2 (state room = Lobby)) by done;
      cbn [andb].
    1: { cbn [rooms m_outbox m_subs withRooms m_emit].
         rewrite get_remove, decide_True by done.
         split; [done|]. split; [by intros []|]. split; [by intros []|].
         split; [|done]. intros roomId' Hother.
         by rewrite get_remove, get_mutate, !decide_False. }
    all: cbn [players set_players].
    all: destruct (remaining socketId room) as [|q qs] eqn:Hrem;
      [rewrite bool_decide_eq_true_2 by done|
       rewrite bool_decide_eq_false_2 by done].
    all: cbn [rooms m_outbox m_subs withRooms m_emit].
    all: split; [by intros []|].
    all: rewrite ?get_remove, ?get_mutate, ?decide_True by done.
    all: split; [try done; by intros _ _|].
    all: split; [try done|].
    all: try (split; [|done]; intros roomId' Hother;
              by rewrite ?get_remove, ?get_mutate, ?decide_False).
    all: intros _ _; rewrite Hget; cbn [fmap option_fmap option_map];
      split; [f_equal|do 2 f_equal]; unfold roomAfterLeave, hostAfterLeave;
      rewrite Hrem;
      rewrite ?(bool_decide_eq_true_2 (hostId room = socketId)),
              ?(bool_decide_eq_false_2 (hostId room = socketId)) by done;
      try rewrite (bool_decide_eq_true_2 (0 < _)%nat) by (simpl; lia);
      cbn [andb]; try done; by destruct room.
  - split; [done|]. by apply findRoomOf_None.
Qed.

Lemma disconnect_in_memory_witness :
  get "ROOM01" (rooms (onDisconnect "s1" memDemo)) = None.
Proof.
  pose proof (disconnect_in_memory "s1" memDemo) as H.
  cbv zeta in H.
  change (findRoomOf "s1" (rooms memDemo)) with (Some "ROOM01") in H.
  cbv iota in H.
  destruct H as (room & Hget & _ & Hhl & _).
  - apply (bool_decide_unpack _). vm_compute. exact I.
  - discriminate.
  - apply Hhl. injection Hget as <-. by split.
Defined.

(** X30. [join-room] in the in-memory revision seats the connection on
    every join. For a stored room, in any state of the game and whether or
    not the connection already has a seat in it, a new player with an
    empty hand is added at the end of the player list, so that the
    connection has one seat more than before; the host changes to the
    connection when it asks for it or the room has none, and the room is
    broadcast to its channel. *)
Theorem join_in_memory_seats_again (socketId : string) (data : JoinData)
    (w : MemWorld) (room : GameRoom) :
  get (jd_roomId data) (rooms w) = Some room →
  let w' := onJoinRoom socketId data w in
  let room' := roomAfterJoin socketId data room in
  get (jd_roomId data) (rooms w') = Some room' ∧
  players room' = players room ++ [newPlayer socketId data] ∧
  length (filter (λ p, p_id p = socketId) (players room')) =
    S (length (filter (λ p, p_id p = socketId) (players room))) ∧
  state room' = state room ∧
  (∀ roomId', roomId' ≠ jd_roomId data →
     get roomId' (rooms w') = get roomId' (rooms w)) ∧
  m_subs w' = {[ (socketId, jd_roomId data) ]} ∪ m_subs w ∧
  m_outbox w' = m_outbox w ++ [(ToRoom (jd_roomId data), RoomUpdated room')].
Proof.
  intros Hget w' room'. unfold w', onJoinRoom. rewrite Hget. cbv zeta.
  cbn [rooms m_subs m_outbox m_emit withRooms].
  assert (Hroom : (if default false (jd_isHost data) ||
                      bool_decide (hostId (set_players
                        (players room ++
                         [mkPlayer socketId
                            (nameOrAnonymous (jd_playerName data)) []])
                        room) = EmptyString)
                   then set_hostId socketId
                          (set_players
                             (players room ++
                              [mkPlayer socketId
                                 (nameOrAnonymous (jd_playerName data)) []])
                             room)
                   else set_players
                          (players room ++
                           [mkPlayer socketId
                              (nameOrAnonymous (jd_playerName data)) []])
                          room) = room').
  { unfold room', roomAfterJoin, hostAfterJoin, newPlayer.
    cbn [hostId set_players].
    destruct (_ || _); [done|]. by destruct room. }
  rewrite Hroom. split; [by rewrite get_mutate, decide_True, Hget|].
  split; [done|]. split.
  - unfold room', roomAfterJoin. cbn [players set_hostId set_players].
    rewrite filter_app, length_app.
    rewrite (filter_cons_True (λ p, p_id p = socketId)) by done.
    simpl. lia.
  - split; [done|]. split; [|done]. intros roomId' Hne.
    by rewrite get_mutate, decide_False.
Qed.

Lemma join_in_memory_seats_again_witness :
  get "ROOM01"
    (rooms (onJoinRoom "s2" (mkJoinData "ROOM01" None None) memDemo)) =
  Some (roomAfterJoin "s2" (mkJoinData "ROOM01" None None) demoLobbyRoom).
Proof.
  apply (join_in_memory_seats_again "s2" (mkJoinData "ROOM01" None None)
           memDemo demoLobbyRoom).
  reflexivity.
Defined.

End InMemoryRevision.
